(** * Frankenstein-Handheld: the gameplay core, embedded and verified

    A shallow embedding of the TypeScript gameplay core, one module per
    source file,

      - [src/config/types.ts]         enums and records               ([Types])
      - [src/config/constants.ts]     thresholds and timing           ([Constants])
      - [src/logic/GameFSM.ts]        the ritual state machine        ([GameFSM])
      - [src/logic/RitualLogic.ts]    orchestration functions         ([RitualLogic])
      - [src/config/rituals.ts]       ritual generation and scaling   ([Rituals])
      - [src/logic/InputManager.ts]   the debounced input classifier  ([InputManager])
      - [src/logic/GameController.ts] the controller around them      ([GameController])

    followed by the vocabulary of the properties ([Doubles], [Machine],
    [Invariants], [Spec], [Scenario]) and by the properties themselves.

    Conventions of the embedding.

      - A JavaScript [number] holding a time (seconds or milliseconds) or a
        multiplier is an exact rational [Q]; equality of times is [Qeq]
        ([==]).  The counters [currentStepIndex], [mistakeCount] and
        [golem_madnessLevel] start at [0] and are only ever incremented or
        reset to [0], so they are [nat].  Level numbers and the readings of
        [Date.now()] are [Z].
      - A class instance is a record; a method is a function in a small
        state-and-log monad: it threads the instance and collects the calls
        made to the registered listeners, in order.  A listener is known by
        its identity; it observes, and does not call back into the
        instance that notifies it.
      - [Math.random()] is a tape of values read in order; [Date.now()] and
        [performance.now()] are arguments.
      - [console.log] / [console.warn] and the calls into the rendering and
        audio collaborators have no effect on the core and are left out. *)

From Stdlib Require Import ZArith QArith Qround Qminmax Qabs Lia Lqa Sorted PrimFloat.
From stdpp Require Import base decidable countable finite option list strings gmap.

Set Default Proof Using "Type".

(* ===================================================================== *)
(** * src/config/types.ts *)
(* ===================================================================== *)

Module Types.

Inductive GameState : Type :=
| STATE_IDLE
| STATE_RITUAL_STEP
| STATE_MONSTER_MAD
| STATE_ITS_ALIVE.

Inductive InputAction : Type :=
| JOYSTICK_UP
| JOYSTICK_DOWN
| JOYSTICK_LEFT
| JOYSTICK_RIGHT
| BUTTON_A
| BUTTON_B
| BUTTON_START
| BUTTON_PAUSE
| DPAD_UP
| DPAD_DOWN
| DPAD_LEFT
| DPAD_RIGHT.

Inductive EKGState : Type :=
| STATE_CALM
| STATE_NERVOUS
| STATE_ANGRY
| STATE_FLATLINE
| STATE_ALIVE.

Inductive SurgicalObjectType : Type :=
| ORGAN
| WIRES
| NEEDLE_THREAD
| SCALPEL
| DISINFECTANT
| TOOLS.

#[global] Instance GameState_eq_dec : EqDecision GameState.
Proof. solve_decision. Defined.
#[global] Instance InputAction_eq_dec : EqDecision InputAction.
Proof. solve_decision. Defined.
#[global] Instance EKGState_eq_dec : EqDecision EKGState.
Proof. solve_decision. Defined.

(** [interface RitualStep] *)
Record RitualStep : Type := mkRitualStep {
  name : string;
  promptText : string;
  correctAction : InputAction;
  timeLimit : Q;
  surgicalObject : option SurgicalObjectType;
  surgeonAnimation : string
}.

(** [interface Ritual] *)
Record Ritual : Type := mkRitual {
  levelNumber : Z;
  steps : list RitualStep;
  baseTimeLimit : Q;
  timeLimitMultiplier : Q
}.

(** [interface GameStateData]; its [levelNumber] field is [dataLevelNumber]
    here, because a Rocq record projection is a global name. *)
Record GameStateData : Type := mkGameStateData {
  currentState : GameState;
  currentRitual : Ritual;
  currentStepIndex : nat;
  mistakeCount : nat;
  timeRemaining : Q;
  golem_current_state : EKGState;
  golem_madnessLevel : nat;
  dataLevelNumber : Z
}.

End Types.
Import Types.

(* ===================================================================== *)
(** * src/config/constants.ts *)
(* ===================================================================== *)

Module Constants.

(** [TIMING.INPUT_DEBOUNCE_MS] *)
Definition INPUT_DEBOUNCE_MS : Z := 50.

(** [MISTAKE_THRESHOLDS] *)
Definition MISTAKE_THRESHOLDS_CALM : nat := 0.
Definition MISTAKE_THRESHOLDS_NERVOUS : nat := 1.
Definition MISTAKE_THRESHOLDS_ANGRY : nat := 3.

(** [DIFFICULTY.MIN_TIME_LIMIT]: declared in the constants, used by no
    function of the core. *)
Definition MIN_TIME_LIMIT : Q := 1.

(** [KEYBOARD_MAP]: the own properties of the object, in source order. *)
Definition KEYBOARD_MAP : list (string * InputAction) :=
  [ ("ArrowUp", JOYSTICK_UP);
    ("ArrowDown", JOYSTICK_DOWN);
    ("ArrowLeft", JOYSTICK_LEFT);
    ("ArrowRight", JOYSTICK_RIGHT);
    ("w", DPAD_UP);
    ("a", DPAD_LEFT);
    ("s", DPAD_DOWN);
    ("d", DPAD_RIGHT);
    ("z", BUTTON_A);
    ("x", BUTTON_B);
    ("Enter", BUTTON_START);
    ("Escape", BUTTON_PAUSE) ].

End Constants.

(* ===================================================================== *)
(** * src/logic/GameFSM.ts *)
(* ===================================================================== *)

Module GameFSM.

(** A registered [StateChangeCallback], known by its identity. *)
Definition StateChangeCallback : Type := nat.

(** One call [callback(newState, this.getStateData())]. *)
Record Notification : Type := mkNotification {
  notified : StateChangeCallback;
  notifiedState : GameState;
  snapshot : GameStateData
}.

(** [class GameFSM]: its two private fields. *)
Record t : Type := mkFSM {
  stateData : GameStateData;
  stateChangeCallbacks : list StateChangeCallback
}.

(** A method returning [A]: the updated instance and the listener calls
    it made. *)
Definition M (A : Type) : Type := t -> A * t * list Notification.

Definition ret {A} (a : A) : M A := fun fsm => (a, fsm, []).

Definition bind {A B} (m : M A) (k : A -> M B) : M B :=
  fun fsm =>
    let '(a, fsm1, log1) := m fsm in
    let '(b, fsm2, log2) := k a fsm1 in
    (b, fsm2, log1 ++ log2).

Definition gets {A} (f : GameStateData -> A) : M A :=
  fun fsm => (f (stateData fsm), fsm, []).

Definition modify (f : GameStateData -> GameStateData) : M unit :=
  fun fsm => (tt, mkFSM (f (stateData fsm)) (stateChangeCallbacks fsm), []).

Declare Scope fsm_scope.
Delimit Scope fsm_scope with fsm.
Notation "'let*' x := m 'in' k" := (bind m (fun x => k))
  (at level 10, x name, m at level 100, k at level 200) : fsm_scope.
Notation "m ;; k" := (bind m (fun _ => k))
  (at level 100, k at level 200, right associativity) : fsm_scope.
Local Open Scope fsm_scope.

(** What a run leaves behind. *)
Definition result {A} (r : A * t * list Notification) : A := r.1.1.
Definition after {A} (r : A * t * list Notification) : GameStateData :=
  stateData r.1.2.
Definition emitted {A} (r : A * t * list Notification) : list Notification := r.2.

(** Field assignments [this.stateData.f = v]. *)
Definition set_currentState (v : GameState) (d : GameStateData) : GameStateData :=
  mkGameStateData v (currentRitual d) (currentStepIndex d) (mistakeCount d)
    (timeRemaining d) (golem_current_state d) (golem_madnessLevel d) (dataLevelNumber d).
Definition set_currentRitual (v : Ritual) (d : GameStateData) : GameStateData :=
  mkGameStateData (currentState d) v (currentStepIndex d) (mistakeCount d)
    (timeRemaining d) (golem_current_state d) (golem_madnessLevel d) (dataLevelNumber d).
Definition set_currentStepIndex (v : nat) (d : GameStateData) : GameStateData :=
  mkGameStateData (currentState d) (currentRitual d) v (mistakeCount d)
    (timeRemaining d) (golem_current_state d) (golem_madnessLevel d) (dataLevelNumber d).
Definition set_mistakeCount (v : nat) (d : GameStateData) : GameStateData :=
  mkGameStateData (currentState d) (currentRitual d) (currentStepIndex d) v
    (timeRemaining d) (golem_current_state d) (golem_madnessLevel d) (dataLevelNumber d).
Definition set_timeRemaining (v : Q) (d : GameStateData) : GameStateData :=
  mkGameStateData (currentState d) (currentRitual d) (currentStepIndex d) (mistakeCount d)
    v (golem_current_state d) (golem_madnessLevel d) (dataLevelNumber d).
Definition set_golem_current_state (v : EKGState) (d : GameStateData) : GameStateData :=
  mkGameStateData (currentState d) (currentRitual d) (currentStepIndex d) (mistakeCount d)
    (timeRemaining d) v (golem_madnessLevel d) (dataLevelNumber d).
Definition set_golem_madnessLevel (v : nat) (d : GameStateData) : GameStateData :=
  mkGameStateData (currentState d) (currentRitual d) (currentStepIndex d) (mistakeCount d)
    (timeRemaining d) (golem_current_state d) v (dataLevelNumber d).
Definition set_levelNumber (v : Z) (d : GameStateData) : GameStateData :=
  mkGameStateData (currentState d) (currentRitual d) (currentStepIndex d) (mistakeCount d)
    (timeRemaining d) (golem_current_state d) (golem_madnessLevel d) v.

(** [x || 5] on a number: [0] is falsy. *)
Definition or_default (x : Q) (d : Q) : Q := if Qeq_bool x 0 then d else x.

(** [ritual.steps[0]?.timeLimit || 5] *)
Definition firstTimeLimitOr5 (ritual : Ritual) : Q :=
  match steps ritual !! 0%nat with
  | Some step => or_default (timeLimit step) 5
  | None => 5
  end.

(** [constructor(initialRitual)] *)
Definition new (initialRitual : Ritual) : t :=
  {| stateData :=
       {| currentState := STATE_IDLE;
          currentRitual := initialRitual;
          currentStepIndex := 0;
          mistakeCount := 0;
          timeRemaining := firstTimeLimitOr5 initialRitual;
          golem_current_state := STATE_CALM;
          golem_madnessLevel := 0;
          dataLevelNumber := levelNumber initialRitual |};
     stateChangeCallbacks := [] |}.

Definition getCurrentState : M GameState := gets currentState.

(** [{ ...this.stateData }]: the copy has the same field values. *)
Definition getStateData : M GameStateData := gets (fun d => d).

(** [validTransitions]: the table inside [isValidTransition]. *)
Definition validTransitions (from : GameState) : list GameState :=
  match from with
  | STATE_IDLE => [STATE_RITUAL_STEP]
  | STATE_RITUAL_STEP => [STATE_RITUAL_STEP; STATE_MONSTER_MAD; STATE_ITS_ALIVE]
  | STATE_MONSTER_MAD => [STATE_RITUAL_STEP; STATE_IDLE]
  | STATE_ITS_ALIVE => [STATE_RITUAL_STEP; STATE_IDLE]
  end.

Definition isValidTransition (from to : GameState) : bool :=
  bool_decide (to ∈ validTransitions from).

(** [steps[currentStepIndex]], [undefined] out of range. *)
Definition stepAt (d : GameStateData) : option RitualStep :=
  steps (currentRitual d) !! currentStepIndex d.

Definition onStateEnter (state : GameState) : M unit :=
  match state with
  | STATE_IDLE =>
      modify (set_currentStepIndex 0%nat);;
      modify (set_mistakeCount 0%nat);;
      modify (set_golem_madnessLevel 0%nat);;
      modify (set_golem_current_state STATE_CALM)
  | STATE_RITUAL_STEP =>
      let* currentStep := gets stepAt in
      match currentStep with
      | Some step => modify (set_timeRemaining (timeLimit step))
      | None => ret tt
      end
  | STATE_MONSTER_MAD => modify (set_golem_current_state STATE_FLATLINE)
  | STATE_ITS_ALIVE => modify (set_golem_current_state STATE_ALIVE)
  end.

(** [emitStateChange]: every registered callback, in registration order,
    is called with the new state and a copy of the data. *)
Definition emitStateChange (newState : GameState) : M unit :=
  fun fsm =>
    (tt, fsm,
     (fun callback => mkNotification callback newState (stateData fsm))
       <$> stateChangeCallbacks fsm).

Definition TRANSITION_TO_STATE (newState : GameState) : M bool :=
  let* currentState := gets currentState in
  if negb (isValidTransition currentState newState) then ret false
  else
    modify (set_currentState newState);;
    onStateEnter newState;;
    emitStateChange newState;;
    ret true.

Definition ADVANCE_RITUAL_STEP : M bool :=
  modify (fun d => set_currentStepIndex (S (currentStepIndex d)) d);;
  let* complete := gets (fun d =>
    bool_decide (length (steps (currentRitual d)) <= currentStepIndex d)%nat) in
  if complete then ret false
  else
    let* currentStep := gets stepAt in
    (match currentStep with
     | Some step => modify (set_timeRemaining (timeLimit step))
     | None => ret tt
     end);;
    ret true.

Definition updateGolemState : M unit :=
  let* madness := gets golem_madnessLevel in
  if bool_decide (Constants.MISTAKE_THRESHOLDS_ANGRY <= madness)%nat then
    modify (set_golem_current_state STATE_ANGRY)
  else if bool_decide (Constants.MISTAKE_THRESHOLDS_NERVOUS <= madness)%nat then
    modify (set_golem_current_state STATE_NERVOUS)
  else
    modify (set_golem_current_state STATE_CALM).

Definition REGISTER_MISTAKE : M unit :=
  modify (fun d => set_mistakeCount (S (mistakeCount d)) d);;
  modify (fun d => set_golem_madnessLevel (S (golem_madnessLevel d)) d);;
  updateGolemState.

(** [updateTime(deltaTime)]: [deltaTime] is in milliseconds. *)
Definition updateTime (deltaTime : Q) : M unit :=
  let* currentState := gets currentState in
  if negb (bool_decide (currentState = STATE_RITUAL_STEP)) then ret tt
  else
    modify (fun d => set_timeRemaining (timeRemaining d - deltaTime / 1000)%Q d);;
    let* remaining := gets timeRemaining in
    if Qle_bool remaining 0 then
      modify (set_timeRemaining 0%Q);;
      let* _ := TRANSITION_TO_STATE STATE_MONSTER_MAD in
      ret tt
    else ret tt.

(** [on('stateChange', callback)] *)
Definition on (callback : StateChangeCallback) : M unit :=
  fun fsm => (tt, mkFSM (stateData fsm) (stateChangeCallbacks fsm ++ [callback]), []).

(** [indexOf] then [splice(index, 1)]: the first occurrence goes. *)
Fixpoint removeFirst (callback : nat) (l : list nat) : list nat :=
  match l with
  | [] => []
  | c :: rest => if bool_decide (c = callback) then rest else c :: removeFirst callback rest
  end.

Definition off (callback : StateChangeCallback) : M unit :=
  fun fsm => (tt, mkFSM (stateData fsm) (removeFirst callback (stateChangeCallbacks fsm)), []).

Definition loadRitual (ritual : Ritual) : M unit :=
  modify (set_currentRitual ritual);;
  modify (set_currentStepIndex 0%nat);;
  modify (set_levelNumber (levelNumber ritual));;
  modify (set_timeRemaining (firstTimeLimitOr5 ritual)).

Definition resetToFirstStep : M unit :=
  modify (set_currentStepIndex 0%nat);;
  modify (set_mistakeCount 0%nat);;
  modify (set_golem_madnessLevel 0%nat);;
  modify (set_golem_current_state STATE_CALM);;
  modify (fun d => set_timeRemaining (firstTimeLimitOr5 (currentRitual d)) d).

Definition getCurrentStep : M (option RitualStep) := gets stepAt.

Definition isRitualComplete : M bool :=
  gets (fun d => bool_decide (length (steps (currentRitual d)) <= currentStepIndex d)%nat).

End GameFSM.

(* ===================================================================== *)
(** * src/logic/RitualLogic.ts *)
(* ===================================================================== *)

Module RitualLogic.
Import GameFSM.
Local Open Scope fsm_scope.

Definition START_RITUAL_SEQUENCE : M unit :=
  let* _ := TRANSITION_TO_STATE STATE_RITUAL_STEP in
  ret tt.

Definition VALIDATE_RITUAL_ACTION (action expectedAction : InputAction) : bool :=
  bool_decide (action = expectedAction).

Definition COMPLETE_RITUAL_STEP : M unit :=
  let* hasMoreSteps := ADVANCE_RITUAL_STEP in
  if negb hasMoreSteps then
    let* _ := TRANSITION_TO_STATE STATE_ITS_ALIVE in
    ret tt
  else ret tt.

Definition HANDLE_RITUAL_FAILURE : M unit :=
  REGISTER_MISTAKE;;
  let* _ := TRANSITION_TO_STATE STATE_MONSTER_MAD in
  ret tt.

Definition RETRY_RITUAL : M unit :=
  resetToFirstStep;;
  let* success := TRANSITION_TO_STATE STATE_RITUAL_STEP in
  ret tt.

Definition START_NEW_RITUAL (ritual : Ritual) : M unit :=
  loadRitual ritual;;
  START_RITUAL_SEQUENCE.

End RitualLogic.

(* ===================================================================== *)
(** * src/config/rituals.ts *)
(* ===================================================================== *)

Module Rituals.

(** An entry [{ action, text }] of the variation tables. *)
Record ActionVariation : Type := mkVariation {
  action : InputAction;
  text : string
}.

Definition DISINFECT_ACTIONS : list ActionVariation :=
  [ mkVariation BUTTON_A "Press Button A";
    mkVariation BUTTON_B "Press Button B";
    mkVariation DPAD_UP "D-Pad Up" ].

Definition SLICE_ACTIONS : list ActionVariation :=
  [ mkVariation JOYSTICK_UP "Move Joystick Up";
    mkVariation JOYSTICK_DOWN "Move Joystick Down";
    mkVariation JOYSTICK_LEFT "Move Joystick Left";
    mkVariation JOYSTICK_RIGHT "Move Joystick Right" ].

Definition REMOVE_ACTIONS : list ActionVariation :=
  [ mkVariation BUTTON_B "Press Button B";
    mkVariation BUTTON_A "Press Button A";
    mkVariation DPAD_DOWN "D-Pad Down" ].

Definition CONNECT_ACTIONS : list ActionVariation :=
  [ mkVariation DPAD_RIGHT "D-Pad Right";
    mkVariation DPAD_LEFT "D-Pad Left";
    mkVariation JOYSTICK_RIGHT "Move Joystick Right";
    mkVariation JOYSTICK_LEFT "Move Joystick Left" ].

Definition SEW_ACTIONS : list ActionVariation :=
  [ mkVariation JOYSTICK_DOWN "Move Joystick Down";
    mkVariation JOYSTICK_UP "Move Joystick Up";
    mkVariation DPAD_DOWN "D-Pad Down";
    mkVariation DPAD_UP "D-Pad Up" ].

Definition CLEAN_ACTIONS : list ActionVariation :=
  [ mkVariation DPAD_LEFT "D-Pad Left";
    mkVariation DPAD_RIGHT "D-Pad Right";
    mkVariation JOYSTICK_LEFT "Move Joystick Left";
    mkVariation JOYSTICK_RIGHT "Move Joystick Right" ].

(** [array[i]] for an integer-valued number [i]: [undefined] out of range. *)
Definition at_index {A} (l : list A) (i : Z) : option A :=
  if (i <? 0)%Z then None else l !! Z.to_nat i.

(** A computation that draws from [Math.random()].  The [k]-th call of the
    session returns [random k]; a computation starts at a position of
    that tape and returns the position it stopped at.  [None] is an
    uncaught [TypeError] (a property read on [undefined]). *)
Definition Gen (A : Type) : Type := (nat -> Q) -> nat -> option (A * nat).

Definition gret {A} (a : A) : Gen A := fun _ pos => Some (a, pos).

Definition gbind {A B} (m : Gen A) (k : A -> Gen B) : Gen B :=
  fun random pos =>
    match m random pos with
    | Some (a, pos1) => k a random pos1
    | None => None
    end.

Declare Scope gen_scope.
Delimit Scope gen_scope with gen.
Notation "'let*' x := m 'in' k" := (gbind m (fun x => k))
  (at level 10, x name, m at level 100, k at level 200) : gen_scope.
Local Open Scope gen_scope.

Definition Math_random : Gen Q := fun random pos => Some (random pos, S pos).

(** Reading a property of [o]: throws when [o] is [undefined]. *)
Definition property {A B} (o : option A) (f : A -> B) : Gen B :=
  fun _ pos => match o with Some a => Some (f a, pos) | None => None end.

Definition getRandomAction (actions : list ActionVariation) : Gen (option ActionVariation) :=
  let* r := Math_random in
  gret (at_index actions (Qfloor (r * inject_Z (Z.of_nat (length actions))))).

(** [Math.max(3, Math.floor(x))] *)
Definition max3floor (x : Q) : Q := inject_Z (Z.max 3 (Qfloor x)).

(** The body of the [for] loop that pushes the extra steps, run [n] times. *)
Fixpoint pushCleanSteps (n : nat) (timeLimitMultiplier : Q) (steps : list RitualStep)
  : Gen (list RitualStep) :=
  match n with
  | O => gret steps
  | S n' =>
      let* clean := getRandomAction CLEAN_ACTIONS in
      let* cleanText := property clean text in
      let* cleanAction := property clean action in
      pushCleanSteps n' timeLimitMultiplier
        (steps ++ [ {| name := "Clean Tools";
                       promptText := "Clean Tools: " +:+ cleanText;
                       correctAction := cleanAction;
                       timeLimit := max3floor (8 * timeLimitMultiplier);
                       surgicalObject := Some TOOLS;
                       surgeonAnimation := "clean_tools" |} ])
  end.

(** [Math.floor((levelNumber - 1) / 3)] on an integer level number. *)
Definition extraStepsCount (levelNumber : Z) : Z := ((levelNumber - 1) / 3)%Z.

Definition generateVariedRitual (levelNumber : Z) (baseTimeLimit timeLimitMultiplier : Q)
  : Gen Ritual :=
  let* disinfect := getRandomAction DISINFECT_ACTIONS in
  let* slice := getRandomAction SLICE_ACTIONS in
  let* remove := getRandomAction REMOVE_ACTIONS in
  let* connect := getRandomAction CONNECT_ACTIONS in
  let* sew := getRandomAction SEW_ACTIONS in
  let* disinfectText := property disinfect text in
  let* disinfectAction := property disinfect action in
  let* sliceText := property slice text in
  let* sliceAction := property slice action in
  let* removeText := property remove text in
  let* removeAction := property remove action in
  let* connectText := property connect text in
  let* connectAction := property connect action in
  let* sewText := property sew text in
  let* sewAction := property sew action in
  let steps :=
    [ {| name := "Disinfect";
         promptText := "Disinfect: " +:+ disinfectText;
         correctAction := disinfectAction;
         timeLimit := max3floor (baseTimeLimit * timeLimitMultiplier);
         surgicalObject := Some DISINFECTANT;
         surgeonAnimation := "spray_disinfectant" |};
      {| name := "Slice Open";
         promptText := "Slice Open: " +:+ sliceText;
         correctAction := sliceAction;
         timeLimit := max3floor (baseTimeLimit * timeLimitMultiplier);
         surgicalObject := Some SCALPEL;
         surgeonAnimation := "slice_incision" |};
      {| name := "Remove Organ";
         promptText := "Remove Organ: " +:+ removeText;
         correctAction := removeAction;
         timeLimit := max3floor (baseTimeLimit * timeLimitMultiplier);
         surgicalObject := Some ORGAN;
         surgeonAnimation := "remove_organ" |};
      {| name := "Connect Wires";
         promptText := "Connect Wires: " +:+ connectText;
         correctAction := connectAction;
         timeLimit := max3floor (baseTimeLimit * timeLimitMultiplier);
         surgicalObject := Some WIRES;
         surgeonAnimation := "connect_wires" |};
      {| name := "Sew Shut";
         promptText := "Sew Shut: " +:+ sewText;
         correctAction := sewAction;
         timeLimit := max3floor (baseTimeLimit * timeLimitMultiplier);
         surgicalObject := Some NEEDLE_THREAD;
         surgeonAnimation := "sew_stitches" |} ] in
  let* steps :=
    pushCleanSteps (Z.to_nat (extraStepsCount levelNumber)) timeLimitMultiplier steps in
  gret {| levelNumber := levelNumber;
          baseTimeLimit := baseTimeLimit;
          timeLimitMultiplier := timeLimitMultiplier;
          steps := steps |}.

(** [1 - (0.05 * (levelNumber - 1))] *)
Definition timeReduction (levelNumber : Z) : Q :=
  (1 - (5 # 100) * (inject_Z levelNumber - 1))%Q.

(** [Math.max(0.6, timeReduction)] *)
Definition levelMultiplier (levelNumber : Z) : Q :=
  Qmax (6 # 10) (timeReduction levelNumber).

Definition getRitualForLevel (levelNumber : Z) : Gen Ritual :=
  let baseTimeLimit := 10%Q in
  generateVariedRitual levelNumber baseTimeLimit (levelMultiplier levelNumber).

(** [LEVEL_1_RITUAL], drawn when the module is loaded. *)
Definition LEVEL_1_RITUAL : Gen Ritual := generateVariedRitual 1 10 1.

End Rituals.

(* ===================================================================== *)
(** * The scaling arithmetic in binary64 *)
(* ===================================================================== *)

(** [Rituals] computes with exact rationals where JavaScript computes with
    binary64 doubles.  Here the same expressions are evaluated with the
    kernel's binary64 numbers, to compare the two where the rounding could
    matter: under [Math.floor]. *)
Module Doubles.

(** A small natural number as a double (exact below 2^53). *)
Fixpoint ofNat (n : nat) : float :=
  match n with
  | O => 0%float
  | S n' => (ofNat n' + 1)%float
  end.

(** [Math.max(x, y)] on numbers that are not [NaN]. *)
Definition Math_max (x y : float) : float := if (x <? y)%float then y else x.

(** [1 - (0.05 * (levelNumber - 1))]; the literal is the double of 0.05. *)
Definition timeReduction (levelNumber : float) : float :=
  (1 - (0x1.999999999999ap-5 * (levelNumber - 1)))%float.

(** [Math.max(0.6, timeReduction)]; the literal is the double of 0.6. *)
Definition levelMultiplier (levelNumber : float) : float :=
  Math_max 0x1.3333333333333p-1%float (timeReduction levelNumber).

(** [Math.floor(x) = n], for a natural number [n]. *)
Definition floorIs (x : float) (n : nat) : bool :=
  ((ofNat n <=? x) && (x <? ofNat n + 1))%float.

(** At [level], the doubles [Math.floor(10 * multiplier)] and
    [Math.floor(8 * multiplier)] are the integers of the rational model. *)
Definition agrees (level : nat) : bool :=
  floorIs (10 * levelMultiplier (ofNat level))%float
          (Z.to_nat (Qfloor (10 * Rituals.levelMultiplier (Z.of_nat level))))
  && floorIs (8 * levelMultiplier (ofNat level))%float
             (Z.to_nat (Qfloor (8 * Rituals.levelMultiplier (Z.of_nat level)))).

(** [timeRemaining - (timeRemaining * 1000 + 100) / 1000 <= 0]: the test
    [updateTime] makes when [triggerTimeout] calls it. *)
Definition timesOut (timeRemaining : float) : bool :=
  (timeRemaining - (timeRemaining * 1000 + 100) / 1000 <=? 0)%float.

(** Times remaining: zero, the smallest positive double, fractions (the
    doubles of 0.001 and 0.1 among them), the time limits of the
    generated rituals, the doubles of 59.9, 123456.789 and 999999.999,
    and the bound. *)
Definition sampleTimes : list float :=
  [ 0; 0x1p-1074; 0x1p-53; 0x1.0624dd2f1a9fcp-10; 0x1.999999999999ap-4; 0.5; 1; 2.5;
    3; 4; 5; 6; 7; 8; 9; 10; 0x1.df33333333333p+5; 1000; 0x1.e240c9fbe76c9p+16;
    0x1.e847fff7ced91p+19; 1000000 ]%float.

End Doubles.

(* ===================================================================== *)
(** * src/logic/InputManager.ts *)
(* ===================================================================== *)

Module InputManager.

Definition InputAction_to_nat (a : InputAction) : nat :=
  match a with
  | JOYSTICK_UP => 0 | JOYSTICK_DOWN => 1 | JOYSTICK_LEFT => 2 | JOYSTICK_RIGHT => 3
  | BUTTON_A => 4 | BUTTON_B => 5 | BUTTON_START => 6 | BUTTON_PAUSE => 7
  | DPAD_UP => 8 | DPAD_DOWN => 9 | DPAD_LEFT => 10 | DPAD_RIGHT => 11
  end.

Definition InputAction_of_nat (n : nat) : InputAction :=
  match n with
  | 0 => JOYSTICK_UP | 1 => JOYSTICK_DOWN | 2 => JOYSTICK_LEFT | 3 => JOYSTICK_RIGHT
  | 4 => BUTTON_A | 5 => BUTTON_B | 6 => BUTTON_START | 7 => BUTTON_PAUSE
  | 8 => DPAD_UP | 9 => DPAD_DOWN | 10 => DPAD_LEFT | _ => DPAD_RIGHT
  end.

#[global] Instance InputAction_countable : Countable InputAction.
Proof.
  refine (inj_countable' InputAction_to_nat InputAction_of_nat _).
  intros []; reflexivity.
Defined.

(** A registered [InputCallback], known by its identity. *)
Definition InputCallback : Type := nat.

(** One call [callback(action)]. *)
Record Call : Type := mkCall {
  called : InputCallback;
  calledWith : InputAction
}.

(** [class InputManager]: the fields the input handler works on.  The
    [Map<InputAction, number>] is a finite map keyed by the action. *)
Record t : Type := mkInputManager {
  inputCallbacks : list InputCallback;
  lastInputTime : gmap InputAction Z
}.

Definition new : t := mkInputManager [] ∅.

(** [this.lastInputTime.get(action) || 0] *)
Definition lastTimeOr0 (im : t) (action : InputAction) : Z :=
  match lastInputTime im !! action with
  | Some time => if (time =? 0)%Z then 0%Z else time
  | None => 0%Z
  end.

Definition emitInput (action : InputAction) (im : t) : list Call :=
  (fun callback => mkCall callback action) <$> inputCallbacks im.

(** [HANDLE_BUTTON_PRESS(action)]; [now] is what [Date.now()] returns. *)
Definition HANDLE_BUTTON_PRESS (now : Z) (action : InputAction) (im : t) : t * list Call :=
  let lastTime := lastTimeOr0 im action in
  let timeSinceLastInput := (now - lastTime)%Z in
  if (timeSinceLastInput <? Constants.INPUT_DEBOUNCE_MS)%Z then (im, [])
  else
    let im' := mkInputManager (inputCallbacks im) (<[action := now]> (lastInputTime im)) in
    (im', emitInput action im').

Definition on (callback : InputCallback) (im : t) : t :=
  mkInputManager (inputCallbacks im ++ [callback]) (lastInputTime im).

Definition off (callback : InputCallback) (im : t) : t :=
  mkInputManager (GameFSM.removeFirst callback (inputCallbacks im)) (lastInputTime im).

Definition reset (im : t) : t := mkInputManager (inputCallbacks im) ∅.

Definition dispose (im : t) : t := mkInputManager [] ∅.

(** A session of presses, each with the clock reading at its arrival:
    the calls made to the listeners, in order. *)
Fixpoint presses (events : list (Z * InputAction)) (im : t) : t * list Call :=
  match events with
  | [] => (im, [])
  | (now, action) :: rest =>
      let '(im1, calls1) := HANDLE_BUTTON_PRESS now action im in
      let '(im2, calls2) := presses rest im1 in
      (im2, calls1 ++ calls2)
  end.

(** The own properties of [KEYBOARD_MAP]: the action of [key], if [key]
    is one of them. *)
Fixpoint keyAction (map : list (string * InputAction)) (key : string) : option InputAction :=
  match map with
  | [] => None
  | (k, action) :: rest => if bool_decide (k = key) then Some action else keyAction rest key
  end.

(** The properties every object literal inherits from
    [Object.prototype].  [KEYBOARD_MAP[key]] finds them too, and their
    values (functions, and the prototype itself) are truthy. *)
Definition inheritedProperties : list string :=
  [ "constructor"; "__defineGetter__"; "__defineSetter__"; "hasOwnProperty";
    "__lookupGetter__"; "__lookupSetter__"; "isPrototypeOf"; "propertyIsEnumerable";
    "toString"; "valueOf"; "__proto__"; "toLocaleString" ].

(** [handleKeyDown], the listener of [initKeyboardInput].  A key that is
    an own property of the map presses its action; a key that is no
    property at all is ignored.  For a key that names an inherited
    property the handler passes on what it found, which is no
    [InputAction]: [None], the press is not one of the model. *)
Definition handleKeyDown (now : Z) (key : string) (im : t) : option (t * list Call) :=
  match keyAction Constants.KEYBOARD_MAP key with
  | Some action => Some (HANDLE_BUTTON_PRESS now action im)
  | None =>
      if bool_decide (key ∈ inheritedProperties) then None else Some (im, [])
  end.

(** [a < b] on numbers. *)
Definition Qlt_bool (a b : Q) : bool := negb (Qle_bool b a).

(** The x and y of a [THREE.Vector3]; the offsets are taken in these two
    coordinates only.  Coordinates are exact rationals. *)
Record Vector : Type := mkVector {
  x : Q;
  y : Q
}.

(** [getJoystickDirection(mesh)]: [intersectionPoint] is the stored
    [lastIntersectionPoint] of the mesh, if any; [meshCenter] its world
    position. *)
Definition getJoystickDirection (intersectionPoint : option Vector) (meshCenter : Vector)
  : InputAction :=
  match intersectionPoint with
  | None => JOYSTICK_UP
  | Some point =>
      let relativeX := (x point - x meshCenter)%Q in
      let relativeY := (y point - y meshCenter)%Q in
      let threshold := (1 # 1000)%Q in
      if Qlt_bool (Qabs relativeY) (Qabs relativeX) && Qlt_bool threshold (Qabs relativeX) then
        if Qlt_bool 0 relativeX then JOYSTICK_RIGHT else JOYSTICK_LEFT
      else if Qlt_bool threshold (Qabs relativeY) then
        if Qlt_bool 0 relativeY then JOYSTICK_UP else JOYSTICK_DOWN
      else JOYSTICK_UP
  end.

(** [getDpadDirection(mesh)] *)
Definition getDpadDirection (intersectionPoint : option Vector) (meshCenter : Vector)
  : InputAction :=
  match intersectionPoint with
  | None => DPAD_UP
  | Some point =>
      let relativeX := (x point - x meshCenter)%Q in
      let relativeY := (y point - y meshCenter)%Q in
      let minThreshold := (15 # 1000)%Q in
      if Qlt_bool (Qabs relativeX) minThreshold && Qlt_bool (Qabs relativeY) minThreshold then
        DPAD_UP
      else
        let horizontalBias := (12 # 10)%Q in
        if Qlt_bool (Qabs relativeY) (Qabs relativeX * horizontalBias) then
          if Qlt_bool 0 relativeX then DPAD_RIGHT else DPAD_LEFT
        else
          if Qlt_bool 0 relativeY then DPAD_UP else DPAD_DOWN
  end.

End InputManager.

(* ===================================================================== *)
(** * src/logic/GameController.ts *)
(* ===================================================================== *)

Module GameController.
Import GameFSM.

(** [class GameController]: the fields of the core.  [randomPos] is the
    number of [Math.random()] calls made so far in the session. *)
Record t : Type := mkController {
  fsm : GameFSM.t;
  inputManager : InputManager.t;
  lastFrameTime : Q;
  currentLevel : Z;
  animationDelayActive : bool;
  randomPos : nat
}.

Definition set_fsm (v : GameFSM.t) (c : t) : t :=
  mkController v (inputManager c) (lastFrameTime c) (currentLevel c)
    (animationDelayActive c) (randomPos c).
Definition set_inputManager (v : InputManager.t) (c : t) : t :=
  mkController (fsm c) v (lastFrameTime c) (currentLevel c)
    (animationDelayActive c) (randomPos c).
Definition set_lastFrameTime (v : Q) (c : t) : t :=
  mkController (fsm c) (inputManager c) v (currentLevel c)
    (animationDelayActive c) (randomPos c).
Definition set_currentLevel (v : Z) (c : t) : t :=
  mkController (fsm c) (inputManager c) (lastFrameTime c) v
    (animationDelayActive c) (randomPos c).
Definition set_animationDelayActive (v : bool) (c : t) : t :=
  mkController (fsm c) (inputManager c) (lastFrameTime c) (currentLevel c)
    v (randomPos c).
Definition set_randomPos (v : nat) (c : t) : t :=
  mkController (fsm c) (inputManager c) (lastFrameTime c) (currentLevel c)
    (animationDelayActive c) v.

(** The two arrow functions the constructor registers. *)
Definition stateChangeListener : StateChangeCallback := 0%nat.
Definition inputListener : InputManager.InputCallback := 0%nat.

(** [triggerLevelComplete] and [triggerMonsterMad]: beside the effects
    on the scene and the audio, both raise [animationDelayActive] and
    start a two-second timer, see [delayElapsed]. *)
Definition triggerLevelComplete (c : t) : t := set_animationDelayActive true c.
Definition triggerMonsterMad (c : t) : t := set_animationDelayActive true c.

(** The listener registered with [this.fsm.on('stateChange', ...)]. *)
Definition onStateChange (n : Notification) (c : t) : t :=
  if bool_decide (notified n = stateChangeListener) then
    match notifiedState n with
    | STATE_ITS_ALIVE => triggerLevelComplete c
    | STATE_MONSTER_MAD => triggerMonsterMad c
    | STATE_RITUAL_STEP | STATE_IDLE => c
    end
  else c.

(** A call [this.fsm.method(...)]: the listener runs on every
    notification the method emits. *)
Definition call {A} (m : M A) (c : t) : A * t :=
  let '(a, fsm', log) := m (fsm c) in
  (a, foldl (fun c n => onStateChange n c) (set_fsm fsm' c) log).

(** The body of a [setTimeout(..., 2000)] callback. *)
Definition delayElapsed (c : t) : t := set_animationDelayActive false c.

(** [update]: one frame of the loop, [currentTime = performance.now()]. *)
Definition update (currentTime : Q) (c : t) : t :=
  let deltaTime := (currentTime - lastFrameTime c)%Q in
  let c := set_lastFrameTime currentTime c in
  (call (updateTime deltaTime) c).2.

Definition validateAction (action : InputAction) (c : t) : bool :=
  match (call getCurrentStep c).1 with
  | None => false
  | Some currentStep => RitualLogic.VALIDATE_RITUAL_ACTION action (correctAction currentStep)
  end.

Definition triggerCorrectFeedback (c : t) : t :=
  match (call getCurrentStep c).1 with
  | None => c
  | Some currentStep => (call RitualLogic.COMPLETE_RITUAL_STEP c).2
  end.

Definition triggerIncorrectFeedback (c : t) : t :=
  (call RitualLogic.HANDLE_RITUAL_FAILURE c).2.

(** [startLevel(levelNumber)]; [None] when [getRitualForLevel] throws. *)
Definition startLevel (random : nat -> Q) (levelNumber : Z) (c : t) : option t :=
  let c := set_currentLevel levelNumber c in
  match Rituals.getRitualForLevel levelNumber random (randomPos c) with
  | None => None
  | Some (ritual, pos) =>
      let c := set_randomPos pos c in
      let c := (call (RitualLogic.START_NEW_RITUAL ritual) c).2 in
      Some (set_animationDelayActive false c)
  end.

Definition completeLevel (random : nat -> Q) (c : t) : option t :=
  let c := set_currentLevel (currentLevel c + 1)%Z c in
  startLevel random (currentLevel c) c.

Definition handleInput (random : nat -> Q) (action : InputAction) (c : t) : option t :=
  let state := (call getCurrentState c).1 in
  if animationDelayActive c && negb (bool_decide (action = BUTTON_START)) then Some c
  else
    match state with
    | STATE_IDLE =>
        if bool_decide (action = BUTTON_START) then startLevel random (currentLevel c) c
        else Some c
    | STATE_RITUAL_STEP =>
        if validateAction action c then Some (triggerCorrectFeedback c)
        else Some (triggerIncorrectFeedback c)
    | STATE_MONSTER_MAD =>
        if bool_decide (action = BUTTON_START) then Some (call RitualLogic.RETRY_RITUAL c).2
        else Some c
    | STATE_ITS_ALIVE =>
        if bool_decide (action = BUTTON_START) then completeLevel random c
        else Some c
    end.

(** The listener registered with [this.inputManager.on('input', ...)],
    run on the calls a press emits. *)
Fixpoint onInputCalls (random : nat -> Q) (calls : list InputManager.Call) (c : t)
  : option t :=
  match calls with
  | [] => Some c
  | made :: rest =>
      if bool_decide (InputManager.called made = inputListener) then
        match handleInput random (InputManager.calledWith made) c with
        | Some c' => onInputCalls random rest c'
        | None => None
        end
      else onInputCalls random rest c
  end.

(** A key, touch or click that resolved to [action], at [Date.now() = now]. *)
Definition press (random : nat -> Q) (now : Z) (action : InputAction) (c : t) : option t :=
  let '(im, calls) := InputManager.HANDLE_BUTTON_PRESS now action (inputManager c) in
  onInputCalls random calls (set_inputManager im c).

(** The body of the [constructor] once the initial ritual is drawn, at
    [performance.now() = now]; [pos] calls of [Math.random()] were made. *)
Definition assemble (initialRitual : Ritual) (now : Q) (pos : nat) : t :=
  {| fsm := (on stateChangeListener (GameFSM.new initialRitual)).1.2;
     inputManager := InputManager.on inputListener InputManager.new;
     lastFrameTime := now;
     currentLevel := 1;
     animationDelayActive := false;
     randomPos := pos |}.

(** [constructor]; the tape of [Math.random()] starts here. *)
Definition new (random : nat -> Q) (now : Q) : option t :=
  match Rituals.getRitualForLevel 1 random 0%nat with
  | None => None
  | Some (initialRitual, pos) => Some (assemble initialRitual now pos)
  end.

(** What can happen to a running controller. *)
Inductive Event : Type :=
| Frame (currentTime : Q)
| Press (now : Z) (action : InputAction)
| DelayElapsed.

Definition step (random : nat -> Q) (e : Event) (c : t) : option t :=
  match e with
  | Frame currentTime => Some (update currentTime c)
  | Press now action => press random now action c
  | DelayElapsed => Some (delayElapsed c)
  end.

(** The states of a session: the constructor, then any events. *)
Inductive reachable (random : nat -> Q) : t -> Prop :=
| reachable_new now c :
    new random now = Some c -> reachable random c
| reachable_step e c c' :
    reachable random c -> step random e c = Some c' -> reachable random c'.

(** The sprite [renderRitualStepState] draws for the monster. *)
Inductive MonsterSprite : Type := SpriteCalm | SpriteAngry | SpriteAlive.

Definition ritualStepMonster (stateData : GameStateData) : MonsterSprite :=
  if bool_decide (2 < golem_madnessLevel stateData)%nat then SpriteAngry else SpriteCalm.

End GameController.

(* ===================================================================== *)
(** * The test helpers that drive the state machine *)
(* ===================================================================== *)

Module TestHelpers.
Import GameFSM.

(** [completeStep(fsm)] *)
Definition completeStep : M bool :=
  fun fsm =>
    match getCurrentStep fsm with
    | (None, fsm1, log1) => (false, fsm1, log1)
    | (Some currentStep, fsm1, log1) =>
        let '(b, fsm2, log2) := ADVANCE_RITUAL_STEP fsm1 in (b, fsm2, log1 ++ log2)
    end.

(** [triggerTimeout(fsm)] *)
Definition triggerTimeout : M unit :=
  fun fsm =>
    let '(stateData, fsm1, log1) := getStateData fsm in
    let '(u, fsm2, log2) := updateTime (timeRemaining stateData * 1000 + 100)%Q fsm1 in
    (u, fsm2, log1 ++ log2).

End TestHelpers.

(* ===================================================================== *)
(** * The public operations of the state machine, as a vocabulary *)
(* ===================================================================== *)

Module Machine.
Import GameFSM.

(** The mutating methods of [GameFSM]. *)
Inductive Op : Type :=
| OpTransition (newState : GameState)
| OpAdvance
| OpRegisterMistake
| OpUpdateTime (deltaTime : Q)
| OpResetToFirstStep
| OpLoadRitual (ritual : Ritual).

Definition apply (op : Op) (fsm : GameFSM.t) : GameFSM.t :=
  match op with
  | OpTransition newState => (TRANSITION_TO_STATE newState fsm).1.2
  | OpAdvance => (ADVANCE_RITUAL_STEP fsm).1.2
  | OpRegisterMistake => (REGISTER_MISTAKE fsm).1.2
  | OpUpdateTime deltaTime => (updateTime deltaTime fsm).1.2
  | OpResetToFirstStep => (resetToFirstStep fsm).1.2
  | OpLoadRitual ritual => (loadRitual ritual fsm).1.2
  end.

Definition run (ops : list Op) (fsm : GameFSM.t) : GameFSM.t :=
  foldl (fun fsm op => apply op fsm) fsm ops.

(** Reachable from the machine constructed on [initialRitual]. *)
Definition reachable (initialRitual : Ritual) (fsm : GameFSM.t) : Prop :=
  exists ops, fsm = run ops (GameFSM.new initialRitual).

(** Does entering happen: [op] is a transition the table allows. *)
Definition enters (to : GameState) (op : Op) (fsm : GameFSM.t) : bool :=
  match op with
  | OpTransition newState =>
      bool_decide (newState = to)
      && isValidTransition (currentState (stateData fsm)) newState
  | _ => false
  end.

(** [ADVANCE_RITUAL_STEP] is called on a step: the index is in range,
    as [getCurrentStep()] defined. *)
Definition guarded (op : Op) (fsm : GameFSM.t) : bool :=
  match op with
  | OpAdvance =>
      bool_decide (currentStepIndex (stateData fsm)
                   < length (steps (currentRitual (stateData fsm))))%nat
  | _ => true
  end.

Inductive reachable_guarded (initialRitual : Ritual) : GameFSM.t -> Prop :=
| guarded_new : reachable_guarded initialRitual (GameFSM.new initialRitual)
| guarded_step op fsm :
    reachable_guarded initialRitual fsm -> guarded op fsm = true ->
    reachable_guarded initialRitual (apply op fsm).

End Machine.

(* ===================================================================== *)
(** * Invariants of the data *)
(* ===================================================================== *)

Module Invariants.

(** Every step has a positive time limit, and there is a step. *)
Definition wellformed (ritual : Ritual) : Prop :=
  Forall (fun step => (0 < timeLimit step)%Q) (steps ritual)
  /\ (1 <= length (steps ritual))%nat.

(** The step index is in [[0, steps.length]]. *)
Definition in_range (d : GameStateData) : Prop :=
  (0 <= currentStepIndex d <= length (steps (currentRitual d)))%nat.

(** The step index is [steps.length] only once the ritual is completed. *)
Definition at_end_only_when_alive (d : GameStateData) : Prop :=
  currentStepIndex d = length (steps (currentRitual d)) ->
  currentState d = STATE_ITS_ALIVE.

(** A step in progress has time left. *)
Definition ticking (d : GameStateData) : Prop :=
  currentState d = STATE_RITUAL_STEP -> (0 < timeRemaining d)%Q.

Definition healthy (d : GameStateData) : Prop :=
  wellformed (currentRitual d) /\ in_range d /\ at_end_only_when_alive d /\ ticking d.

(** The data of the controller's machine. *)
Definition data (c : GameController.t) : GameStateData :=
  GameFSM.stateData (GameController.fsm c).

(** Values [Math.random()] can return. *)
Definition unit_interval (random : nat -> Q) : Prop :=
  forall k, (0 <= random k)%Q /\ (random k < 1)%Q.

End Invariants.

(* ===================================================================== *)
(** * What the specification says, in its own words *)
(* ===================================================================== *)

Module Spec.

(** The transition table of the specification (from, to). *)
Definition transition_table : list (GameState * GameState) :=
  [ (STATE_IDLE, STATE_RITUAL_STEP);
    (STATE_RITUAL_STEP, STATE_RITUAL_STEP);
    (STATE_RITUAL_STEP, STATE_MONSTER_MAD);
    (STATE_RITUAL_STEP, STATE_ITS_ALIVE);
    (STATE_MONSTER_MAD, STATE_RITUAL_STEP);
    (STATE_MONSTER_MAD, STATE_IDLE);
    (STATE_ITS_ALIVE, STATE_RITUAL_STEP);
    (STATE_ITS_ALIVE, STATE_IDLE) ].

(** The data after a successful transition to [to], field by field, as
    the on-enter rules of the specification give it.  For RITUAL_STEP the
    rule speaks of the current step; where there is none the time is
    kept. *)
Definition entered (to : GameState) (d : GameStateData) : GameStateData :=
  match to with
  | STATE_IDLE =>
      {| currentState := STATE_IDLE;
         currentRitual := currentRitual d;
         currentStepIndex := 0;
         mistakeCount := 0;
         timeRemaining := timeRemaining d;
         golem_current_state := STATE_CALM;
         golem_madnessLevel := 0;
         dataLevelNumber := dataLevelNumber d |}
  | STATE_RITUAL_STEP =>
      {| currentState := STATE_RITUAL_STEP;
         currentRitual := currentRitual d;
         currentStepIndex := currentStepIndex d;
         mistakeCount := mistakeCount d;
         timeRemaining :=
           match steps (currentRitual d) !! currentStepIndex d with
           | Some step => timeLimit step
           | None => timeRemaining d
           end;
         golem_current_state := golem_current_state d;
         golem_madnessLevel := golem_madnessLevel d;
         dataLevelNumber := dataLevelNumber d |}
  | STATE_MONSTER_MAD =>
      {| currentState := STATE_MONSTER_MAD;
         currentRitual := currentRitual d;
         currentStepIndex := currentStepIndex d;
         mistakeCount := mistakeCount d;
         timeRemaining := timeRemaining d;
         golem_current_state := STATE_FLATLINE;
         golem_madnessLevel := golem_madnessLevel d;
         dataLevelNumber := dataLevelNumber d |}
  | STATE_ITS_ALIVE =>
      {| currentState := STATE_ITS_ALIVE;
         currentRitual := currentRitual d;
         currentStepIndex := currentStepIndex d;
         mistakeCount := mistakeCount d;
         timeRemaining := timeRemaining d;
         golem_current_state := STATE_ALIVE;
         golem_madnessLevel := golem_madnessLevel d;
         dataLevelNumber := dataLevelNumber d |}
  end.

(** An input: the clock reading at its arrival, and its action. *)
Definition Input : Type := (Z * InputAction)%type.

(** The previous accepted input of [action], among the accepted inputs
    (latest first): its time. *)
Fixpoint previousAccepted (accepted : list Input) (action : InputAction) : option Z :=
  match accepted with
  | [] => None
  | (time, a) :: earlier =>
      if bool_decide (a = action) then Some time else previousAccepted earlier action
  end.

(** [time] is within the window that opens at [previous]. *)
Definition within (window previous time : Z) : bool :=
  bool_decide (previous <= time < previous + window)%Z.

(** The debounce rule: of the inputs of a session, in arrival order, one
    within the window of the previous accepted input of the same action
    is dropped, any other is accepted. *)
Fixpoint debounce (window : Z) (accepted : list Input) (inputs : list Input) : list Input :=
  match inputs with
  | [] => []
  | (time, action) :: later =>
      match previousAccepted accepted action with
      | Some previous =>
          if within window previous time then debounce window accepted later
          else (time, action) :: debounce window ((time, action) :: accepted) later
      | None => (time, action) :: debounce window ((time, action) :: accepted) later
      end
  end.

(** Every accepted input, in order, goes once to every listener, in
    registration order. *)
Definition delivered (callbacks : list InputManager.InputCallback) (accepted : list Input)
  : list InputManager.Call :=
  flat_map (fun input => (fun callback => InputManager.mkCall callback input.2) <$> callbacks)
           accepted.

(** The clock does not run backwards between inputs... *)
Definition in_arrival_order (inputs : list Input) : Prop :=
  StronglySorted (fun earlier later => (earlier.1 <= later.1)%Z) inputs.

(** ... and reads at least [window] milliseconds since the epoch. *)
Definition after_epoch (window : Z) (inputs : list Input) : Prop :=
  Forall (fun input => (window <= input.1)%Z) inputs.

(** The cache holds, per action, the time of its previous accepted input. *)
Definition tracks (im : InputManager.t) (accepted : list Input) : Prop :=
  forall action,
    InputManager.lastInputTime im !! action = previousAccepted accepted action.

End Spec.

(* ===================================================================== *)
(** * Rituals, machines and controllers of the test scenarios *)
(* ===================================================================== *)

Module Scenario.
Import GameFSM.

Definition demoStep : RitualStep :=
  {| name := "Disinfect"; promptText := "Disinfect: Press Button A";
     correctAction := BUTTON_A; timeLimit := 5;
     surgicalObject := Some DISINFECTANT; surgeonAnimation := "spray_disinfectant" |}.

Definition demoRitual : Ritual :=
  {| levelNumber := 1; steps := [demoStep]; baseTimeLimit := 10; timeLimitMultiplier := 1 |}.

Definition oneSecondStep : RitualStep :=
  {| name := "Slice Open"; promptText := "Slice Open: Move Joystick Up";
     correctAction := JOYSTICK_UP; timeLimit := 1;
     surgicalObject := Some SCALPEL; surgeonAnimation := "slice_incision" |}.

Definition oneSecondRitual : Ritual :=
  {| levelNumber := 1; steps := [oneSecondStep]; baseTimeLimit := 1;
     timeLimitMultiplier := 1 |}.

(** A [Math.random()] that always returns one half. *)
Definition half : nat -> Q := fun _ => (1 # 2)%Q.

(** Scenario 1 run on the bare machine, then one advance too many. *)
Definition overrun : list Machine.Op :=
  [ Machine.OpTransition STATE_RITUAL_STEP; Machine.OpAdvance; Machine.OpAdvance ].

(** A step completed but no transition made, a timeout, and RITUAL_STEP
    entered again without a reset. *)
Definition stalled : list Machine.Op :=
  [ Machine.OpTransition STATE_RITUAL_STEP; Machine.OpAdvance;
    Machine.OpUpdateTime 5000; Machine.OpTransition STATE_RITUAL_STEP ].

(** A ritual with no step at all. *)
Definition emptyRitual : Ritual :=
  {| levelNumber := 2; steps := []; baseTimeLimit := 10; timeLimitMultiplier := 1 |}.

(** The machine of a ritual, started: IDLE -> RITUAL_STEP. *)
Definition started (ritual : Ritual) : GameFSM.t :=
  (RitualLogic.START_RITUAL_SEQUENCE (GameFSM.new ritual)).1.2.

(** The controller of scenario 1: built on the machine of [ritual]. *)
Definition controllerOf (ritual : Ritual) : GameController.t :=
  GameController.assemble ritual 0 0.

End Scenario.
Import Scenario.

(* ===================================================================== *)
(** * Vocabulary of the further properties *)
(* ===================================================================== *)

Module Extras.
Import GameFSM.

(** The monster after a mistake, by the madness level reached. *)
Definition monsterOf (madness : nat) : EKGState :=
  if bool_decide (3 <= madness)%nat then STATE_ANGRY else STATE_NERVOUS.

(** The notifications of one transition to [state] with data [d]. *)
Definition told (callbacks : list StateChangeCallback) (state : GameState)
    (d : GameStateData) : list Notification :=
  (fun callback => mkNotification callback state d) <$> callbacks.

(** The time a ritual starts with: the limit of its first step, or the
    5 seconds of the fallback when it has no step. *)
Definition startingTime (ritual : Ritual) : Q :=
  match steps ritual !! 0%nat with
  | Some step => timeLimit step
  | None => 5
  end.

(** Every notification of a run carries the data the run ends with, names
    the state of that data, and the run tells nobody or every registered
    listener once, in order. *)
Definition faithful_log {A} (r : A * GameFSM.t * list Notification) : Prop :=
  Forall (fun n => snapshot n = after r /\ notifiedState n = currentState (after r))
         (emitted r)
  /\ (emitted r = [] \/ notified <$> emitted r = stateChangeCallbacks r.1.2).


(** The counters and the monster of a session. *)
Definition composed (d : GameStateData) : Prop :=
  (golem_madnessLevel d <= 1)%nat
  /\ mistakeCount d = golem_madnessLevel d
  /\ (currentState d <> STATE_MONSTER_MAD -> golem_madnessLevel d = 0%nat)
  /\ (currentState d = STATE_MONSTER_MAD -> golem_current_state d = STATE_FLATLINE)
  /\ (currentState d = STATE_ITS_ALIVE -> golem_current_state d = STATE_ALIVE)
  /\ golem_current_state d <> STATE_NERVOUS
  /\ golem_current_state d <> STATE_ANGRY.

(** The ritual of a session is a ritual of its level. *)
Definition on_level (c : GameController.t) : Prop :=
  let d := Invariants.data c in
  (1 <= GameController.currentLevel c)%Z
  /\ dataLevelNumber d = GameController.currentLevel c
  /\ levelNumber (currentRitual d) = GameController.currentLevel c
  /\ timeLimitMultiplier (currentRitual d)
     = Rituals.levelMultiplier (GameController.currentLevel c)
  /\ length (steps (currentRitual d))
     = (5 + Z.to_nat ((GameController.currentLevel c - 1) / 3))%nat
  /\ (0 <= timeRemaining d)%Q
  /\ (currentState d = STATE_IDLE -> GameController.currentLevel c = 1%Z)
  /\ stateChangeCallbacks (GameController.fsm c) = [GameController.stateChangeListener].

(** No step asks for START or PAUSE. *)
Definition playable (ritual : Ritual) : Prop :=
  Forall (fun step => correctAction step <> BUTTON_START
                      /\ correctAction step <> BUTTON_PAUSE) (steps ritual).

(** What holds of a controller throughout a session. *)
Definition in_session (c : GameController.t) : Prop :=
  composed (Invariants.data c) /\ on_level c
  /\ playable (currentRitual (Invariants.data c)).

(** The controller the constructor builds when every draw is 1/2, and
    that controller after START pressed at clock reading 1000. *)
Definition freshController : GameController.t :=
  match GameController.new Scenario.half 0 with
  | Some c => c
  | None => Scenario.controllerOf Scenario.emptyRitual
  end.

Definition playingController : GameController.t :=
  match GameController.press Scenario.half 1000 BUTTON_START freshController with
  | Some c => c
  | None => freshController
  end.

(** START pressed once more, at clock reading 2000: a wrong action. *)
Definition upsetController : GameController.t :=
  match GameController.press Scenario.half 2000 BUTTON_START playingController with
  | Some c => c
  | None => playingController
  end.

(** Inputs handed to the controller one after the other. *)
Fixpoint play (random : nat -> Q) (actions : list InputAction) (c : GameController.t)
  : option GameController.t :=
  match actions with
  | [] => Some c
  | action :: rest =>
      match GameController.handleInput random action c with
      | Some c' => play random rest c'
      | None => None
      end
  end.

(** The correct actions still to give, from the current step on. *)
Definition remainingActions (d : GameStateData) : list InputAction :=
  correctAction <$> drop (currentStepIndex d) (steps (currentRitual d)).

(** How a prompt names an action: the texts of the variation tables. *)
Definition describe (action : InputAction) : string :=
  match action with
  | JOYSTICK_UP => "Move Joystick Up"
  | JOYSTICK_DOWN => "Move Joystick Down"
  | JOYSTICK_LEFT => "Move Joystick Left"
  | JOYSTICK_RIGHT => "Move Joystick Right"
  | BUTTON_A => "Press Button A"
  | BUTTON_B => "Press Button B"
  | DPAD_UP => "D-Pad Up"
  | DPAD_DOWN => "D-Pad Down"
  | DPAD_LEFT => "D-Pad Left"
  | DPAD_RIGHT => "D-Pad Right"
  | BUTTON_START | BUTTON_PAUSE => ""
  end.

(** What is fixed about the step at a place of a generated ritual. *)
Record StepKind : Type := mkStepKind {
  kindName : string;
  kindTable : list Rituals.ActionVariation;
  kindSeconds : Q;
  kindObject : SurgicalObjectType;
  kindAnimation : string
}.

Definition kindAt (i : nat) : StepKind :=
  match i with
  | 0 => mkStepKind "Disinfect" Rituals.DISINFECT_ACTIONS 10 DISINFECTANT "spray_disinfectant"
  | 1 => mkStepKind "Slice Open" Rituals.SLICE_ACTIONS 10 SCALPEL "slice_incision"
  | 2 => mkStepKind "Remove Organ" Rituals.REMOVE_ACTIONS 10 ORGAN "remove_organ"
  | 3 => mkStepKind "Connect Wires" Rituals.CONNECT_ACTIONS 10 WIRES "connect_wires"
  | 4 => mkStepKind "Sew Shut" Rituals.SEW_ACTIONS 10 NEEDLE_THREAD "sew_stitches"
  | _ => mkStepKind "Clean Tools" Rituals.CLEAN_ACTIONS 8 TOOLS "clean_tools"
  end.

(** The step of a kind made from a drawn variation. *)
Definition stepOfKind (kind : StepKind) (variation : Rituals.ActionVariation)
    (multiplier : Q) : RitualStep :=
  {| name := kindName kind;
     promptText := kindName kind +:+ ": " +:+ Rituals.text variation;
     correctAction := Rituals.action variation;
     timeLimit := Rituals.max3floor (kindSeconds kind * multiplier);
     surgicalObject := Some (kindObject kind);
     surgeonAnimation := kindAnimation kind |}.

(** The entry a draw [r] selects. *)
Definition drawn (kind : StepKind) (r : Q) : option Rituals.ActionVariation :=
  Rituals.at_index (kindTable kind)
    (Qfloor (r * inject_Z (Z.of_nat (length (kindTable kind))))).

(** The kinds of the steps of a level, in order. *)
Definition kinds (level : Z) : list StepKind :=
  kindAt <$> seq 0 (5 + Z.to_nat (Rituals.extraStepsCount level)).

(** The entries selected by the draws from position [pos] on, one per
    kind; [None] when a draw selects no entry. *)
Fixpoint draws (random : nat -> Q) (pos : nat) (ks : list StepKind)
  : option (list Rituals.ActionVariation) :=
  match ks with
  | [] => Some []
  | kind :: rest =>
      match drawn kind (random pos) with
      | None => None
      | Some variation =>
          match draws random (S pos) rest with
          | None => None
          | Some variations => Some (variation :: variations)
          end
      end
  end.

(** The ritual of a level made from the selected entries. *)
Definition ritualOf (level : Z) (variations : list Rituals.ActionVariation) : Ritual :=
  {| levelNumber := level;
     steps := zip_with (fun kind variation =>
                          stepOfKind kind variation (Rituals.levelMultiplier level))
                       (kinds level) variations;
     baseTimeLimit := 10;
     timeLimitMultiplier := Rituals.levelMultiplier level |}.

End Extras.
Import Extras.

(* ===================================================================== *)
(** * The state machine: transitions *)
(* ===================================================================== *)

Section Transitions.
Import GameFSM.

(** The table inside [isValidTransition] is the table of the
    specification. *)
Lemma isValidTransition_table (from to : GameState) :
  isValidTransition from to = bool_decide ((from, to) ∈ Spec.transition_table).
Proof. destruct from, to; reflexivity. Qed.

Lemma TRANSITION_TO_STATE_rejected (fsm : GameFSM.t) (to : GameState) :
  isValidTransition (currentState (stateData fsm)) to = false ->
  TRANSITION_TO_STATE to fsm = (false, fsm, []).
Proof.
  intros H. unfold TRANSITION_TO_STATE, bind, gets, ret. cbn. now rewrite H.
Qed.

Lemma TRANSITION_TO_STATE_accepted (fsm : GameFSM.t) (to : GameState) :
  isValidTransition (currentState (stateData fsm)) to = true ->
  TRANSITION_TO_STATE to fsm =
    (true,
     mkFSM (Spec.entered to (stateData fsm)) (stateChangeCallbacks fsm),
     (fun callback => mkNotification callback to (Spec.entered to (stateData fsm)))
       <$> stateChangeCallbacks fsm).
Proof.
  intros H. destruct fsm as [d callbacks].
  unfold TRANSITION_TO_STATE, bind, gets, ret. cbn in *. rewrite H. cbn.
  destruct to; cbn; rewrite ?app_nil_r; try reflexivity.
  unfold stepAt. cbn.
  destruct (steps (currentRitual d) !! currentStepIndex d); cbn;
    rewrite ?app_nil_r; reflexivity.
Qed.

(** C1.  [TRANSITION_TO_STATE(to)] from state [from]: when [(from, to)] is
    in the transition table it returns [true] and the state becomes [to];
    for every other pair it returns [false], the instance (every field
    of the data, and the listeners) is unchanged, and no listener is
    called.  The method is a total function: it never throws. *)
Theorem transition_exactly_by_table (fsm : GameFSM.t) (to : GameState) :
  let from := currentState (stateData fsm) in
  let r := TRANSITION_TO_STATE to fsm in
  if bool_decide ((from, to) ∈ Spec.transition_table)
  then result r = true /\ currentState (after r) = to
  else result r = false /\ r.1.2 = fsm /\ after r = stateData fsm /\ emitted r = [].
Proof.
  cbv zeta. rewrite <- isValidTransition_table.
  destruct (isValidTransition (currentState (stateData fsm)) to) eqn:E.
  - rewrite (TRANSITION_TO_STATE_accepted _ _ E). split; [reflexivity|].
    destruct to; reflexivity.
  - rewrite (TRANSITION_TO_STATE_rejected _ _ E). repeat split.
Qed.

(** C2.  A transition the table allows does the on-enter work of its
    target once: the data afterwards is the data before with
    [currentState] set and exactly the fields of the on-enter rule
    rewritten (IDLE: step index, mistake count and madness 0, monster
    CALM; RITUAL_STEP: time remaining := the current step's time limit;
    MONSTER_MAD: monster FLATLINE; ITS_ALIVE: monster ALIVE), every
    other field as it was; and each registered listener is told once,
    with the new state and that data. *)
Theorem transition_on_enter (fsm : GameFSM.t) (to : GameState) :
  isValidTransition (currentState (stateData fsm)) to = true ->
  let r := TRANSITION_TO_STATE to fsm in
  result r = true
  /\ after r = Spec.entered to (stateData fsm)
  /\ after r = after (onStateEnter to
                  (mkFSM (set_currentState to (stateData fsm)) (stateChangeCallbacks fsm)))
  /\ (forall step, getCurrentStep fsm = (Some step, fsm, []) ->
      to = STATE_RITUAL_STEP -> timeRemaining (after r) = timeLimit step)
  /\ emitted r =
       (fun callback => mkNotification callback to (after r)) <$> stateChangeCallbacks fsm.
Proof.
  intros H r. subst r. rewrite (TRANSITION_TO_STATE_accepted _ _ H).
  split; [reflexivity|]. split; [reflexivity|]. split; [|split; [|reflexivity]].
  - destruct fsm as [d callbacks]. destruct to; cbn; try reflexivity.
    unfold stepAt, after, bind, gets, modify, ret. cbn.
    destruct (steps (currentRitual d) !! currentStepIndex d); reflexivity.
  - intros step Hs ->. unfold getCurrentStep, gets, stepAt in Hs.
    injection Hs as Hs. unfold after. cbn. now rewrite Hs.
Qed.

Lemma transition_on_enter_witness :
  after (TRANSITION_TO_STATE STATE_RITUAL_STEP (GameFSM.new demoRitual))
  = Spec.entered STATE_RITUAL_STEP (stateData (GameFSM.new demoRitual)).
Proof.
  exact (proj1 (proj2 (transition_on_enter (GameFSM.new demoRitual) STATE_RITUAL_STEP
                         eq_refl))).
Defined.

End Transitions.

(* ===================================================================== *)
(** * The state machine: time, steps, mistakes, loading *)
(* ===================================================================== *)

Section Operations.
Import GameFSM.

Lemma updateTime_elsewhere (fsm : GameFSM.t) (deltaTime : Q) :
  currentState (stateData fsm) <> STATE_RITUAL_STEP ->
  updateTime deltaTime fsm = (tt, fsm, []).
Proof.
  intros H. unfold updateTime, bind, gets, ret. cbn.
  rewrite bool_decide_eq_false_2 by assumption. reflexivity.
Qed.

Lemma updateTime_running (fsm : GameFSM.t) (deltaTime : Q) :
  currentState (stateData fsm) = STATE_RITUAL_STEP ->
  (0 < timeRemaining (stateData fsm) - deltaTime / 1000)%Q ->
  updateTime deltaTime fsm =
    (tt,
     mkFSM (set_timeRemaining (timeRemaining (stateData fsm) - deltaTime / 1000)%Q
              (stateData fsm))
           (stateChangeCallbacks fsm),
     []).
Proof.
  intros Hs Ht. destruct fsm as [d callbacks]. cbn in *.
  unfold updateTime, bind, gets, ret, modify. cbn.
  rewrite bool_decide_eq_true_2 by assumption. cbn.
  destruct (Qle_bool (timeRemaining d - deltaTime / 1000) 0) eqn:E; [|reflexivity].
  apply Qle_bool_iff in E. lra.
Qed.

Lemma updateTime_timeout (fsm : GameFSM.t) (deltaTime : Q) :
  currentState (stateData fsm) = STATE_RITUAL_STEP ->
  (timeRemaining (stateData fsm) - deltaTime / 1000 <= 0)%Q ->
  updateTime deltaTime fsm =
    (tt,
     mkFSM (Spec.entered STATE_MONSTER_MAD (set_timeRemaining 0 (stateData fsm)))
           (stateChangeCallbacks fsm),
     (fun callback =>
        mkNotification callback STATE_MONSTER_MAD
          (Spec.entered STATE_MONSTER_MAD (set_timeRemaining 0 (stateData fsm))))
       <$> stateChangeCallbacks fsm).
Proof.
  intros Hs Ht. destruct fsm as [d callbacks]. cbn in *.
  unfold updateTime, bind, gets, ret, modify. cbn -[TRANSITION_TO_STATE].
  rewrite bool_decide_eq_true_2 by assumption. cbn -[TRANSITION_TO_STATE].
  apply Qle_bool_iff in Ht. rewrite Ht. cbn -[TRANSITION_TO_STATE].
  rewrite TRANSITION_TO_STATE_accepted by (cbn; rewrite Hs; reflexivity).
  cbn. rewrite ?app_nil_r. reflexivity.
Qed.

(** C3, as the claim has it, fails: [updateTime(1)] on a step just begun
    with 5 seconds takes one millisecond off, not one second. *)
Lemma updateTime_not_in_seconds :
  currentState (stateData (started demoRitual)) = STATE_RITUAL_STEP
  /\ (timeRemaining (stateData (started demoRitual)) == 5)%Q
  /\ (timeRemaining (after (updateTime 1 (started demoRitual))) == 4999 # 1000)%Q
  /\ ~ (timeRemaining (after (updateTime 1 (started demoRitual)))
        == timeRemaining (stateData (started demoRitual)) - 1)%Q.
Proof.
  split; [reflexivity|]. split; [reflexivity|]. split; [reflexivity|].
  vm_compute. discriminate.
Qed.

(** C3, amended.  [updateTime(deltaTime)] does nothing outside
    RITUAL_STEP.  In RITUAL_STEP it takes [deltaTime / 1000] off the time
    remaining ([deltaTime] is in milliseconds); when the result is at
    most 0 the time remaining is set to 0 and the machine goes to
    MONSTER_MAD (monster FLATLINE, listeners told), otherwise nothing
    else changes.  With a first step of 1 second, [updateTime(1500)]
    after the start leaves time remaining 0 in MONSTER_MAD. *)
Theorem updateTime_milliseconds (fsm : GameFSM.t) (deltaTime : Q) :
  let d := stateData fsm in
  let r := updateTime deltaTime fsm in
  let remaining := (timeRemaining d - deltaTime / 1000)%Q in
  (if bool_decide (currentState d = STATE_RITUAL_STEP) then
     if Qle_bool remaining 0 then
       after r =
         {| currentState := STATE_MONSTER_MAD;
            currentRitual := currentRitual d;
            currentStepIndex := currentStepIndex d;
            mistakeCount := mistakeCount d;
            timeRemaining := 0;
            golem_current_state := STATE_FLATLINE;
            golem_madnessLevel := golem_madnessLevel d;
            dataLevelNumber := dataLevelNumber d |}
       /\ emitted r =
            (fun callback => mkNotification callback STATE_MONSTER_MAD (after r))
              <$> stateChangeCallbacks fsm
     else after r = set_timeRemaining remaining d /\ emitted r = []
   else r = (tt, fsm, []))
  /\ (forall ritual step,
        steps ritual !! 0%nat = Some step -> (timeLimit step == 1)%Q ->
        currentState (stateData (started ritual)) = STATE_RITUAL_STEP
        /\ timeRemaining (after (updateTime 1500 (started ritual))) = 0%Q
        /\ currentState (after (updateTime 1500 (started ritual))) = STATE_MONSTER_MAD).
Proof.
  cbv zeta. split.
  - case_bool_decide as Hs.
    + destruct (Qle_bool (timeRemaining (stateData fsm) - deltaTime / 1000) 0) eqn:E.
      * apply Qle_bool_iff in E. rewrite (updateTime_timeout _ _ Hs E).
        split; reflexivity.
      * assert (0 < timeRemaining (stateData fsm) - deltaTime / 1000)%Q as Hpos.
        { apply Qnot_le_lt. intros Hle. apply Qle_bool_iff in Hle. congruence. }
        rewrite (updateTime_running _ _ Hs Hpos). split; reflexivity.
    + apply updateTime_elsewhere. assumption.
  - intros ritual step H0 H1.
    assert (stateData (started ritual)
            = Spec.entered STATE_RITUAL_STEP (stateData (GameFSM.new ritual))) as Hd.
    { unfold started, RitualLogic.START_RITUAL_SEQUENCE, bind.
      rewrite TRANSITION_TO_STATE_accepted by reflexivity. reflexivity. }
    assert (currentState (stateData (started ritual)) = STATE_RITUAL_STEP) as Hs
      by (rewrite Hd; reflexivity).
    split; [exact Hs|].
    assert (timeRemaining (stateData (started ritual)) = timeLimit step) as Ht
      by (rewrite Hd; cbn; rewrite H0; reflexivity).
    assert (timeRemaining (stateData (started ritual)) - 1500 / 1000 <= 0)%Q as Hle
      by (rewrite Ht; change (1500 / 1000)%Q with (1500 # 1000)%Q; lra).
    rewrite (updateTime_timeout _ _ Hs Hle). split; reflexivity.
Qed.

Lemma updateTime_milliseconds_witness :
  timeRemaining (after (updateTime 1500 (started oneSecondRitual))) = 0%Q
  /\ currentState (after (updateTime 1500 (started oneSecondRitual))) = STATE_MONSTER_MAD.
Proof.
  refine (proj2 (proj2 (updateTime_milliseconds (started oneSecondRitual) 1500)
                   oneSecondRitual oneSecondStep eq_refl _)).
  reflexivity.
Defined.

End Operations.

Section Steps.
Import GameFSM.

(** [ADVANCE_RITUAL_STEP], by what lies at the next index. *)
Lemma ADVANCE_RITUAL_STEP_next (fsm : GameFSM.t) :
  ADVANCE_RITUAL_STEP fsm =
    let d := set_currentStepIndex (S (currentStepIndex (stateData fsm))) (stateData fsm) in
    match steps (currentRitual (stateData fsm)) !! S (currentStepIndex (stateData fsm)) with
    | None => (false, mkFSM d (stateChangeCallbacks fsm), [])
    | Some step =>
        (true, mkFSM (set_timeRemaining (timeLimit step) d) (stateChangeCallbacks fsm), [])
    end.
Proof.
  destruct fsm as [d callbacks]. unfold ADVANCE_RITUAL_STEP, bind, gets, ret, modify, stepAt.
  cbn. destruct (steps (currentRitual d) !! S (currentStepIndex d)) as [step|] eqn:E.
  - rewrite bool_decide_eq_false_2.
    + cbn. rewrite E. reflexivity.
    + apply lookup_lt_Some in E. lia.
  - rewrite bool_decide_eq_true_2; [reflexivity|].
    apply lookup_ge_None in E. lia.
Qed.

(** C4.  [ADVANCE_RITUAL_STEP] adds one to the step index; when the new
    index is at or past the number of steps it returns [false] and
    changes nothing else; otherwise it returns [true] and sets the time
    remaining to the time limit of the step now current.  It never
    changes [currentState] and calls no listener.  On a ritual of one
    step whose action is BUTTON_A (time limit 5), starting and then
    handing BUTTON_A to the controller ends in ITS_ALIVE with step
    index 1. *)
Theorem advance_step_and_complete :
  (forall fsm : GameFSM.t,
     let d := stateData fsm in
     let r := ADVANCE_RITUAL_STEP fsm in
     currentStepIndex (after r) = S (currentStepIndex d)
     /\ currentState (after r) = currentState d
     /\ emitted r = []
     /\ if bool_decide (length (steps (currentRitual d)) <= S (currentStepIndex d))%nat
        then result r = false
             /\ after r = set_currentStepIndex (S (currentStepIndex d)) d
        else result r = true
             /\ exists step,
                  steps (currentRitual d) !! S (currentStepIndex d) = Some step
                  /\ after r = set_timeRemaining (timeLimit step)
                                 (set_currentStepIndex (S (currentStepIndex d)) d))
  /\ (forall (random : nat -> Q) (ritual : Ritual) (step : RitualStep),
        steps ritual = [step] ->
        correctAction step = BUTTON_A ->
        timeLimit step = 5%Q ->
        let c1 := (GameController.call RitualLogic.START_RITUAL_SEQUENCE
                     (controllerOf ritual)).2 in
        currentState (stateData (GameController.fsm c1)) = STATE_RITUAL_STEP
        /\ exists c2,
             GameController.handleInput random BUTTON_A c1 = Some c2
             /\ currentState (stateData (GameController.fsm c2)) = STATE_ITS_ALIVE
             /\ currentStepIndex (stateData (GameController.fsm c2)) = 1%nat).
Proof.
  split.
  - intros fsm. cbv zeta. rewrite ADVANCE_RITUAL_STEP_next. cbv zeta.
    destruct (steps (currentRitual (stateData fsm)) !! S (currentStepIndex (stateData fsm)))
      as [step|] eqn:E.
    + rewrite bool_decide_eq_false_2 by (apply lookup_lt_Some in E; lia).
      repeat split. exists step. split; reflexivity.
    + rewrite bool_decide_eq_true_2 by (apply lookup_ge_None in E; lia).
      repeat split.
  - intros random ritual [n p a tl so sa] Hsteps Ha Htl. cbn in Ha, Htl. subst a tl.
    destruct ritual as [lv sts base mult]. cbn in Hsteps. subst sts.
    cbv zeta. split; [reflexivity|].
    eexists. split; [reflexivity|]. split; reflexivity.
Qed.

Lemma advance_step_and_complete_witness :
  exists c2,
    GameController.handleInput (fun _ => 0%Q) BUTTON_A
      (GameController.call RitualLogic.START_RITUAL_SEQUENCE (controllerOf demoRitual)).2
    = Some c2
    /\ currentState (stateData (GameController.fsm c2)) = STATE_ITS_ALIVE
    /\ currentStepIndex (stateData (GameController.fsm c2)) = 1%nat.
Proof.
  exact (proj2 (proj2 advance_step_and_complete (fun _ => 0%Q) demoRitual demoStep
                  eq_refl eq_refl eq_refl)).
Defined.

End Steps.

(* ===================================================================== *)
(** * The state machine: mistakes, madness and loading *)
(* ===================================================================== *)

Section Madness.
Import GameFSM Machine.

Lemma REGISTER_MISTAKE_counts (fsm : GameFSM.t) :
  emitted (REGISTER_MISTAKE fsm) = []
  /\ mistakeCount (after (REGISTER_MISTAKE fsm)) = S (mistakeCount (stateData fsm))
  /\ golem_madnessLevel (after (REGISTER_MISTAKE fsm)) = S (golem_madnessLevel (stateData fsm))
  /\ currentState (after (REGISTER_MISTAKE fsm)) = currentState (stateData fsm)
  /\ currentStepIndex (after (REGISTER_MISTAKE fsm)) = currentStepIndex (stateData fsm)
  /\ currentRitual (after (REGISTER_MISTAKE fsm)) = currentRitual (stateData fsm)
  /\ timeRemaining (after (REGISTER_MISTAKE fsm)) = timeRemaining (stateData fsm).
Proof.
  destruct fsm as [d callbacks].
  unfold REGISTER_MISTAKE, updateGolemState, bind, gets, ret, modify, after, emitted. cbn.
  repeat case_bool_decide; cbn; repeat split; reflexivity.
Qed.

(** The data after [updateTime], whichever path it takes, differs from the
    data before in at most the state, the time and the monster. *)
Lemma updateTime_counters (fsm : GameFSM.t) (deltaTime : Q) :
  mistakeCount (after (updateTime deltaTime fsm)) = mistakeCount (stateData fsm)
  /\ golem_madnessLevel (after (updateTime deltaTime fsm)) = golem_madnessLevel (stateData fsm)
  /\ currentStepIndex (after (updateTime deltaTime fsm)) = currentStepIndex (stateData fsm)
  /\ currentRitual (after (updateTime deltaTime fsm)) = currentRitual (stateData fsm).
Proof.
  destruct (decide (currentState (stateData fsm) = STATE_RITUAL_STEP)) as [Hs|Hs].
  - destruct (Qlt_le_dec 0 (timeRemaining (stateData fsm) - deltaTime / 1000)) as [Ht|Ht].
    + rewrite (updateTime_running _ _ Hs Ht). repeat split.
    + rewrite (updateTime_timeout _ _ Hs Ht). repeat split.
  - rewrite (updateTime_elsewhere _ _ Hs). repeat split.
Qed.

(** C6.  What each operation of the machine does to the madness level and
    to the mistake count: a transition that enters IDLE and
    [resetToFirstStep] set both to 0; [REGISTER_MISTAKE] adds one to
    both; every other operation (a transition to another state, a
    rejected transition, [ADVANCE_RITUAL_STEP], [updateTime] with or
    without a timeout, [loadRitual]) leaves both as they were.  A timeout
    ends in MONSTER_MAD with both counters unchanged; the wrong-action
    path [HANDLE_RITUAL_FAILURE] adds one to both. *)
Theorem madness_reset_and_growth :
  (forall (op : Op) (fsm : GameFSM.t),
     let d := stateData fsm in
     let d' := stateData (Machine.apply op fsm) in
     golem_madnessLevel d' =
       match op with
       | OpTransition _ => if enters STATE_IDLE op fsm then 0%nat else golem_madnessLevel d
       | OpResetToFirstStep => 0%nat
       | OpRegisterMistake => S (golem_madnessLevel d)
       | OpAdvance | OpUpdateTime _ | OpLoadRitual _ => golem_madnessLevel d
       end
     /\ mistakeCount d' =
       match op with
       | OpTransition _ => if enters STATE_IDLE op fsm then 0%nat else mistakeCount d
       | OpResetToFirstStep => 0%nat
       | OpRegisterMistake => S (mistakeCount d)
       | OpAdvance | OpUpdateTime _ | OpLoadRitual _ => mistakeCount d
       end)
  /\ (forall (fsm : GameFSM.t) (deltaTime : Q),
        let d := stateData fsm in
        let r := updateTime deltaTime fsm in
        if bool_decide (currentState d = STATE_RITUAL_STEP)
           && Qle_bool (timeRemaining d - deltaTime / 1000) 0
        then currentState (after r) = STATE_MONSTER_MAD
             /\ golem_madnessLevel (after r) = golem_madnessLevel d
             /\ mistakeCount (after r) = mistakeCount d
        else currentState (after r) = currentState d)
  /\ (forall fsm : GameFSM.t,
        let d := stateData fsm in
        let r := RitualLogic.HANDLE_RITUAL_FAILURE fsm in
        golem_madnessLevel (after r) = S (golem_madnessLevel d)
        /\ mistakeCount (after r) = S (mistakeCount d)).
Proof.
  split; [|split].
  - intros op fsm. cbv zeta. destruct op as [to| | |delta| |ritual]; cbn [Machine.apply enters].
    + destruct (isValidTransition (currentState (stateData fsm)) to) eqn:E.
      * rewrite (TRANSITION_TO_STATE_accepted _ _ E), andb_true_r.
        destruct to; split; reflexivity.
      * rewrite (TRANSITION_TO_STATE_rejected _ _ E), andb_false_r. split; reflexivity.
    + rewrite ADVANCE_RITUAL_STEP_next. cbv zeta.
      destruct (steps _ !! _); split; reflexivity.
    + pose proof (REGISTER_MISTAKE_counts fsm) as (_ & Hm & Hg & _). unfold after in *.
      split; assumption.
    + pose proof (updateTime_counters fsm delta) as (Hm & Hg & _). unfold after in *.
      split; assumption.
    + split; reflexivity.
    + split; reflexivity.
  - intros fsm delta. cbv zeta. case_bool_decide as Hs; cbn [andb].
    + destruct (Qle_bool _ 0) eqn:E.
      * apply Qle_bool_iff in E. rewrite (updateTime_timeout _ _ Hs E). repeat split.
      * assert (0 < timeRemaining (stateData fsm) - delta / 1000)%Q as Hpos.
        { apply Qnot_le_lt. intros Hle. apply Qle_bool_iff in Hle. congruence. }
        rewrite (updateTime_running _ _ Hs Hpos). reflexivity.
    + rewrite (updateTime_elsewhere _ _ Hs). reflexivity.
  - intros fsm. cbv zeta. unfold RitualLogic.HANDLE_RITUAL_FAILURE, bind.
    pose proof (REGISTER_MISTAKE_counts fsm) as (_ & Hm & Hg & _).
    destruct (REGISTER_MISTAKE fsm) as [[u fsm1] log1]. unfold after in *. cbn in Hm, Hg.
    destruct (isValidTransition (currentState (stateData fsm1)) STATE_MONSTER_MAD) eqn:E.
    + rewrite (TRANSITION_TO_STATE_accepted _ _ E). cbn. split; assumption.
    + rewrite (TRANSITION_TO_STATE_rejected _ _ E). cbn. split; assumption.
Qed.

End Madness.

Section Loading.
Import GameFSM.

(** C7, as the claim has it, fails: a ritual with no step is stored as it
    is, and there is no current step afterwards. *)
Lemma loadRitual_keeps_the_empty_ritual :
  steps emptyRitual = []
  /\ length (steps (currentRitual (after (loadRitual emptyRitual (started demoRitual))))) = 0%nat
  /\ result (getCurrentStep (loadRitual emptyRitual (started demoRitual)).1.2) = None
  /\ ~ (1 <= length (steps (currentRitual
                              (after (loadRitual emptyRitual (started demoRitual))))))%nat.
Proof.
  split; [reflexivity|]. split; [reflexivity|]. split; [reflexivity|].
  vm_compute. lia.
Qed.

(** C7, amended.  [loadRitual(R)] on a ritual without steps replaces the
    current ritual by [R] itself, sets the step index to 0 and the level
    number to that of [R], and sets the time remaining to the fixed
    fallback of 5 seconds; the state, the counters and the monster are
    kept and no listener is called.  Afterwards the ritual still has no
    step: [getCurrentStep] returns [undefined] and [isRitualComplete] is
    [true]. *)
Theorem loadRitual_without_steps (ritual : Ritual) (fsm : GameFSM.t) :
  steps ritual = [] ->
  let d := stateData fsm in
  let r := loadRitual ritual fsm in
  after r =
    {| currentState := currentState d;
       currentRitual := ritual;
       currentStepIndex := 0;
       mistakeCount := mistakeCount d;
       timeRemaining := 5;
       golem_current_state := golem_current_state d;
       golem_madnessLevel := golem_madnessLevel d;
       dataLevelNumber := levelNumber ritual |}
  /\ emitted r = []
  /\ length (steps (currentRitual (after r))) = 0%nat
  /\ result (getCurrentStep r.1.2) = None
  /\ result (isRitualComplete r.1.2) = true.
Proof.
  intros H. destruct fsm as [d callbacks]. cbv zeta.
  unfold loadRitual, getCurrentStep, isRitualComplete, stepAt, firstTimeLimitOr5,
    bind, gets, modify, ret, after, emitted, result. cbn. rewrite H. cbn.
  repeat split.
Qed.

Lemma loadRitual_without_steps_witness :
  timeRemaining (after (loadRitual emptyRitual (started demoRitual))) = 5%Q
  /\ result (getCurrentStep (loadRitual emptyRitual (started demoRitual)).1.2) = None.
Proof.
  pose proof (loadRitual_without_steps emptyRitual (started demoRitual) eq_refl) as H.
  cbv zeta in H. destruct H as (Hd & _ & _ & Hg & _).
  split; [rewrite Hd; reflexivity | exact Hg].
Defined.

End Loading.

(* ===================================================================== *)
(** * Ritual generation *)
(* ===================================================================== *)

Section Generation.
Import Rituals Invariants.

Lemma Qfloor_below (x : Q) (z : Z) : (x < inject_Z z)%Q -> (Qfloor x < z)%Z.
Proof.
  intros H. rewrite Zlt_Qlt. eapply Qle_lt_trans; [apply Qfloor_le | exact H].
Qed.

Lemma getRandomAction_total (random : nat -> Q) (pos : nat) (actions : list ActionVariation) :
  unit_interval random -> (1 <= length actions)%nat ->
  exists variation,
    getRandomAction actions random pos = Some (Some variation, S pos).
Proof.
  intros Hr Hlen. unfold getRandomAction, gbind, gret, Math_random, at_index.
  destruct (Hr pos) as [H0 H1].
  set (n := inject_Z (Z.of_nat (length actions))).
  assert (1 <= n)%Q as Hn.
  { unfold n. change 1%Q with (inject_Z 1). rewrite <- Zle_Qle. lia. }
  assert (0 <= Qfloor (random pos * n))%Z as Hlo.
  { change 0%Z with (Qfloor 0). apply Qfloor_resp_le. nra. }
  assert (Qfloor (random pos * n) < Z.of_nat (length actions))%Z as Hhi.
  { apply Qfloor_below. fold n. nra. }
  destruct (Z.ltb_spec (Qfloor (random pos * n)) 0) as [Hneg|_]; [lia|].
  destruct (actions !! Z.to_nat (Qfloor (random pos * n))) as [v|] eqn:E.
  - exists v. reflexivity.
  - apply lookup_ge_None in E. lia.
Qed.

Lemma getRandomAction_pos (random : nat -> Q) (pos : nat) (actions : list ActionVariation)
    (o : option ActionVariation) (pos' : nat) :
  getRandomAction actions random pos = Some (o, pos') -> pos' = S pos.
Proof. unfold getRandomAction, gbind, gret, Math_random. intros [= _ <-]. reflexivity. Qed.

(** The extra steps: [n] of them, each with the limit of [8 * multiplier]. *)
Lemma pushCleanSteps_limits (random : nat -> Q) (multiplier : Q) (n : nat) :
  forall (steps0 steps1 : list RitualStep) (pos pos' : nat),
    pushCleanSteps n multiplier steps0 random pos = Some (steps1, pos') ->
    timeLimit <$> steps1
    = (timeLimit <$> steps0) ++ replicate n (max3floor (8 * multiplier)).
Proof.
  induction n as [|n IH]; intros steps0 steps1 pos pos' H.
  - cbn in H. injection H as <- _. cbn. now rewrite app_nil_r.
  - cbn [pushCleanSteps] in H. unfold gbind at 1 in H.
    destruct (getRandomAction CLEAN_ACTIONS random pos) as [[clean p1]|]; [|discriminate].
    unfold gbind at 1 in H. unfold property at 1 in H.
    destruct clean as [clean|]; [|discriminate].
    unfold gbind at 1 in H. unfold property at 1 in H.
    apply IH in H. rewrite H, fmap_app, <- app_assoc. reflexivity.
Qed.

Lemma pushCleanSteps_total (random : nat -> Q) (multiplier : Q) (n : nat) :
  unit_interval random ->
  forall (steps0 : list RitualStep) (pos : nat),
    exists steps1,
      pushCleanSteps n multiplier steps0 random pos = Some (steps1, (pos + n)%nat).
Proof.
  intros Hr. induction n as [|n IH]; intros steps0 pos.
  - exists steps0. cbn. unfold gret. do 2 f_equal. lia.
  - cbn [pushCleanSteps]. unfold gbind at 1.
    destruct (getRandomAction_total random pos CLEAN_ACTIONS Hr) as [v ->]; [cbn; lia|].
    unfold gbind at 1. unfold property at 1.
    unfold gbind at 1. unfold property at 1.
    match goal with |- exists _, pushCleanSteps n multiplier ?l random (S pos) = _ =>
      destruct (IH l (S pos)) as [steps1 ->] end.
    exists steps1. do 2 f_equal. lia.
Qed.

(** What a generated ritual looks like, whatever was drawn. *)
Lemma generateVariedRitual_shape (random : nat -> Q) (pos pos' : nat)
    (level : Z) (base multiplier : Q) (ritual : Ritual) :
  generateVariedRitual level base multiplier random pos = Some (ritual, pos') ->
  levelNumber ritual = level
  /\ baseTimeLimit ritual = base
  /\ timeLimitMultiplier ritual = multiplier
  /\ timeLimit <$> steps ritual
     = replicate 5 (max3floor (base * multiplier))
       ++ replicate (Z.to_nat (extraStepsCount level)) (max3floor (8 * multiplier)).
Proof.
  unfold generateVariedRitual. intros H.
  repeat (unfold gbind at 1 in H;
          match type of H with
          | match getRandomAction ?a random ?p with _ => _ end = _ =>
              destruct (getRandomAction a random p) as [[? ?]|]; [|discriminate]
          | match property ?o ?f random ?p with _ => _ end = _ =>
              unfold property at 1 in H;
              first [ is_var o; destruct o; [|discriminate] | idtac ]
          end;
          cbv beta iota in H).
  cbv zeta in H. unfold gbind at 1 in H.
  match type of H with
  | match pushCleanSteps ?n ?m ?l random ?p with _ => _ end = _ =>
      destruct (pushCleanSteps n m l random p) as [[steps1 p1]|] eqn:E; [|discriminate]
  end.
  unfold gret in H. injection H as <- _. cbn [levelNumber baseTimeLimit timeLimitMultiplier steps].
  repeat split. apply pushCleanSteps_limits in E. rewrite E. reflexivity.
Qed.

Lemma generateVariedRitual_total (random : nat -> Q) (pos : nat)
    (level : Z) (base multiplier : Q) :
  unit_interval random ->
  exists ritual,
    generateVariedRitual level base multiplier random pos
    = Some (ritual, (pos + 5 + Z.to_nat (extraStepsCount level))%nat).
Proof.
  intros Hr. unfold generateVariedRitual.
  repeat (unfold gbind at 1;
          match goal with
          | |- exists _, match getRandomAction ?a random ?p with _ => _ end = _ =>
              destruct (getRandomAction_total random p a Hr) as [? ->]; [cbn; lia|]
          | |- exists _, match property _ _ random _ with _ => _ end = _ =>
              unfold property at 1
          end;
          cbv beta iota).
  cbv zeta. unfold gbind at 1.
  match goal with
  | |- exists _, match pushCleanSteps ?n ?m ?l random ?p with _ => _ end = _ =>
      destruct (pushCleanSteps_total random m n Hr l p) as [steps1 ->]
  end.
  eexists. unfold gret. do 2 f_equal. lia.
Qed.

Lemma max3floor_ge_3 (x : Q) : (3 <= max3floor x)%Q.
Proof.
  unfold max3floor. change 3%Q with (inject_Z 3). rewrite <- Zle_Qle. lia.
Qed.

Lemma max3floor_mono (x y : Q) : (x <= y)%Q -> (max3floor x <= max3floor y)%Q.
Proof.
  intros H. unfold max3floor. rewrite <- Zle_Qle.
  apply Z.max_le_compat_l, Qfloor_resp_le, H.
Qed.

Lemma getRitualForLevel_wellformed (random : nat -> Q) (pos pos' : nat)
    (level : Z) (ritual : Ritual) :
  getRitualForLevel level random pos = Some (ritual, pos') ->
  wellformed ritual /\ (5 <= length (steps ritual))%nat.
Proof.
  intros H.
  apply (generateVariedRitual_shape random pos pos' level 10 (levelMultiplier level) ritual)
    in H as (_ & _ & _ & H).
  assert (length (steps ritual) = 5 + Z.to_nat (extraStepsCount level))%nat as Hlen.
  { rewrite <- (length_fmap timeLimit), H, length_app, !length_replicate. reflexivity. }
  split; [split|]; [|lia|lia].
  apply Forall_forall. intros step Hin.
  assert (timeLimit step ∈ timeLimit <$> steps ritual) as Hin'
    by (apply list_elem_of_fmap; eauto).
  rewrite H in Hin'. apply elem_of_app in Hin' as [Hin'|Hin'];
    apply elem_of_replicate in Hin' as [-> _];
    exact (Qlt_le_trans 0 3 _ eq_refl (max3floor_ge_3 _)).
Qed.

End Generation.

Section Scaling.
Import Rituals Invariants.

Lemma levelMultiplier_mono (level1 level2 : Z) :
  (level1 <= level2)%Z -> (levelMultiplier level2 <= levelMultiplier level1)%Q.
Proof.
  intros H. unfold levelMultiplier. apply Q.max_le_compat_l.
  unfold timeReduction. rewrite Zle_Qle in H. lra.
Qed.

Lemma extraStepsCount_mono (level1 level2 : Z) :
  (level1 <= level2)%Z ->
  (Z.to_nat (extraStepsCount level1) <= Z.to_nat (extraStepsCount level2))%nat.
Proof.
  intros H. unfold extraStepsCount.
  assert ((level1 - 1) / 3 <= (level2 - 1) / 3)%Z by (apply Z.div_le_mono; lia).
  lia.
Qed.

(** The time limit found at an index of a generated ritual. *)
Lemma generated_limit_at (random : nat -> Q) (pos pos' : nat) (level : Z)
    (ritual : Ritual) (i : nat) (step : RitualStep) :
  getRitualForLevel level random pos = Some (ritual, pos') ->
  steps ritual !! i = Some step ->
  timeLimit step =
    if decide (i < 5)%nat then max3floor (10 * levelMultiplier level)
    else max3floor (8 * levelMultiplier level).
Proof.
  intros H Hi.
  apply (generateVariedRitual_shape random pos pos' level 10 (levelMultiplier level) ritual)
    in H as (_ & _ & _ & H).
  assert ((timeLimit <$> steps ritual) !! i = Some (timeLimit step)) as Hl
    by (rewrite list_lookup_fmap, Hi; reflexivity).
  rewrite H in Hl. destruct (decide (i < 5)%nat) as [Hlt|Hge].
  - rewrite lookup_app_l in Hl by (rewrite length_replicate; exact Hlt).
    apply lookup_replicate in Hl as [Hl _]. exact Hl.
  - rewrite lookup_app_r in Hl by (rewrite length_replicate; lia).
    apply lookup_replicate in Hl as [Hl _]. exact Hl.
Qed.

Lemma generated_length (random : nat -> Q) (pos pos' : nat) (level : Z) (ritual : Ritual) :
  getRitualForLevel level random pos = Some (ritual, pos') ->
  length (steps ritual) = (5 + Z.to_nat ((level - 1) / 3))%nat.
Proof.
  intros H.
  apply (generateVariedRitual_shape random pos pos' level 10 (levelMultiplier level) ritual)
    in H as (_ & _ & _ & H).
  rewrite <- (length_fmap timeLimit), H, length_app, !length_replicate. reflexivity.
Qed.

Lemma getRitualForLevel_total (random : nat -> Q) (pos : nat) (level : Z) :
  unit_interval random ->
  exists ritual pos', getRitualForLevel level random pos = Some (ritual, pos').
Proof.
  intros Hr.
  destruct (generateVariedRitual_total random pos level 10 (levelMultiplier level) Hr)
    as [ritual H].
  exists ritual. eexists. exact H.
Qed.

(** C8.  For levels [level1 <= level2], whatever [Math.random()] returns:
    [getRitualForLevel] produces a ritual for each; the multiplier is
    [max(0.6, 1 - 0.05 * (level - 1))]; a step of the second ritual has a
    time limit no greater than the step at the same place in the first;
    no time limit is below the configured minimum of 1 second (the code
    clamps with [Math.max], at 3); the second ritual has at least as many
    steps as the first, and the number of steps is 5 plus one for every
    three levels passed, [5 + floor((level - 1) / 3)].  The ritual of
    level 4 has one step more than the 5 of level 1. *)
Theorem scaling_is_monotone :
  (forall (random1 random2 : nat -> Q) (pos1 pos2 : nat) (level1 level2 : Z),
     unit_interval random1 -> unit_interval random2 -> (level1 <= level2)%Z ->
     exists ritual1 pos1' ritual2 pos2',
       getRitualForLevel level1 random1 pos1 = Some (ritual1, pos1')
       /\ getRitualForLevel level2 random2 pos2 = Some (ritual2, pos2')
       /\ timeLimitMultiplier ritual1
          = Qmax (6 # 10) (1 - (5 # 100) * (inject_Z level1 - 1))
       /\ timeLimitMultiplier ritual2
          = Qmax (6 # 10) (1 - (5 # 100) * (inject_Z level2 - 1))
       /\ (forall i step1 step2,
             steps ritual1 !! i = Some step1 -> steps ritual2 !! i = Some step2 ->
             (timeLimit step2 <= timeLimit step1)%Q)
       /\ (forall step, step ∈ steps ritual1 ++ steps ritual2 ->
             (Constants.MIN_TIME_LIMIT <= timeLimit step)%Q /\ (3 <= timeLimit step)%Q)
       /\ (length (steps ritual1) <= length (steps ritual2))%nat
       /\ length (steps ritual1) = (5 + Z.to_nat ((level1 - 1) / 3))%nat
       /\ length (steps ritual2) = (5 + Z.to_nat ((level2 - 1) / 3))%nat)
  /\ (forall (random1 random4 : nat -> Q) (pos1 pos4 : nat),
        unit_interval random1 -> unit_interval random4 ->
        exists ritual1 pos1' ritual4 pos4',
          getRitualForLevel 1 random1 pos1 = Some (ritual1, pos1')
          /\ getRitualForLevel 4 random4 pos4 = Some (ritual4, pos4')
          /\ length (steps ritual1) = 5%nat
          /\ length (steps ritual4) = S (length (steps ritual1))).
Proof.
  split.
  - intros random1 random2 pos1 pos2 level1 level2 Hr1 Hr2 Hle.
    destruct (getRitualForLevel_total random1 pos1 level1 Hr1) as (ritual1 & pos1' & H1).
    destruct (getRitualForLevel_total random2 pos2 level2 Hr2) as (ritual2 & pos2' & H2).
    exists ritual1, pos1', ritual2, pos2'.
    pose proof (levelMultiplier_mono _ _ Hle) as Hm.
    pose proof (generated_length _ _ _ _ _ H1) as Hlen1.
    pose proof (generated_length _ _ _ _ _ H2) as Hlen2.
    split; [exact H1|]. split; [exact H2|].
    split.
    { apply (generateVariedRitual_shape random1 pos1 pos1' level1 10
               (levelMultiplier level1) ritual1) in H1 as (_ & _ & -> & _). reflexivity. }
    split.
    { apply (generateVariedRitual_shape random2 pos2 pos2' level2 10
               (levelMultiplier level2) ritual2) in H2 as (_ & _ & -> & _). reflexivity. }
    split.
    { intros i step1 step2 Hs1 Hs2.
      rewrite (generated_limit_at _ _ _ _ _ _ _ H1 Hs1),
              (generated_limit_at _ _ _ _ _ _ _ H2 Hs2).
      destruct (decide (i < 5)%nat); apply max3floor_mono; lra. }
    split.
    { intros step Hin.
      assert (3 <= timeLimit step)%Q as H3.
      { apply elem_of_app in Hin as [Hin|Hin];
          apply list_elem_of_lookup in Hin as [i Hi].
        - rewrite (generated_limit_at _ _ _ _ _ _ _ H1 Hi).
          destruct (decide (i < 5)%nat); apply max3floor_ge_3.
        - rewrite (generated_limit_at _ _ _ _ _ _ _ H2 Hi).
          destruct (decide (i < 5)%nat); apply max3floor_ge_3. }
      split; [|exact H3]. unfold Constants.MIN_TIME_LIMIT. lra. }
    split; [|split; assumption].
    rewrite Hlen1, Hlen2. pose proof (extraStepsCount_mono _ _ Hle) as He.
    unfold extraStepsCount in He. lia.
  - intros random1 random4 pos1 pos4 Hr1 Hr4.
    destruct (getRitualForLevel_total random1 pos1 1 Hr1) as (ritual1 & pos1' & H1).
    destruct (getRitualForLevel_total random4 pos4 4 Hr4) as (ritual4 & pos4' & H4).
    exists ritual1, pos1', ritual4, pos4'.
    split; [exact H1|]. split; [exact H4|].
    rewrite (generated_length _ _ _ _ _ H1), (generated_length _ _ _ _ _ H4).
    split; reflexivity.
Qed.

Lemma scaling_is_monotone_witness :
  exists ritual2 pos2' ritual7 pos7',
    getRitualForLevel 2 half 0 = Some (ritual2, pos2')
    /\ getRitualForLevel 7 half 0 = Some (ritual7, pos7')
    /\ (length (steps ritual2) <= length (steps ritual7))%nat.
Proof.
  assert (unit_interval half) as Hhalf.
  { intros k. unfold half, Qle, Qlt. simpl. lia. }
  assert (2 <= 7)%Z as Hle by lia.
  destruct (proj1 scaling_is_monotone half half 0%nat 0%nat 2%Z 7%Z Hhalf Hhalf Hle)
    as (ritual2 & pos2' & ritual7 & pos7' & H2 & H7 & _ & _ & _ & _ & Hlen & _).
  exists ritual2, pos2', ritual7, pos7'. split; [exact H2|]. split; [exact H7 | exact Hlen].
Defined.

(** The rational model and the doubles of JavaScript give the same time
    limits on the levels 1 to 200 (from level 9 on the multiplier is the
    constant 0.6 in both). *)
Lemma doubles_agree_on_levels : forallb Doubles.agrees (seq 1 200) = true.
Proof. vm_compute. reflexivity. Qed.

End Scaling.

(* ===================================================================== *)
(** * The controller keeps the data healthy *)
(* ===================================================================== *)

Section ControllerInvariant.
Import GameFSM Invariants.

Lemma onStateChange_fsm (n : Notification) (c : GameController.t) :
  GameController.fsm (GameController.onStateChange n c) = GameController.fsm c.
Proof.
  unfold GameController.onStateChange. case_bool_decide; [|reflexivity].
  destruct (notifiedState n); reflexivity.
Qed.

Lemma listeners_keep_fsm (log : list Notification) (c : GameController.t) :
  GameController.fsm (foldl (fun c n => GameController.onStateChange n c) c log)
  = GameController.fsm c.
Proof.
  revert c. induction log as [|n log IH]; intros c; [reflexivity|].
  cbn [foldl]. rewrite IH. apply onStateChange_fsm.
Qed.

(** A method called through the controller acts on the controller's
    machine as it does on its own. *)
Lemma call_fsm {A} (m : M A) (c : GameController.t) :
  (GameController.call m c).1 = result (m (GameController.fsm c))
  /\ GameController.fsm (GameController.call m c).2 = (m (GameController.fsm c)).1.2.
Proof.
  unfold GameController.call, result.
  destruct (m (GameController.fsm c)) as [[a fsm'] log]. cbn.
  split; [reflexivity|]. rewrite listeners_keep_fsm. reflexivity.
Qed.

Ltac healthy_parts :=
  unfold after, healthy, in_range, at_end_only_when_alive, ticking; cbn;
  refine (conj _ (conj _ (conj _ _))).

Lemma healthy_updateTime (fsm : GameFSM.t) (deltaTime : Q) :
  healthy (stateData fsm) -> healthy (after (updateTime deltaTime fsm)).
Proof.
  intros (Hw & Hr & He & Ht).
  destruct (decide (currentState (stateData fsm) = STATE_RITUAL_STEP)) as [Hs|Hs].
  - destruct (Qlt_le_dec 0 (timeRemaining (stateData fsm) - deltaTime / 1000)) as [Hp|Hp].
    + rewrite (updateTime_running _ _ Hs Hp). healthy_parts; try assumption.
      intros _. exact Hp.
    + rewrite (updateTime_timeout _ _ Hs Hp). healthy_parts; try assumption.
      * intros Hend. apply He in Hend. congruence.
      * intros Hx. discriminate Hx.
  - rewrite (updateTime_elsewhere _ _ Hs). healthy_parts; assumption.
Qed.

Lemma wellformed_first (ritual : Ritual) :
  wellformed ritual ->
  exists step, steps ritual !! 0%nat = Some step /\ (0 < timeLimit step)%Q.
Proof.
  intros [Hall Hlen]. destruct (steps ritual) as [|step rest] eqn:E; [cbn in Hlen; lia|].
  exists step. split; [reflexivity|]. apply Forall_cons in Hall as [H _]. exact H.
Qed.

Lemma to_RITUAL_STEP_always (from : GameState) :
  isValidTransition from STATE_RITUAL_STEP = true.
Proof. destruct from; reflexivity. Qed.

Lemma healthy_START_NEW_RITUAL (fsm : GameFSM.t) (ritual : Ritual) :
  wellformed ritual ->
  healthy (after (RitualLogic.START_NEW_RITUAL ritual fsm)).
Proof.
  intros Hw. destruct (wellformed_first _ Hw) as (step & H0 & Hpos).
  destruct fsm as [d callbacks].
  unfold RitualLogic.START_NEW_RITUAL, RitualLogic.START_RITUAL_SEQUENCE, loadRitual, bind,
    modify. cbn -[TRANSITION_TO_STATE].
  rewrite TRANSITION_TO_STATE_accepted by apply to_RITUAL_STEP_always.
  healthy_parts; rewrite ?H0; try assumption.
  - destruct Hw as [_ Hlen]. lia.
  - destruct Hw as [_ Hlen]. intros Hend. lia.
  - intros _. exact Hpos.
Qed.

Lemma healthy_RETRY_RITUAL (fsm : GameFSM.t) :
  healthy (stateData fsm) -> healthy (after (RitualLogic.RETRY_RITUAL fsm)).
Proof.
  intros (Hw & Hr & He & Ht). destruct (wellformed_first _ Hw) as (step & H0 & Hpos).
  destruct fsm as [d callbacks]. cbn in *.
  unfold RitualLogic.RETRY_RITUAL, resetToFirstStep, bind, modify.
  cbn -[TRANSITION_TO_STATE].
  rewrite TRANSITION_TO_STATE_accepted by apply to_RITUAL_STEP_always.
  healthy_parts; rewrite ?H0; try assumption.
  - lia.
  - destruct Hw as [_ Hlen]. intros Hend. lia.
  - intros _. exact Hpos.
Qed.

Lemma healthy_HANDLE_RITUAL_FAILURE (fsm : GameFSM.t) :
  healthy (stateData fsm) ->
  currentState (stateData fsm) = STATE_RITUAL_STEP ->
  healthy (after (RitualLogic.HANDLE_RITUAL_FAILURE fsm)).
Proof.
  intros (Hw & Hr & He & Ht) Hs.
  unfold RitualLogic.HANDLE_RITUAL_FAILURE, bind.
  pose proof (REGISTER_MISTAKE_counts fsm) as (_ & _ & _ & Hst & Hidx & Hrit & _).
  destruct (REGISTER_MISTAKE fsm) as [[u fsm1] log1]. unfold after in *. cbn in Hst, Hidx, Hrit.
  rewrite TRANSITION_TO_STATE_accepted by (rewrite Hst, Hs; reflexivity).
  healthy_parts; rewrite ?Hidx, ?Hrit; try assumption.
  - intros Hend. apply He in Hend. congruence.
  - intros Hx. discriminate Hx.
Qed.

Lemma healthy_COMPLETE_RITUAL_STEP (fsm : GameFSM.t) (step : RitualStep) :
  healthy (stateData fsm) ->
  currentState (stateData fsm) = STATE_RITUAL_STEP ->
  stepAt (stateData fsm) = Some step ->
  healthy (after (RitualLogic.COMPLETE_RITUAL_STEP fsm)).
Proof.
  intros (Hw & Hr & He & Ht) Hs Hstep. unfold stepAt in Hstep.
  pose proof (lookup_lt_Some _ _ _ Hstep) as Hlt.
  unfold RitualLogic.COMPLETE_RITUAL_STEP, bind. rewrite ADVANCE_RITUAL_STEP_next. cbv zeta.
  destruct fsm as [d callbacks]. cbn -[TRANSITION_TO_STATE] in *.
  destruct (steps (currentRitual d) !! S (currentStepIndex d)) as [next|] eqn:E.
  - cbn. pose proof (lookup_lt_Some _ _ _ E) as Hlt'.
    healthy_parts; try assumption.
    + lia.
    + intros Hend. lia.
    + intros _. destruct Hw as [Hall _].
      rewrite Forall_forall in Hall. apply Hall. eapply list_elem_of_lookup_2, E.
  - cbn -[TRANSITION_TO_STATE].
    rewrite TRANSITION_TO_STATE_accepted by (cbn; rewrite Hs; reflexivity).
    healthy_parts; try assumption.
    + lia.
    + intros _. reflexivity.
    + intros Hx. discriminate Hx.
Qed.

Lemma healthy_startLevel (random : nat -> Q) (level : Z) (c c' : GameController.t) :
  GameController.startLevel random level c = Some c' -> healthy (data c').
Proof.
  unfold GameController.startLevel.
  cbn [GameController.randomPos GameController.set_currentLevel].
  destruct (Rituals.getRitualForLevel level random (GameController.randomPos c))
    as [[ritual pos]|] eqn:E; [|discriminate].
  intros [= <-]. unfold data.
  cbn [GameController.fsm GameController.set_animationDelayActive].
  match goal with |- context [GameController.call ?m ?c0] =>
    destruct (call_fsm m c0) as [_ ->] end.
  apply healthy_START_NEW_RITUAL.
  apply getRitualForLevel_wellformed in E. apply E.
Qed.

Lemma healthy_handleInput (random : nat -> Q) (action : InputAction)
    (c c' : GameController.t) :
  healthy (data c) ->
  GameController.handleInput random action c = Some c' ->
  healthy (data c').
Proof.
  intros H. unfold GameController.handleInput.
  destruct (call_fsm getCurrentState c) as [-> _]. unfold getCurrentState, gets, result. cbn.
  destruct (GameController.animationDelayActive c && negb (bool_decide (action = BUTTON_START)));
    [intros [= <-]; exact H|].
  destruct (currentState (stateData (GameController.fsm c))) eqn:Hs.
  - case_bool_decide; [apply healthy_startLevel | intros [= <-]; exact H].
  - unfold GameController.validateAction, GameController.triggerCorrectFeedback,
      GameController.triggerIncorrectFeedback.
    destruct (call_fsm getCurrentStep c) as [-> _].
    unfold getCurrentStep, gets, result. cbn.
    destruct (stepAt (stateData (GameController.fsm c))) as [step|] eqn:Hstep.
    + destruct (RitualLogic.VALIDATE_RITUAL_ACTION action (correctAction step));
        intros [= <-]; unfold data.
      * destruct (call_fsm RitualLogic.COMPLETE_RITUAL_STEP c) as [_ ->].
        eapply healthy_COMPLETE_RITUAL_STEP; eassumption.
      * destruct (call_fsm RitualLogic.HANDLE_RITUAL_FAILURE c) as [_ ->].
        apply healthy_HANDLE_RITUAL_FAILURE; assumption.
    + intros [= <-]. unfold data.
      destruct (call_fsm RitualLogic.HANDLE_RITUAL_FAILURE c) as [_ ->].
      apply healthy_HANDLE_RITUAL_FAILURE; assumption.
  - case_bool_decide; intros [= <-]; [|exact H]. unfold data.
    destruct (call_fsm RitualLogic.RETRY_RITUAL c) as [_ ->].
    apply healthy_RETRY_RITUAL, H.
  - case_bool_decide; [|intros [= <-]; exact H].
    unfold GameController.completeLevel. apply healthy_startLevel.
Qed.

Lemma healthy_onInputCalls (random : nat -> Q) (calls : list InputManager.Call) :
  forall c c' : GameController.t,
    healthy (data c) ->
    GameController.onInputCalls random calls c = Some c' ->
    healthy (data c').
Proof.
  induction calls as [|made rest IH]; intros c c' H; cbn [GameController.onInputCalls].
  - intros [= <-]. exact H.
  - case_bool_decide.
    + destruct (GameController.handleInput random (InputManager.calledWith made) c)
        as [c1|] eqn:E; [|discriminate].
      apply IH. eapply healthy_handleInput; eassumption.
    + apply IH, H.
Qed.

Lemma healthy_step (random : nat -> Q) (e : GameController.Event)
    (c c' : GameController.t) :
  healthy (data c) -> GameController.step random e c = Some c' -> healthy (data c').
Proof.
  intros H. destruct e as [currentTime|now action|]; cbn [GameController.step].
  - intros [= <-]. unfold GameController.update, data.
    match goal with |- context [GameController.call ?m ?c0] =>
      destruct (call_fsm m c0) as [_ ->] end.
    apply healthy_updateTime, H.
  - unfold GameController.press.
    destruct (InputManager.HANDLE_BUTTON_PRESS now action (GameController.inputManager c))
      as [im calls].
    apply healthy_onInputCalls. exact H.
  - intros [= <-]. exact H.
Qed.

Lemma healthy_new (random : nat -> Q) (now : Q) (c : GameController.t) :
  GameController.new random now = Some c -> healthy (data c).
Proof.
  unfold GameController.new.
  destruct (Rituals.getRitualForLevel 1 random 0) as [[ritual pos]|] eqn:E; [|discriminate].
  intros [= <-]. apply getRitualForLevel_wellformed in E as [Hw Hlen].
  unfold data. healthy_parts.
  - exact Hw.
  - lia.
  - intros Hend. lia.
  - intros Hx. discriminate Hx.
Qed.

(** Every state of a session is healthy. *)
Lemma reachable_healthy (random : nat -> Q) (c : GameController.t) :
  GameController.reachable random c -> healthy (data c).
Proof.
  induction 1 as [now c Hnew | e c c' _ IH Hstep].
  - eapply healthy_new, Hnew.
  - eapply healthy_step; eassumption.
Qed.

(** With [Math.random()] in [[0, 1)] no event throws. *)
Lemma step_total (random : nat -> Q) (e : GameController.Event) (c : GameController.t) :
  unit_interval random -> exists c', GameController.step random e c = Some c'.
Proof.
  intros Hr.
  assert (forall level c0, exists c', GameController.startLevel random level c0 = Some c')
    as Hstart.
  { intros level c0. unfold GameController.startLevel.
    cbn [GameController.randomPos GameController.set_currentLevel].
    destruct (getRitualForLevel_total random (GameController.randomPos c0) level Hr)
      as (ritual & pos' & ->). eexists. reflexivity. }
  assert (forall action c0, exists c', GameController.handleInput random action c0 = Some c')
    as Hinput.
  { intros action c0. unfold GameController.handleInput, GameController.completeLevel.
    destruct (_ && _); [eexists; reflexivity|].
    destruct ((GameController.call getCurrentState c0).1);
      repeat case_bool_decide; try (eexists; reflexivity); try apply Hstart.
    destruct (GameController.validateAction action c0); eexists; reflexivity. }
  destruct e as [currentTime|now action|]; cbn [GameController.step];
    try (eexists; reflexivity).
  unfold GameController.press.
  destruct (InputManager.HANDLE_BUTTON_PRESS now action (GameController.inputManager c))
    as [im calls].
  generalize (GameController.set_inputManager im c). clear c.
  induction calls as [|made rest IH]; intros c; cbn [GameController.onInputCalls].
  - eexists. reflexivity.
  - case_bool_decide; [|apply IH].
    destruct (Hinput (InputManager.calledWith made) c) as [c1 ->]. apply IH.
Qed.

End ControllerInvariant.

(* ===================================================================== *)
(** * The step index and the zero tick *)
(* ===================================================================== *)

Section Reachability.
Import GameFSM Machine Invariants.

(** C5, as the claim has it, fails: the machine lets
    [ADVANCE_RITUAL_STEP] run past the end.  On a ritual of one step,
    start, advance, advance: the index is 2. *)
Lemma advance_runs_past_the_end :
  Machine.reachable demoRitual (run overrun (GameFSM.new demoRitual))
  /\ currentStepIndex (stateData (run overrun (GameFSM.new demoRitual))) = 2%nat
  /\ length (steps (currentRitual (stateData (run overrun (GameFSM.new demoRitual))))) = 1%nat
  /\ ~ in_range (stateData (run overrun (GameFSM.new demoRitual))).
Proof.
  split; [exists overrun; reflexivity|]. split; [reflexivity|]. split; [reflexivity|].
  unfold in_range. vm_compute. lia.
Qed.

Lemma in_range_apply (op : Op) (fsm : GameFSM.t) :
  guarded op fsm = true -> in_range (stateData fsm) -> in_range (stateData (apply op fsm)).
Proof.
  unfold in_range. intros Hg Hr.
  destruct op as [to| | |delta| |ritual]; cbn [apply guarded] in *.
  - destruct (isValidTransition (currentState (stateData fsm)) to) eqn:E.
    + rewrite (TRANSITION_TO_STATE_accepted _ _ E). destruct to; cbn; lia.
    + rewrite (TRANSITION_TO_STATE_rejected _ _ E). exact Hr.
  - apply bool_decide_eq_true_1 in Hg. rewrite ADVANCE_RITUAL_STEP_next. cbv zeta.
    destruct (steps _ !! _); cbn; lia.
  - pose proof (REGISTER_MISTAKE_counts fsm) as (_ & _ & _ & _ & Hi & Hrit & _).
    unfold after in *. rewrite Hi, Hrit. exact Hr.
  - pose proof (updateTime_counters fsm delta) as (_ & _ & Hi & Hrit).
    unfold after in *. rewrite Hi, Hrit. exact Hr.
  - cbn. lia.
  - cbn. lia.
Qed.

(** C5, amended.  The step index is in [[0, steps.length]] in every state
    reached by operations of the machine in which [ADVANCE_RITUAL_STEP] is
    only called while there is a current step (the machine does not check
    it; the controller calls it only after [getCurrentStep()] returned a
    step).  In every state a session of the controller reaches, the index
    is in that range and equals [steps.length] only in ITS_ALIVE: from the
    completion of the ritual until the next level is loaded. *)
Theorem step_index_in_range :
  (forall (initialRitual : Ritual) (fsm : GameFSM.t),
     reachable_guarded initialRitual fsm -> in_range (stateData fsm))
  /\ (forall (random : nat -> Q) (c : GameController.t),
        GameController.reachable random c ->
        in_range (data c) /\ at_end_only_when_alive (data c)).
Proof.
  split.
  - intros initialRitual fsm H. induction H as [|op fsm _ IH Hg].
    + unfold in_range. cbn. lia.
    + apply in_range_apply; assumption.
  - intros random c H. apply reachable_healthy in H as (_ & Hr & He & _).
    split; assumption.
Qed.

Lemma step_index_in_range_witness :
  let fsm := run [OpTransition STATE_RITUAL_STEP; OpAdvance] (GameFSM.new demoRitual) in
  in_range (stateData fsm)
  /\ currentStepIndex (stateData fsm) = 1%nat
  /\ length (steps (currentRitual (stateData fsm))) = 1%nat
  /\ guarded OpAdvance fsm = false.
Proof.
  cbv zeta. split; [|repeat split].
  apply (proj1 step_index_in_range demoRitual).
  apply (guarded_step demoRitual OpAdvance
           (apply (OpTransition STATE_RITUAL_STEP) (GameFSM.new demoRitual))).
  - apply guarded_step; [apply guarded_new | reflexivity].
  - vm_compute. reflexivity.
Defined.

(** Sessions exist: the constructor, then START pressed at clock reading
    1000, is a session in RITUAL_STEP on the first step of level 1. *)
Lemma a_session_is_reachable :
  exists c,
    GameController.reachable half c
    /\ currentState (data c) = STATE_RITUAL_STEP
    /\ currentStepIndex (data c) = 0%nat
    /\ length (steps (currentRitual (data c))) = 5%nat.
Proof.
  assert (exists c1,
            (GameController.new half 0
               ≫= GameController.step half (GameController.Press 1000 BUTTON_START))
            = Some c1
            /\ currentState (data c1) = STATE_RITUAL_STEP
            /\ currentStepIndex (data c1) = 0%nat
            /\ length (steps (currentRitual (data c1))) = 5%nat) as (c1 & E & H).
  { vm_compute. eexists. split; [reflexivity|]. repeat split. }
  exists c1. split; [|exact H].
  destruct (GameController.new half 0) as [c0|] eqn:E0; [|discriminate E].
  eapply GameController.reachable_step; [eapply GameController.reachable_new, E0 | exact E].
Qed.

(** C9, as the claim has it, fails: after a timeout, RITUAL_STEP entered
    again on an index without a step keeps the time remaining at 0, and
    there [updateTime(0)] times out. *)
Lemma zero_tick_times_out :
  Machine.reachable demoRitual (run stalled (GameFSM.new demoRitual))
  /\ currentState (stateData (run stalled (GameFSM.new demoRitual))) = STATE_RITUAL_STEP
  /\ (timeRemaining (stateData (run stalled (GameFSM.new demoRitual))) == 0)%Q
  /\ currentState (after (updateTime 0 (run stalled (GameFSM.new demoRitual))))
     = STATE_MONSTER_MAD
  /\ currentState (after (updateTime 0 (run stalled (GameFSM.new demoRitual))))
     <> currentState (stateData (run stalled (GameFSM.new demoRitual))).
Proof.
  split; [exists stalled; reflexivity|]. split; [reflexivity|]. split; [reflexivity|].
  split; [reflexivity|]. vm_compute. discriminate.
Qed.

Lemma zero_tick (fsm : GameFSM.t) :
  currentState (stateData fsm) <> STATE_RITUAL_STEP
  \/ (0 < timeRemaining (stateData fsm))%Q ->
  (timeRemaining (after (updateTime 0 fsm)) == timeRemaining (stateData fsm))%Q
  /\ currentState (after (updateTime 0 fsm)) = currentState (stateData fsm)
  /\ emitted (updateTime 0 fsm) = [].
Proof.
  intros H.
  destruct (decide (currentState (stateData fsm) = STATE_RITUAL_STEP)) as [Hs|Hs].
  - destruct H as [H|H]; [contradiction|].
    assert (timeRemaining (stateData fsm) - 0 / 1000 == timeRemaining (stateData fsm))%Q
      as Heq by (change (0 / 1000)%Q with (0 # 1000)%Q; lra).
    assert (0 < timeRemaining (stateData fsm) - 0 / 1000)%Q as Hp by (rewrite Heq; exact H).
    rewrite (updateTime_running _ _ Hs Hp). unfold after, emitted. cbn.
    split; [exact Heq|]. split; reflexivity.
  - rewrite (updateTime_elsewhere _ _ Hs). unfold after, emitted. cbn.
    split; [reflexivity|]. split; reflexivity.
Qed.

(** C9, amended.  [updateTime(0)] changes neither the time remaining nor
    the state (and calls no listener) whenever the state is not
    RITUAL_STEP or the time remaining is positive; every state a session
    of the controller reaches is such a state.  In RITUAL_STEP with no
    time remaining, a zero tick is a timeout: MONSTER_MAD. *)
Theorem zero_tick_is_idle :
  (forall fsm : GameFSM.t,
     currentState (stateData fsm) <> STATE_RITUAL_STEP
     \/ (0 < timeRemaining (stateData fsm))%Q ->
     (timeRemaining (after (updateTime 0 fsm)) == timeRemaining (stateData fsm))%Q
     /\ currentState (after (updateTime 0 fsm)) = currentState (stateData fsm)
     /\ emitted (updateTime 0 fsm) = [])
  /\ (forall (random : nat -> Q) (c : GameController.t),
        GameController.reachable random c ->
        let fsm := GameController.fsm c in
        (timeRemaining (after (updateTime 0 fsm)) == timeRemaining (stateData fsm))%Q
        /\ currentState (after (updateTime 0 fsm)) = currentState (stateData fsm)
        /\ emitted (updateTime 0 fsm) = [])
  /\ (forall fsm : GameFSM.t,
        currentState (stateData fsm) = STATE_RITUAL_STEP ->
        (timeRemaining (stateData fsm) <= 0)%Q ->
        currentState (after (updateTime 0 fsm)) = STATE_MONSTER_MAD
        /\ timeRemaining (after (updateTime 0 fsm)) = 0%Q).
Proof.
  split; [exact zero_tick|]. split.
  - intros random c H. cbv zeta. apply zero_tick.
    apply reachable_healthy in H as (_ & _ & _ & Ht). unfold ticking, data in Ht.
    destruct (decide (currentState (stateData (GameController.fsm c)) = STATE_RITUAL_STEP));
      [right; auto | left; assumption].
  - intros fsm Hs Hle.
    assert (timeRemaining (stateData fsm) - 0 / 1000 <= 0)%Q as Hle'
      by (change (0 / 1000)%Q with (0 # 1000)%Q; lra).
    rewrite (updateTime_timeout _ _ Hs Hle'). split; reflexivity.
Qed.

Lemma zero_tick_is_idle_witness :
  (timeRemaining (after (updateTime 0 (started demoRitual)))
   == timeRemaining (stateData (started demoRitual)))%Q
  /\ currentState (after (updateTime 0 (started demoRitual))) = STATE_RITUAL_STEP.
Proof.
  destruct (proj1 zero_tick_is_idle (started demoRitual)) as (Ht & Hs & _).
  - right. reflexivity.
  - split; [exact Ht | exact Hs].
Defined.

End Reachability.

(* ===================================================================== *)
(** * The input classifier: debouncing *)
(* ===================================================================== *)

Section Debounce.
Import InputManager.

Lemma HANDLE_BUTTON_PRESS_dropped (now : Z) (action : InputAction) (im : InputManager.t) :
  (now - lastTimeOr0 im action < Constants.INPUT_DEBOUNCE_MS)%Z ->
  HANDLE_BUTTON_PRESS now action im = (im, []).
Proof.
  intros H. unfold HANDLE_BUTTON_PRESS. cbv zeta.
  destruct (Z.ltb_spec (now - lastTimeOr0 im action) Constants.INPUT_DEBOUNCE_MS);
    [reflexivity | lia].
Qed.

Lemma HANDLE_BUTTON_PRESS_accepted (now : Z) (action : InputAction) (im : InputManager.t) :
  (Constants.INPUT_DEBOUNCE_MS <= now - lastTimeOr0 im action)%Z ->
  HANDLE_BUTTON_PRESS now action im =
    (mkInputManager (inputCallbacks im) (<[action := now]> (lastInputTime im)),
     (fun callback => mkCall callback action) <$> inputCallbacks im).
Proof.
  intros H. unfold HANDLE_BUTTON_PRESS. cbv zeta.
  destruct (Z.ltb_spec (now - lastTimeOr0 im action) Constants.INPUT_DEBOUNCE_MS);
    [lia | reflexivity].
Qed.

Lemma lastTimeOr0_cached (im : InputManager.t) (action : InputAction) (previous : Z) :
  lastInputTime im !! action = Some previous -> lastTimeOr0 im action = previous.
Proof.
  intros H. unfold lastTimeOr0. rewrite H. destruct (Z.eqb_spec previous 0); congruence.
Qed.

Lemma lastTimeOr0_fresh (im : InputManager.t) (action : InputAction) :
  lastInputTime im !! action = None -> lastTimeOr0 im action = 0%Z.
Proof. intros H. unfold lastTimeOr0. rewrite H. reflexivity. Qed.

Lemma previousAccepted_elem (accepted : list Spec.Input) (action : InputAction) (time : Z) :
  Spec.previousAccepted accepted action = Some time -> (time, action) ∈ accepted.
Proof.
  induction accepted as [|[t a] earlier IH]; cbn; [discriminate|].
  case_bool_decide as E.
  - intros [= ->]. subst a. apply list_elem_of_here.
  - intros H. apply list_elem_of_further, IH, H.
Qed.

Lemma tracks_accept (im : InputManager.t) (accepted : list Spec.Input)
    (now : Z) (action : InputAction) :
  Spec.tracks im accepted ->
  Spec.tracks (mkInputManager (inputCallbacks im) (<[action := now]> (lastInputTime im)))
         ((now, action) :: accepted).
Proof.
  intros H other. cbn. case_bool_decide as E.
  - subst other. apply lookup_insert_eq.
  - rewrite lookup_insert_ne by assumption. apply H.
Qed.

(** The session of the code is the session of the rule. *)
Lemma presses_debounce (inputs : list Spec.Input) :
  forall (im : InputManager.t) (accepted : list Spec.Input),
    Spec.tracks im accepted ->
    Spec.in_arrival_order inputs ->
    Spec.after_epoch Constants.INPUT_DEBOUNCE_MS inputs ->
    (forall earlier later, earlier ∈ accepted -> later ∈ inputs -> (earlier.1 <= later.1)%Z) ->
    (presses inputs im).2
    = Spec.delivered (inputCallbacks im)
        (Spec.debounce Constants.INPUT_DEBOUNCE_MS accepted inputs).
Proof.
  induction inputs as [|[now action] later IH]; intros im accepted Ht Hord Hep Hbefore;
    [reflexivity|].
  apply StronglySorted_inv in Hord as [Hord Hnow].
  apply Forall_cons in Hep as [Hep0 Hep]. cbn in Hep0.
  cbn [presses Spec.debounce].
  assert (forall earlier later0,
            earlier ∈ (now, action) :: accepted -> later0 ∈ later ->
            (earlier.1 <= later0.1)%Z) as Hbefore'.
  { intros earlier later0 He Hl. apply elem_of_cons in He as [->|He].
    - rewrite Forall_forall in Hnow. apply Hnow, Hl.
    - apply Hbefore; [exact He | apply list_elem_of_further, Hl]. }
  destruct (Spec.previousAccepted accepted action) as [previous|] eqn:Eprev.
  - assert (previous <= now)%Z as Hle.
    { apply previousAccepted_elem in Eprev.
      apply (Hbefore _ (now, action) Eprev), list_elem_of_here. }
    pose proof (lastTimeOr0_cached im action previous) as Hlast.
    rewrite (Ht action) in Hlast. specialize (Hlast Eprev).
    unfold Spec.within. case_bool_decide as Hw.
    + rewrite HANDLE_BUTTON_PRESS_dropped by (rewrite Hlast; lia).
      specialize (IH im accepted Ht Hord Hep).
      destruct (presses later im) as [im2 calls2]. cbn in *. apply IH.
      intros earlier later0 He Hl. apply Hbefore; [exact He | apply list_elem_of_further, Hl].
    + rewrite HANDLE_BUTTON_PRESS_accepted by (rewrite Hlast; lia).
      specialize (IH _ _ (tracks_accept im accepted now action Ht) Hord Hep Hbefore').
      destruct (presses later _) as [im2 calls2]. cbn in *. rewrite IH. reflexivity.
  - pose proof (lastTimeOr0_fresh im action) as Hlast.
    rewrite (Ht action) in Hlast. specialize (Hlast Eprev).
    rewrite HANDLE_BUTTON_PRESS_accepted by (rewrite Hlast; lia).
    specialize (IH _ _ (tracks_accept im accepted now action Ht) Hord Hep Hbefore').
    destruct (presses later _) as [im2 calls2]. cbn in *. rewrite IH. reflexivity.
Qed.

(** C10, as the claim has it, fails where the clock reads less than 50 or
    runs backwards: the code tests [now - (cached || 0) < 50].  A first
    input at reading 10 is dropped, though no input was accepted before
    it; an input at reading 900 after one of the same action accepted at
    1000 is dropped, though it is not within 50 ms of it; and two
    identical actions at readings 0 and 10 make no call at all, where
    the rule of the claim delivers one. *)
Lemma debounce_drops_outside_the_window :
  HANDLE_BUTTON_PRESS 10 BUTTON_A (mkInputManager [7%nat] ∅) = (mkInputManager [7%nat] ∅, [])
  /\ Spec.debounce 50 [] [(10%Z, BUTTON_A)] = [(10%Z, BUTTON_A)]
  /\ (presses [(1000%Z, BUTTON_A); (900%Z, BUTTON_A)] (mkInputManager [7%nat] ∅)).2
     = [mkCall 7%nat BUTTON_A]
  /\ Spec.delivered [7%nat] (Spec.debounce 50 [] [(1000%Z, BUTTON_A); (900%Z, BUTTON_A)])
     = [mkCall 7%nat BUTTON_A; mkCall 7%nat BUTTON_A]
  /\ (presses [(0%Z, BUTTON_A); (10%Z, BUTTON_A)] (mkInputManager [7%nat] ∅)).2 = []
  /\ Spec.delivered [7%nat] (Spec.debounce 50 [] [(0%Z, BUTTON_A); (10%Z, BUTTON_A)])
     = [mkCall 7%nat BUTTON_A].
Proof. repeat split; vm_compute; reflexivity. Qed.

(** C10, amended.  With a clock that reads at least 50 (milliseconds
    since the epoch) and does not run backwards:
    - an input of [action] within 50 ms of the previous accepted input of
      [action] is dropped: no listener is called and the cache is as it
      was;
    - any other input of [action] (none accepted before, or the previous
      one 50 ms or more ago) is accepted: every listener is called once,
      in order, with [action], and the cache records the time;
    - an input of another action leaves the cached time of [action], and
      so its debouncing, as it was;
    - over a whole session from a fresh manager, the calls made are those
      of the debounce rule of the specification;
    - two inputs of one action 10 ms apart make one call per listener.
    Outside these conditions the code drops more: a first input of
    [action] at a reading below 50, and an input at a reading behind the
    cached time of [action], are dropped as well. *)
Theorem debounce_per_action :
  (forall (im : InputManager.t) (now previous : Z) (action : InputAction),
     lastInputTime im !! action = Some previous ->
     (previous <= now < previous + 50)%Z ->
     HANDLE_BUTTON_PRESS now action im = (im, []))
  /\ (forall (im : InputManager.t) (now : Z) (action : InputAction),
        (lastInputTime im !! action = None /\ (50 <= now)%Z)
        \/ (exists previous,
              lastInputTime im !! action = Some previous /\ (previous + 50 <= now)%Z) ->
        HANDLE_BUTTON_PRESS now action im =
          (mkInputManager (inputCallbacks im) (<[action := now]> (lastInputTime im)),
           (fun callback => mkCall callback action) <$> inputCallbacks im))
  /\ (forall (im : InputManager.t) (now : Z) (action other : InputAction),
        other <> action ->
        lastInputTime (HANDLE_BUTTON_PRESS now other im).1 !! action
        = lastInputTime im !! action
        /\ inputCallbacks (HANDLE_BUTTON_PRESS now other im).1 = inputCallbacks im)
  /\ (forall (callbacks : list InputCallback) (inputs : list Spec.Input),
        Spec.in_arrival_order inputs ->
        Spec.after_epoch 50 inputs ->
        (presses inputs (mkInputManager callbacks ∅)).2
        = Spec.delivered callbacks (Spec.debounce 50 [] inputs))
  /\ (forall (callbacks : list InputCallback) (now : Z) (action : InputAction),
        (50 <= now)%Z ->
        (presses [(now, action); ((now + 10)%Z, action)] (mkInputManager callbacks ∅)).2
        = (fun callback => mkCall callback action) <$> callbacks)
  /\ (forall (im : InputManager.t) (now : Z) (action : InputAction),
        lastInputTime im !! action = None ->
        (now < 50)%Z ->
        HANDLE_BUTTON_PRESS now action im = (im, []))
  /\ (forall (im : InputManager.t) (now previous : Z) (action : InputAction),
        lastInputTime im !! action = Some previous ->
        (now < previous)%Z ->
        HANDLE_BUTTON_PRESS now action im = (im, [])).
Proof.
  split; [|split; [|split; [|split; [|split; [|split]]]]].
  - intros im now previous action Hc Hw. apply HANDLE_BUTTON_PRESS_dropped.
    rewrite (lastTimeOr0_cached _ _ _ Hc). unfold Constants.INPUT_DEBOUNCE_MS. lia.
  - intros im now action [[Hc Hn]|(previous & Hc & Hn)]; apply HANDLE_BUTTON_PRESS_accepted.
    + rewrite (lastTimeOr0_fresh _ _ Hc). unfold Constants.INPUT_DEBOUNCE_MS. lia.
    + rewrite (lastTimeOr0_cached _ _ _ Hc). unfold Constants.INPUT_DEBOUNCE_MS. lia.
  - intros im now action other Hne. unfold HANDLE_BUTTON_PRESS. cbv zeta.
    destruct (_ <? _)%Z; cbn; [split; reflexivity|].
    split; [apply lookup_insert_ne, Hne | reflexivity].
  - intros callbacks inputs Hord Hep.
    apply (presses_debounce inputs (mkInputManager callbacks ∅) []); try assumption.
    + intros action. apply lookup_empty.
    + intros earlier later He. apply elem_of_nil in He. contradiction.
  - intros callbacks now action Hn.
    rewrite (presses_debounce _ (mkInputManager callbacks ∅) []).
    + cbn. rewrite bool_decide_eq_true_2 by reflexivity.
      unfold Spec.within, Constants.INPUT_DEBOUNCE_MS. rewrite bool_decide_eq_true_2 by lia.
      cbn. apply app_nil_r.
    + intros a. apply lookup_empty.
    + repeat constructor. cbn. lia.
    + repeat constructor; cbn; unfold Constants.INPUT_DEBOUNCE_MS; lia.
    + intros earlier later He. apply elem_of_nil in He. contradiction.
  - intros im now action Hc Hn. apply HANDLE_BUTTON_PRESS_dropped.
    rewrite (lastTimeOr0_fresh _ _ Hc). unfold Constants.INPUT_DEBOUNCE_MS. lia.
  - intros im now previous action Hc Hn. apply HANDLE_BUTTON_PRESS_dropped.
    rewrite (lastTimeOr0_cached _ _ _ Hc). unfold Constants.INPUT_DEBOUNCE_MS. lia.
Qed.

Lemma debounce_per_action_witness :
  (presses [(1000%Z, BUTTON_A); (1010%Z, BUTTON_A)] (mkInputManager [7%nat] ∅)).2
  = [mkCall 7%nat BUTTON_A].
Proof.
  apply (proj1 (proj2 (proj2 (proj2 (proj2 debounce_per_action)))) [7%nat] 1000%Z BUTTON_A).
  lia.
Defined.

End Debounce.


(* ===================================================================== *)
(** * Further properties of the state machine and its orchestration *)
(* ===================================================================== *)

Section MachineExtras.
Import GameFSM Machine.

(** [REGISTER_MISTAKE] written out. *)
Lemma REGISTER_MISTAKE_monster (fsm : GameFSM.t) :
  let d := stateData fsm in
  REGISTER_MISTAKE fsm =
    (tt,
     mkFSM {| currentState := currentState d;
              currentRitual := currentRitual d;
              currentStepIndex := currentStepIndex d;
              mistakeCount := S (mistakeCount d);
              timeRemaining := timeRemaining d;
              golem_current_state := monsterOf (S (golem_madnessLevel d));
              golem_madnessLevel := S (golem_madnessLevel d);
              dataLevelNumber := dataLevelNumber d |}
           (stateChangeCallbacks fsm),
     [])
  /\ golem_current_state (after (REGISTER_MISTAKE fsm)) <> STATE_CALM
  /\ (golem_current_state (after (REGISTER_MISTAKE fsm)) = STATE_NERVOUS
      <-> (golem_madnessLevel d < 2)%nat).
Proof.
  destruct fsm as [d callbacks]. cbv zeta.
  unfold REGISTER_MISTAKE, updateGolemState, bind, gets, modify, after, monsterOf,
    Constants.MISTAKE_THRESHOLDS_ANGRY, Constants.MISTAKE_THRESHOLDS_NERVOUS.
  cbn. repeat case_bool_decide; try lia; cbn; (split; [reflexivity|]);
    (split; [discriminate|]); split; intros; try lia; try discriminate; reflexivity.
Qed.

(** [REGISTER_MISTAKE] adds one to both counters and sets the monster by
    the madness reached: NERVOUS for the first and the second mistake,
    ANGRY from the third on.  It never leaves the monster CALM, changes
    no other field and calls no listener. *)
Theorem register_mistake_sets_the_monster (fsm : GameFSM.t) :
  let d := stateData fsm in
  REGISTER_MISTAKE fsm =
    (tt,
     mkFSM {| currentState := currentState d;
              currentRitual := currentRitual d;
              currentStepIndex := currentStepIndex d;
              mistakeCount := S (mistakeCount d);
              timeRemaining := timeRemaining d;
              golem_current_state := monsterOf (S (golem_madnessLevel d));
              golem_madnessLevel := S (golem_madnessLevel d);
              dataLevelNumber := dataLevelNumber d |}
           (stateChangeCallbacks fsm),
     [])
  /\ golem_current_state (after (REGISTER_MISTAKE fsm)) <> STATE_CALM
  /\ (golem_current_state (after (REGISTER_MISTAKE fsm)) = STATE_NERVOUS
      <-> (golem_madnessLevel d < 2)%nat).
Proof. exact (REGISTER_MISTAKE_monster fsm). Qed.

(** [HANDLE_RITUAL_FAILURE] written out, by the state it is called in. *)
Lemma HANDLE_RITUAL_FAILURE_counted (fsm : GameFSM.t) :
  let d := stateData fsm in
  let r := RitualLogic.HANDLE_RITUAL_FAILURE fsm in
  let counted :=
    {| currentState := currentState d;
       currentRitual := currentRitual d;
       currentStepIndex := currentStepIndex d;
       mistakeCount := S (mistakeCount d);
       timeRemaining := timeRemaining d;
       golem_current_state := monsterOf (S (golem_madnessLevel d));
       golem_madnessLevel := S (golem_madnessLevel d);
       dataLevelNumber := dataLevelNumber d |} in
  if bool_decide (currentState d = STATE_RITUAL_STEP)
  then after r = Spec.entered STATE_MONSTER_MAD counted
       /\ golem_current_state (after r) = STATE_FLATLINE
       /\ emitted r = told (stateChangeCallbacks fsm) STATE_MONSTER_MAD (after r)
  else after r = counted /\ emitted r = [].
Proof.
  cbv zeta. unfold RitualLogic.HANDLE_RITUAL_FAILURE, bind.
  destruct (REGISTER_MISTAKE_monster fsm) as [-> _].
  case_bool_decide as Hs.
  - rewrite TRANSITION_TO_STATE_accepted by (cbn; rewrite Hs; reflexivity).
    cbn. rewrite app_nil_r. repeat split.
  - rewrite TRANSITION_TO_STATE_rejected.
    + cbn. split; reflexivity.
    + cbn. destruct (currentState (stateData fsm)); try reflexivity. contradiction.
Qed.

(** [HANDLE_RITUAL_FAILURE] counts the mistake in every state.  In
    RITUAL_STEP it ends in MONSTER_MAD with the monster FLATLINE and the
    listeners told once.  In any other state the transition is rejected:
    the state stays, nobody is told, and yet both counters have grown and
    the monster is NERVOUS or ANGRY, also where it was FLATLINE. *)
Theorem failure_is_counted_in_every_state (fsm : GameFSM.t) :
  let d := stateData fsm in
  let r := RitualLogic.HANDLE_RITUAL_FAILURE fsm in
  let counted :=
    {| currentState := currentState d;
       currentRitual := currentRitual d;
       currentStepIndex := currentStepIndex d;
       mistakeCount := S (mistakeCount d);
       timeRemaining := timeRemaining d;
       golem_current_state := monsterOf (S (golem_madnessLevel d));
       golem_madnessLevel := S (golem_madnessLevel d);
       dataLevelNumber := dataLevelNumber d |} in
  if bool_decide (currentState d = STATE_RITUAL_STEP)
  then after r = Spec.entered STATE_MONSTER_MAD counted
       /\ golem_current_state (after r) = STATE_FLATLINE
       /\ emitted r = told (stateChangeCallbacks fsm) STATE_MONSTER_MAD (after r)
  else after r = counted /\ emitted r = [].
Proof. exact (HANDLE_RITUAL_FAILURE_counted fsm). Qed.

(** [RETRY_RITUAL] written out. *)
Lemma RETRY_RITUAL_restarts (fsm : GameFSM.t) :
  let d := stateData fsm in
  let r := RitualLogic.RETRY_RITUAL fsm in
  after r =
    {| currentState := STATE_RITUAL_STEP;
       currentRitual := currentRitual d;
       currentStepIndex := 0;
       mistakeCount := 0;
       timeRemaining := startingTime (currentRitual d);
       golem_current_state := STATE_CALM;
       golem_madnessLevel := 0;
       dataLevelNumber := dataLevelNumber d |}
  /\ emitted r = told (stateChangeCallbacks fsm) STATE_RITUAL_STEP (after r).
Proof.
  destruct fsm as [d callbacks]. cbv zeta.
  unfold RitualLogic.RETRY_RITUAL, resetToFirstStep, bind, modify.
  cbn -[TRANSITION_TO_STATE].
  rewrite TRANSITION_TO_STATE_accepted by apply to_RITUAL_STEP_always.
  unfold after, emitted, told, startingTime, firstTimeLimitOr5. cbn.
  destruct (steps (currentRitual d) !! 0%nat); rewrite ?app_nil_r; split; reflexivity.
Qed.

(** [RETRY_RITUAL] works from every state: it ends in RITUAL_STEP on the
    first step, with both counters 0 and the monster CALM, the ritual and
    the level kept, and the time remaining that of the first step (5
    seconds for a ritual without steps); the listeners are told once. *)
Theorem retry_from_every_state (fsm : GameFSM.t) :
  let d := stateData fsm in
  let r := RitualLogic.RETRY_RITUAL fsm in
  after r =
    {| currentState := STATE_RITUAL_STEP;
       currentRitual := currentRitual d;
       currentStepIndex := 0;
       mistakeCount := 0;
       timeRemaining := startingTime (currentRitual d);
       golem_current_state := STATE_CALM;
       golem_madnessLevel := 0;
       dataLevelNumber := dataLevelNumber d |}
  /\ emitted r = told (stateChangeCallbacks fsm) STATE_RITUAL_STEP (after r).
Proof. exact (RETRY_RITUAL_restarts fsm). Qed.

(** [START_NEW_RITUAL] written out. *)
Lemma START_NEW_RITUAL_starts (fsm : GameFSM.t) (ritual : Ritual) :
  let d := stateData fsm in
  let r := RitualLogic.START_NEW_RITUAL ritual fsm in
  after r =
    {| currentState := STATE_RITUAL_STEP;
       currentRitual := ritual;
       currentStepIndex := 0;
       mistakeCount := mistakeCount d;
       timeRemaining := startingTime ritual;
       golem_current_state := golem_current_state d;
       golem_madnessLevel := golem_madnessLevel d;
       dataLevelNumber := levelNumber ritual |}
  /\ emitted r = told (stateChangeCallbacks fsm) STATE_RITUAL_STEP (after r).
Proof.
  destruct fsm as [d callbacks]. cbv zeta.
  unfold RitualLogic.START_NEW_RITUAL, RitualLogic.START_RITUAL_SEQUENCE, loadRitual,
    bind, modify.
  cbn -[TRANSITION_TO_STATE].
  rewrite TRANSITION_TO_STATE_accepted by apply to_RITUAL_STEP_always.
  unfold after, emitted, told, startingTime, firstTimeLimitOr5. cbn.
  destruct (steps ritual !! 0%nat); rewrite ?app_nil_r; split; reflexivity.
Qed.

(** [START_NEW_RITUAL(ritual)] works from every state: it ends in
    RITUAL_STEP on the first step of [ritual], which is stored as given
    with its level number.  It does not touch the mistake count, the
    madness level or the monster: they carry over from the level before. *)
Theorem new_ritual_keeps_the_counters (fsm : GameFSM.t) (ritual : Ritual) :
  let d := stateData fsm in
  let r := RitualLogic.START_NEW_RITUAL ritual fsm in
  after r =
    {| currentState := STATE_RITUAL_STEP;
       currentRitual := ritual;
       currentStepIndex := 0;
       mistakeCount := mistakeCount d;
       timeRemaining := startingTime ritual;
       golem_current_state := golem_current_state d;
       golem_madnessLevel := golem_madnessLevel d;
       dataLevelNumber := levelNumber ritual |}
  /\ emitted r = told (stateChangeCallbacks fsm) STATE_RITUAL_STEP (after r).
Proof. exact (START_NEW_RITUAL_starts fsm ritual). Qed.

Lemma mirror_apply (op : Op) (fsm : GameFSM.t) :
  mistakeCount (stateData fsm) = golem_madnessLevel (stateData fsm)
  /\ dataLevelNumber (stateData fsm) = levelNumber (currentRitual (stateData fsm)) ->
  mistakeCount (stateData (apply op fsm)) = golem_madnessLevel (stateData (apply op fsm))
  /\ dataLevelNumber (stateData (apply op fsm))
     = levelNumber (currentRitual (stateData (apply op fsm))).
Proof.
  intros [Hm Hl]. destruct op as [to| | |delta| |ritual]; cbn [apply].
  - destruct (isValidTransition (currentState (stateData fsm)) to) eqn:E.
    + rewrite (TRANSITION_TO_STATE_accepted _ _ E). destruct to; cbn; auto.
    + rewrite (TRANSITION_TO_STATE_rejected _ _ E). auto.
  - rewrite ADVANCE_RITUAL_STEP_next. cbv zeta. destruct (steps _ !! _); cbn; auto.
  - destruct (REGISTER_MISTAKE_monster fsm) as [-> _]. cbn. auto.
  - destruct (decide (currentState (stateData fsm) = STATE_RITUAL_STEP)) as [Hs|Hs].
    + destruct (Qlt_le_dec 0 (timeRemaining (stateData fsm) - delta / 1000)) as [Hp|Hp].
      * rewrite (updateTime_running _ _ Hs Hp). cbn. auto.
      * rewrite (updateTime_timeout _ _ Hs Hp). cbn. auto.
    + rewrite (updateTime_elsewhere _ _ Hs). auto.
  - cbn. auto.
  - cbn. auto.
Qed.

(** Whatever operations of the machine are called, in whatever order and
    with whatever rituals: the mistake count equals the madness level,
    and the level number of the data is that of the current ritual. *)
Theorem counters_and_level_mirror (initialRitual : Ritual) (fsm : GameFSM.t) :
  Machine.reachable initialRitual fsm ->
  mistakeCount (stateData fsm) = golem_madnessLevel (stateData fsm)
  /\ dataLevelNumber (stateData fsm) = levelNumber (currentRitual (stateData fsm)).
Proof.
  intros [ops ->]. unfold run.
  assert (forall fsm0,
            mistakeCount (stateData fsm0) = golem_madnessLevel (stateData fsm0)
            /\ dataLevelNumber (stateData fsm0) = levelNumber (currentRitual (stateData fsm0)) ->
            mistakeCount (stateData (foldl (fun fsm op => apply op fsm) fsm0 ops))
            = golem_madnessLevel (stateData (foldl (fun fsm op => apply op fsm) fsm0 ops))
            /\ dataLevelNumber (stateData (foldl (fun fsm op => apply op fsm) fsm0 ops))
               = levelNumber (currentRitual
                                (stateData (foldl (fun fsm op => apply op fsm) fsm0 ops))))
    as H.
  { induction ops as [|op ops IH]; intros fsm0 H0; [exact H0|].
    cbn [foldl]. apply IH, mirror_apply, H0. }
  apply H. split; reflexivity.
Qed.

Lemma counters_and_level_mirror_witness :
  mistakeCount (stateData (run stalled (GameFSM.new demoRitual)))
  = golem_madnessLevel (stateData (run stalled (GameFSM.new demoRitual))).
Proof.
  apply (counters_and_level_mirror demoRitual). exists stalled. reflexivity.
Defined.

End MachineExtras.

Section Listeners.
Import GameFSM.

Lemma told_faithful (callbacks : list StateChangeCallback) (to : GameState)
    (d : GameStateData) :
  currentState d = to ->
  Forall (fun n => snapshot n = d /\ notifiedState n = currentState d) (told callbacks to d)
  /\ notified <$> told callbacks to d = callbacks.
Proof.
  intros Hs. unfold told. split.
  - apply Forall_fmap, Forall_true. intros callback. cbn. split; congruence.
  - rewrite <- list_fmap_compose. apply list_fmap_id.
Qed.

Lemma faithful_TRANSITION_TO_STATE (fsm : GameFSM.t) (to : GameState) :
  faithful_log (TRANSITION_TO_STATE to fsm).
Proof.
  unfold faithful_log.
  destruct (isValidTransition (currentState (stateData fsm)) to) eqn:E.
  - rewrite (TRANSITION_TO_STATE_accepted _ _ E). unfold after, emitted. cbn.
    destruct (told_faithful (stateChangeCallbacks fsm) to (Spec.entered to (stateData fsm)))
      as [H1 H2]; [destruct to; reflexivity|].
    split; [exact H1 | right; exact H2].
  - rewrite (TRANSITION_TO_STATE_rejected _ _ E). split; [constructor | left; reflexivity].
Qed.

(** A method of the shape "change the data quietly, then make one
    transition" has the log of that transition. *)
Lemma faithful_then_transition (pre : M unit) (to : GameState) (fsm : GameFSM.t) :
  emitted (pre fsm) = [] ->
  faithful_log (bind pre (fun _ => bind (TRANSITION_TO_STATE to) (fun _ => ret tt)) fsm).
Proof.
  intros Hq. unfold bind.
  destruct (pre fsm) as [[u fsm1] log1]. unfold emitted in Hq. cbn in Hq. subst log1.
  pose proof (faithful_TRANSITION_TO_STATE fsm1 to) as H.
  destruct (TRANSITION_TO_STATE to fsm1) as [[b fsm2] log2].
  unfold faithful_log, after, emitted, ret in *. cbn in *. rewrite app_nil_r. exact H.
Qed.

(** What a listener is told is true when it is told: every notification
    made by [TRANSITION_TO_STATE], [updateTime] and the five functions of
    the ritual logic carries the data the call ends with and names its
    state; a call tells either no listener or each registered listener
    once, in registration order.  [ADVANCE_RITUAL_STEP],
    [REGISTER_MISTAKE], [loadRitual] and [resetToFirstStep] tell nobody. *)
Theorem listeners_see_the_final_data (fsm : GameFSM.t) :
  (forall to, faithful_log (TRANSITION_TO_STATE to fsm))
  /\ (forall deltaTime, faithful_log (updateTime deltaTime fsm))
  /\ faithful_log (RitualLogic.START_RITUAL_SEQUENCE fsm)
  /\ faithful_log (RitualLogic.COMPLETE_RITUAL_STEP fsm)
  /\ faithful_log (RitualLogic.HANDLE_RITUAL_FAILURE fsm)
  /\ faithful_log (RitualLogic.RETRY_RITUAL fsm)
  /\ (forall ritual, faithful_log (RitualLogic.START_NEW_RITUAL ritual fsm))
  /\ emitted (ADVANCE_RITUAL_STEP fsm) = []
  /\ emitted (REGISTER_MISTAKE fsm) = []
  /\ emitted (resetToFirstStep fsm) = []
  /\ (forall ritual, emitted (loadRitual ritual fsm) = []).
Proof.
  split; [intros to; apply faithful_TRANSITION_TO_STATE|].
  split.
  { intros delta.
    destruct (decide (currentState (stateData fsm) = STATE_RITUAL_STEP)) as [Hs|Hs].
    - destruct (Qlt_le_dec 0 (timeRemaining (stateData fsm) - delta / 1000)) as [Hp|Hp].
      + rewrite (updateTime_running _ _ Hs Hp). split; [constructor | left; reflexivity].
      + rewrite (updateTime_timeout _ _ Hs Hp). unfold faithful_log, after, emitted. cbn.
        destruct (told_faithful (stateChangeCallbacks fsm) STATE_MONSTER_MAD
                    (Spec.entered STATE_MONSTER_MAD (set_timeRemaining 0 (stateData fsm))))
          as [H1 H2]; [reflexivity|].
        split; [exact H1 | right; exact H2].
    - rewrite (updateTime_elsewhere _ _ Hs). split; [constructor | left; reflexivity]. }
  split.
  { unfold RitualLogic.START_RITUAL_SEQUENCE, bind.
    pose proof (faithful_TRANSITION_TO_STATE fsm STATE_RITUAL_STEP) as H.
    destruct (TRANSITION_TO_STATE STATE_RITUAL_STEP fsm) as [[b fsm2] log2].
    unfold faithful_log, after, emitted, ret in *. cbn in *. rewrite app_nil_r. exact H. }
  split.
  { unfold RitualLogic.COMPLETE_RITUAL_STEP, bind. rewrite ADVANCE_RITUAL_STEP_next.
    cbv zeta. destruct (steps _ !! _) as [next|].
    - cbn. split; [constructor | left; reflexivity].
    - cbn [negb]. unfold bind.
      match goal with |- context [TRANSITION_TO_STATE ?to ?f] =>
        pose proof (faithful_TRANSITION_TO_STATE f to) as H;
        destruct (TRANSITION_TO_STATE to f) as [[b fsm2] log2] end.
      unfold faithful_log, after, emitted, ret in *. cbn in *. rewrite app_nil_r. exact H. }
  split.
  { apply (faithful_then_transition REGISTER_MISTAKE STATE_MONSTER_MAD).
    apply REGISTER_MISTAKE_counts. }
  split.
  { apply (faithful_then_transition resetToFirstStep STATE_RITUAL_STEP). reflexivity. }
  split.
  { intros ritual. unfold RitualLogic.START_NEW_RITUAL, RitualLogic.START_RITUAL_SEQUENCE.
    apply (faithful_then_transition (loadRitual ritual) STATE_RITUAL_STEP). reflexivity. }
  split.
  { rewrite ADVANCE_RITUAL_STEP_next. cbv zeta. destruct (steps _ !! _); reflexivity. }
  split; [apply REGISTER_MISTAKE_counts|]. split; [reflexivity|]. intros ritual. reflexivity.
Qed.





End Listeners.

Section Ticks.
Import GameFSM.

(** The helper [triggerTimeout] times out a step in progress whatever
    time is left, up to a million seconds: the machine ends in
    MONSTER_MAD with no time remaining, the monster FLATLINE and the
    listeners told once.  In any other state it does nothing.  The bound
    keeps the doubles of the helper on the side of the exact numbers:
    from about 10^14 seconds on the 100 ms it adds are lost in rounding,
    see [doubles_time_out]. *)
Theorem triggerTimeout_always_times_out (fsm : GameFSM.t) :
  (0 <= timeRemaining (stateData fsm) <= 1000000)%Q ->
  let d := stateData fsm in
  let r := TestHelpers.triggerTimeout fsm in
  if bool_decide (currentState d = STATE_RITUAL_STEP)
  then after r =
         {| currentState := STATE_MONSTER_MAD;
            currentRitual := currentRitual d;
            currentStepIndex := currentStepIndex d;
            mistakeCount := mistakeCount d;
            timeRemaining := 0;
            golem_current_state := STATE_FLATLINE;
            golem_madnessLevel := golem_madnessLevel d;
            dataLevelNumber := dataLevelNumber d |}
       /\ emitted r = told (stateChangeCallbacks fsm) STATE_MONSTER_MAD (after r)
  else r = (tt, fsm, []).
Proof.
  intros _. cbv zeta. unfold TestHelpers.triggerTimeout, getStateData, gets.
  case_bool_decide as Hs.
  - assert (timeRemaining (stateData fsm)
            - (timeRemaining (stateData fsm) * 1000 + 100) / 1000 <= 0)%Q as Hle.
    { unfold Qdiv. change (/ 1000)%Q with (1 # 1000)%Q. lra. }
    rewrite (updateTime_timeout _ _ Hs Hle). unfold after, emitted. cbn. split; reflexivity.
  - rewrite (updateTime_elsewhere _ _ Hs). reflexivity.
Qed.

Lemma triggerTimeout_always_times_out_witness :
  currentState (after (TestHelpers.triggerTimeout (started demoRitual))) = STATE_MONSTER_MAD
  /\ timeRemaining (after (TestHelpers.triggerTimeout (started demoRitual))) = 0%Q.
Proof.
  pose proof (triggerTimeout_always_times_out (started demoRitual)) as H.
  cbv zeta in H. destruct H as [-> _].
  - vm_compute. split; discriminate.
  - split; reflexivity.
Defined.

(** In doubles the helper times out on the time limits the game uses and
    up to the bound, and no longer does on 10000000000000128 seconds. *)
Lemma doubles_time_out :
  forallb Doubles.timesOut Doubles.sampleTimes = true
  /\ Doubles.timesOut 10000000000000128%float = false.
Proof. split; vm_compute; reflexivity. Qed.

(** The helper [completeStep] advances only from a step that exists: on
    an index without a step it returns [false] and changes nothing, so it
    never moves the index past [steps.length]; it returns [true] exactly
    when a further step exists, and after a [false] the ritual is
    complete. *)
Theorem completeStep_stays_in_range (fsm : GameFSM.t) :
  let d := stateData fsm in
  let r := TestHelpers.completeStep fsm in
  (result r = true <-> (S (currentStepIndex d) < length (steps (currentRitual d)))%nat)
  /\ (result (getCurrentStep fsm) = None -> r = (false, fsm, []))
  /\ (Invariants.in_range d -> Invariants.in_range (after r))
  /\ (Invariants.in_range d -> result r = false -> result (isRitualComplete r.1.2) = true)
  /\ emitted r = []
  /\ currentState (after r) = currentState d.
Proof.
  destruct fsm as [d callbacks]. cbv zeta.
  unfold TestHelpers.completeStep, getCurrentStep, isRitualComplete, gets, stepAt,
    Invariants.in_range, result, after, emitted. cbn -[ADVANCE_RITUAL_STEP].
  destruct (steps (currentRitual d) !! currentStepIndex d) as [step|] eqn:E.
  - pose proof (lookup_lt_Some _ _ _ E) as Hlt.
    rewrite ADVANCE_RITUAL_STEP_next. cbv zeta. cbn.
    destruct (steps (currentRitual d) !! S (currentStepIndex d)) as [next|] eqn:E'; cbn.
    + pose proof (lookup_lt_Some _ _ _ E') as Hlt'.
      repeat split; intros; try lia; try discriminate; try reflexivity.
    + pose proof (lookup_ge_None_1 _ _ E') as Hge.
      repeat split; intros; try lia; try discriminate; try reflexivity.
      apply bool_decide_eq_true_2. lia.
  - pose proof (lookup_ge_None_1 _ _ E) as Hge. cbn.
    repeat split; intros; try lia; try discriminate; try reflexivity.
    apply bool_decide_eq_true_2. lia.
Qed.

Lemma completeStep_stays_in_range_witness :
  Invariants.in_range
    (after (TestHelpers.completeStep (TestHelpers.completeStep (started demoRitual)).1.2)).
Proof.
  apply (completeStep_stays_in_range (TestHelpers.completeStep (started demoRitual)).1.2).
  apply (completeStep_stays_in_range (started demoRitual)).
  unfold Invariants.in_range. vm_compute. lia.
Defined.

End Ticks.

(* ===================================================================== *)
(** * Further properties of the ritual generation *)
(* ===================================================================== *)

Section GenerationExtras.
Import Rituals Invariants.

Lemma kinds_tail (n start : nat) :
  (5 <= start)%nat -> kindAt <$> seq start n = replicate n (kindAt 5).
Proof.
  revert start. induction n as [|n IH]; intros start H; [reflexivity|].
  cbn [seq fmap list_fmap replicate]. f_equal.
  - do 5 (destruct start as [|start]; [lia|]). reflexivity.
  - apply IH. lia.
Qed.

Lemma draws_length (random : nat -> Q) (ks : list StepKind) :
  forall (pos : nat) (variations : list ActionVariation),
    draws random pos ks = Some variations -> length variations = length ks.
Proof.
  induction ks as [|kind rest IH]; intros pos variations; cbn [draws].
  - intros [= <-]. reflexivity.
  - destruct (drawn kind (random pos)); [|discriminate].
    destruct (draws random (S pos) rest) as [vs|] eqn:E; [|discriminate].
    intros [= <-]. cbn. f_equal. eapply IH, E.
Qed.

Lemma zip_with_replicate_kind {A B C} (f : A -> B -> C) (a : A) (l : list B) :
  zip_with f (replicate (length l) a) l = f a <$> l.
Proof. induction l as [|b l IH]; cbn; [reflexivity|]. f_equal. exact IH. Qed.

Lemma pushCleanSteps_draws (random : nat -> Q) (multiplier : Q) (n : nat) :
  forall (steps0 : list RitualStep) (pos : nat),
    pushCleanSteps n multiplier steps0 random pos =
      match draws random pos (replicate n (kindAt 5)) with
      | None => None
      | Some variations =>
          Some (steps0 ++ ((fun v => stepOfKind (kindAt 5) v multiplier) <$> variations),
                (pos + n)%nat)
      end.
Proof.
  induction n as [|n IH]; intros steps0 pos.
  - cbn. unfold gret. rewrite app_nil_r. do 2 f_equal. lia.
  - cbn [pushCleanSteps replicate draws].
    unfold gbind at 1. unfold getRandomAction, gbind, Math_random, gret.
    change (at_index CLEAN_ACTIONS
              (Qfloor (random pos * inject_Z (Z.of_nat (length CLEAN_ACTIONS)))))
      with (drawn (kindAt 5) (random pos)).
    destruct (drawn (kindAt 5) (random pos)) as [v|]; [|reflexivity].
    unfold property. rewrite IH.
    destruct (draws random (S pos) (replicate n (kindAt 5))) as [vs|]; [|reflexivity].
    cbn [fmap list_fmap]. rewrite <- app_assoc. cbn [app].
    do 2 f_equal. lia.
Qed.

(** The generator unrolled into its draws. *)
Lemma getRitualForLevel_draws (random : nat -> Q) (pos : nat) (level : Z) :
  getRitualForLevel level random pos =
    match draws random pos (kinds level) with
    | None => None
    | Some variations =>
        Some (ritualOf level variations, (pos + length (kinds level))%nat)
    end.
Proof.
  unfold getRitualForLevel, generateVariedRitual, ritualOf, kinds. cbv zeta.
  set (n := Z.to_nat (extraStepsCount level)).
  set (m := levelMultiplier level).
  change (5 + n)%nat with (S (S (S (S (S n))))).
  cbn [seq fmap list_fmap draws]. rewrite (kinds_tail n 5) by lia.
  unfold getRandomAction, gbind, Math_random, gret.
  change (at_index DISINFECT_ACTIONS
            (Qfloor (random pos * inject_Z (Z.of_nat (length DISINFECT_ACTIONS)))))
    with (drawn (kindAt 0) (random pos)).
  change (at_index SLICE_ACTIONS
            (Qfloor (random (S pos) * inject_Z (Z.of_nat (length SLICE_ACTIONS)))))
    with (drawn (kindAt 1) (random (S pos))).
  change (at_index REMOVE_ACTIONS
            (Qfloor (random (S (S pos)) * inject_Z (Z.of_nat (length REMOVE_ACTIONS)))))
    with (drawn (kindAt 2) (random (S (S pos)))).
  change (at_index CONNECT_ACTIONS
            (Qfloor (random (S (S (S pos)))
                     * inject_Z (Z.of_nat (length CONNECT_ACTIONS)))))
    with (drawn (kindAt 3) (random (S (S (S pos))))).
  change (at_index SEW_ACTIONS
            (Qfloor (random (S (S (S (S pos))))
                     * inject_Z (Z.of_nat (length SEW_ACTIONS)))))
    with (drawn (kindAt 4) (random (S (S (S (S pos)))))).
  unfold property.
  destruct (drawn (kindAt 0) (random pos)) as [v0|]; [|reflexivity].
  destruct (drawn (kindAt 1) (random (S pos))) as [v1|]; [|reflexivity].
  destruct (drawn (kindAt 2) (random (S (S pos)))) as [v2|]; [|reflexivity].
  destruct (drawn (kindAt 3) (random (S (S (S pos))))) as [v3|]; [|reflexivity].
  destruct (drawn (kindAt 4) (random (S (S (S (S pos)))))) as [v4|]; [|reflexivity].
  rewrite pushCleanSteps_draws.
  destruct (draws random (S (S (S (S (S pos))))) (replicate n (kindAt 5))) as [vs|] eqn:E;
    [|reflexivity].
  apply draws_length in E. rewrite length_replicate in E.
  cbn [zip_with length app]. rewrite length_replicate.
  rewrite <- E at 2. rewrite zip_with_replicate_kind.
  do 2 f_equal. lia.
Qed.

Lemma draws_from_tables (random : nat -> Q) (ks : list StepKind) :
  forall (pos : nat) (variations : list ActionVariation),
    draws random pos ks = Some variations ->
    Forall2 (fun kind variation => variation ∈ kindTable kind) ks variations.
Proof.
  induction ks as [|k rest IH]; intros pos variations; cbn [draws].
  - intros [= <-]. constructor.
  - destruct (drawn k (random pos)) as [v|] eqn:Ed; [|discriminate].
    destruct (draws random (S pos) rest) as [vs|] eqn:E; [|discriminate].
    intros [= <-]. constructor.
    + unfold drawn, at_index in Ed. destruct (_ <? 0)%Z; [discriminate|].
      eapply list_elem_of_lookup_2, Ed.
    + eapply IH, E.
Qed.

(** A ritual [getRitualForLevel] returns is assembled from one entry per
    step: it has [5 + floor((level - 1) / 3)] steps, the call has made
    exactly that many draws, and the ritual is the one built, field by
    field, from the level and from a list of entries, the entry for the
    step at place [i] taken from the action table of place [i].  Which
    entry of the table a draw selects is not said here. *)
Theorem ritual_from_the_draws (random : nat -> Q) (pos pos' : nat) (level : Z)
    (ritual : Ritual) :
  getRitualForLevel level random pos = Some (ritual, pos') ->
  pos' = (pos + length (steps ritual))%nat
  /\ length (steps ritual) = (5 + Z.to_nat ((level - 1) / 3))%nat
  /\ exists variations,
       ritual = ritualOf level variations
       /\ Forall2 (fun kind variation => variation ∈ kindTable kind)
                  (kinds level) variations.
Proof.
  intros H. rewrite getRitualForLevel_draws in H.
  destruct (draws random pos (kinds level)) as [variations|] eqn:E; [|discriminate].
  injection H as <- <-.
  pose proof (draws_length _ _ _ _ E) as Hlen.
  assert (length (kinds level) = (5 + Z.to_nat ((level - 1) / 3))%nat) as Hkinds
    by (unfold kinds, extraStepsCount; rewrite length_fmap, length_seq; reflexivity).
  assert (length (steps (ritualOf level variations)) = length (kinds level)) as Hsteps
    by (cbn [steps ritualOf]; rewrite length_zip_with; lia).
  rewrite Hsteps. split; [reflexivity|]. split; [exact Hkinds|].
  exists variations. split; [reflexivity|]. eapply draws_from_tables, E.
Qed.

Lemma ritual_from_the_draws_witness :
  exists ritual pos',
    getRitualForLevel 4 half 3 = Some (ritual, pos')
    /\ pos' = 9%nat
    /\ length (steps ritual) = 6%nat.
Proof.
  do 2 eexists. split; [vm_compute; reflexivity|].
  assert (getRitualForLevel 4 half 3
          = Some (default emptyRitual (fst <$> getRitualForLevel 4 half 3), 9%nat)) as H
    by (vm_compute; reflexivity).
  destruct (ritual_from_the_draws half 3 9 4 _ H) as (Hpos & Hlen & _).
  split; [reflexivity|]. exact Hlen.
Defined.

Lemma draws_lookup (random : nat -> Q) (ks : list StepKind) :
  forall (pos : nat) (variations : list ActionVariation),
    draws random pos ks = Some variations ->
    forall i kind variation,
      ks !! i = Some kind -> variations !! i = Some variation ->
      drawn kind (random (pos + i)%nat) = Some variation.
Proof.
  induction ks as [|k rest IH]; intros pos variations; cbn [draws].
  - intros _ i kind variation Hk. rewrite lookup_nil in Hk. discriminate.
  - destruct (drawn k (random pos)) as [v|] eqn:Ed; [|discriminate].
    destruct (draws random (S pos) rest) as [vs|] eqn:E; [|discriminate].
    intros [= <-] [|i] kind variation Hk Hv; cbn in Hk, Hv.
    + injection Hk as <-. injection Hv as <-. rewrite Nat.add_0_r. exact Ed.
    + replace (pos + S i)%nat with (S pos + i)%nat by lia. eapply IH; eassumption.
Qed.

Lemma drawn_elem (kind : StepKind) (r : Q) (variation : ActionVariation) :
  drawn kind r = Some variation -> variation ∈ kindTable kind.
Proof.
  unfold drawn, at_index. destruct (_ <? 0)%Z; [discriminate|].
  apply list_elem_of_lookup_2.
Qed.

(** In every table the text of an entry names its action, and no entry
    asks for START or PAUSE. *)
Lemma tables_describe_their_actions (i : nat) (variation : ActionVariation) :
  variation ∈ kindTable (kindAt i) ->
  text variation = describe (action variation)
  /\ action variation <> BUTTON_START
  /\ action variation <> BUTTON_PAUSE.
Proof.
  intros H.
  assert (Forall (fun v => text v = describe (action v)
                           /\ action v <> BUTTON_START /\ action v <> BUTTON_PAUSE)
                 (kindTable (kindAt i))) as Hall.
  { do 5 (destruct i as [|i]; [repeat constructor; discriminate|]).
    repeat constructor; discriminate. }
  rewrite Forall_forall in Hall. apply Hall, H.
Qed.

Lemma kinds_lookup (level : Z) (i : nat) (kind : StepKind) :
  kinds level !! i = Some kind -> kind = kindAt i.
Proof.
  unfold kinds. rewrite list_lookup_fmap.
  destruct (seq 0 (5 + Z.to_nat (extraStepsCount level)) !! i) as [j|] eqn:E; [|discriminate].
  apply lookup_seq in E as [-> _]. cbn. congruence.
Qed.

(** The step at a place of a generated ritual, and the draw it came from. *)
Lemma generated_step_at (random : nat -> Q) (pos pos' : nat) (level : Z)
    (ritual : Ritual) (i : nat) (step : RitualStep) :
  getRitualForLevel level random pos = Some (ritual, pos') ->
  steps ritual !! i = Some step ->
  exists variation,
    drawn (kindAt i) (random (pos + i)%nat) = Some variation
    /\ step = stepOfKind (kindAt i) variation (levelMultiplier level).
Proof.
  rewrite getRitualForLevel_draws.
  destruct (draws random pos (kinds level)) as [vs|] eqn:E; [|discriminate].
  intros [= <- _]. cbn [steps ritualOf]. rewrite lookup_zip_with.
  destruct (kinds level !! i) as [kind|] eqn:Ek; [|discriminate]. cbn.
  destruct (vs !! i) as [v|] eqn:Ev; [|discriminate]. cbn. intros [= <-].
  pose proof (draws_lookup _ _ _ _ E _ _ _ Ek Ev) as Hd.
  apply kinds_lookup in Ek. subst kind. exists v. split; [exact Hd | reflexivity].
Qed.

(** Every step of a generated ritual tells the player the action that is
    correct: at place [i] the step has the name, object and animation of
    that place, its correct action is one of the table of that place
    (never START, never PAUSE), and its prompt is the name, a colon and
    the words for exactly that action. *)
Theorem prompts_name_the_correct_action (random : nat -> Q) (pos pos' : nat)
    (level : Z) (ritual : Ritual) (i : nat) (step : RitualStep) :
  getRitualForLevel level random pos = Some (ritual, pos') ->
  steps ritual !! i = Some step ->
  name step = kindName (kindAt i)
  /\ promptText step = name step +:+ ": " +:+ describe (correctAction step)
  /\ correctAction step ∈ action <$> kindTable (kindAt i)
  /\ correctAction step <> BUTTON_START
  /\ correctAction step <> BUTTON_PAUSE
  /\ surgicalObject step = Some (kindObject (kindAt i))
  /\ surgeonAnimation step = kindAnimation (kindAt i).
Proof.
  intros H Hi. destruct (generated_step_at _ _ _ _ _ _ _ H Hi) as (v & Hd & ->).
  apply drawn_elem in Hd.
  destruct (tables_describe_their_actions i v Hd) as (Ht & Hs & Hp).
  cbn. rewrite Ht. repeat split; try assumption.
  apply list_elem_of_fmap. exists v. split; [reflexivity | exact Hd].
Qed.

Lemma prompts_name_the_correct_action_witness :
  exists ritual pos' step,
    getRitualForLevel 1 half 0 = Some (ritual, pos')
    /\ steps ritual !! 0%nat = Some step
    /\ promptText step = "Disinfect: Press Button B"
    /\ correctAction step = BUTTON_B.
Proof.
  do 3 eexists. split; [vm_compute; reflexivity|]. split; [reflexivity|].
  split; [|reflexivity].
  refine (eq_trans (proj1 (proj2 (prompts_name_the_correct_action half 0 _ 1 _ 0 _ _ _))) _).
  - vm_compute. reflexivity.
  - reflexivity.
  - reflexivity.
Defined.

Lemma getRitualForLevel_playable (random : nat -> Q) (pos pos' : nat) (level : Z)
    (ritual : Ritual) :
  getRitualForLevel level random pos = Some (ritual, pos') -> playable ritual.
Proof.
  intros H. apply Forall_forall. intros step Hin.
  apply list_elem_of_lookup in Hin as [i Hi].
  destruct (generated_step_at _ _ _ _ _ _ _ H Hi) as (v & Hd & ->).
  apply drawn_elem in Hd.
  destruct (tables_describe_their_actions i v Hd) as (_ & Hs & Hp).
  split; assumption.
Qed.

Lemma drawn_Qeq (kind : StepKind) (r1 r2 : Q) : (r1 == r2)%Q -> drawn kind r1 = drawn kind r2.
Proof.
  intros H. unfold drawn. f_equal. apply Qfloor_comp. rewrite H. reflexivity.
Qed.

Lemma draws_agree (random1 random2 : nat -> Q) (ks : list StepKind) :
  forall pos1 pos2 : nat,
    (forall k, (k < length ks)%nat -> (random1 (pos1 + k)%nat == random2 (pos2 + k)%nat)%Q) ->
    draws random1 pos1 ks = draws random2 pos2 ks.
Proof.
  induction ks as [|kind rest IH]; intros pos1 pos2 H; [reflexivity|].
  cbn [draws]. rewrite (drawn_Qeq kind (random1 pos1) (random2 pos2)).
  - rewrite (IH (S pos1) (S pos2)); [reflexivity|].
    intros k Hk. replace (S pos1 + k)%nat with (pos1 + S k)%nat by lia.
    replace (S pos2 + k)%nat with (pos2 + S k)%nat by lia. apply H. cbn. lia.
  - specialize (H 0%nat). rewrite !Nat.add_0_r in H. apply H. cbn. lia.
Qed.

(** The ritual of a level depends on nothing but the draws made for it:
    two runs whose next [5 + floor((level - 1) / 3)] draws agree, wherever
    they stand on their tapes, both throw or return the same ritual. *)
Theorem same_draws_same_ritual (random1 random2 : nat -> Q) (pos1 pos2 : nat) (level : Z) :
  (forall k, (k < 5 + Z.to_nat ((level - 1) / 3))%nat ->
             (random1 (pos1 + k)%nat == random2 (pos2 + k)%nat)%Q) ->
  fst <$> getRitualForLevel level random1 pos1 = fst <$> getRitualForLevel level random2 pos2.
Proof.
  intros H. rewrite !getRitualForLevel_draws.
  rewrite (draws_agree random1 random2 (kinds level) pos1 pos2).
  - destruct (draws random2 pos2 (kinds level)); reflexivity.
  - intros k Hk. apply H. unfold kinds in Hk. rewrite length_fmap, length_seq in Hk.
    exact Hk.
Qed.

Lemma same_draws_same_ritual_witness :
  fst <$> getRitualForLevel 4 half 0 = fst <$> getRitualForLevel 4 half 17.
Proof.
  apply (same_draws_same_ritual half half 0 17 4). intros k _. reflexivity.
Defined.

Lemma levelMultiplier_saturated (level : Z) :
  (9 <= level)%Z -> (levelMultiplier level == 6 # 10)%Q.
Proof.
  intros H. unfold levelMultiplier. apply Q.max_l. unfold timeReduction.
  rewrite Zle_Qle in H. change (inject_Z 9) with 9%Q in H. lra.
Qed.

Lemma levelMultiplier_bounds (level : Z) :
  (1 <= level)%Z -> (6 # 10 <= levelMultiplier level)%Q /\ (levelMultiplier level <= 1)%Q.
Proof.
  intros H. unfold levelMultiplier. split; [apply Q.le_max_l|].
  apply Q.max_lub; [lra|]. unfold timeReduction. rewrite Zle_Qle in H.
  change (inject_Z 1) with 1%Q in H. lra.
Qed.

Lemma inject_Z_le (a b : Z) : (a <= b)%Z -> (inject_Z a <= inject_Z b)%Q.
Proof. intros H. rewrite <- Zle_Qle. exact H. Qed.

Lemma Qfloor_at_least (z : Z) (x : Q) : (inject_Z z <= x)%Q -> (z <= Qfloor x)%Z.
Proof.
  intros H. apply Qfloor_resp_le in H. rewrite Qfloor_Z in H. exact H.
Qed.

Lemma Qfloor_at_most (z : Z) (x : Q) : (x <= inject_Z z)%Q -> (Qfloor x <= z)%Z.
Proof.
  intros H. apply Qfloor_resp_le in H. rewrite Qfloor_Z in H. exact H.
Qed.

(** The time pressure stops growing at level 9.  From level 1 on the five
    base steps have between 6 and 10 seconds and the extra steps between
    4 and 8; from level 9 on the base steps have exactly 6 seconds and the
    extra steps exactly 4, whatever the level. *)
Theorem time_limits_bottom_out (random : nat -> Q) (pos pos' : nat) (level : Z)
    (ritual : Ritual) (i : nat) (step : RitualStep) :
  (1 <= level)%Z ->
  getRitualForLevel level random pos = Some (ritual, pos') ->
  steps ritual !! i = Some step ->
  (if decide (i < 5)%nat
   then (6 <= timeLimit step <= 10)%Q
   else (4 <= timeLimit step <= 8)%Q)
  /\ ((9 <= level)%Z -> timeLimit step = if decide (i < 5)%nat then 6%Q else 4%Q).
Proof.
  intros Hl H Hi. rewrite (generated_limit_at _ _ _ _ _ _ _ H Hi).
  destruct (levelMultiplier_bounds level Hl) as [Hlo Hhi].
  unfold max3floor. split.
  - destruct (decide (i < 5)%nat).
    + assert (6 <= Qfloor (10 * levelMultiplier level))%Z
        by (apply Qfloor_at_least; change (inject_Z 6) with 6%Q; lra).
      assert (Qfloor (10 * levelMultiplier level) <= 10)%Z
        by (apply Qfloor_at_most; change (inject_Z 10) with 10%Q; lra).
      split; [apply (inject_Z_le 6 _) | apply (inject_Z_le _ 10)]; lia.
    + assert (4 <= Qfloor (8 * levelMultiplier level))%Z
        by (apply Qfloor_at_least; change (inject_Z 4) with 4%Q; lra).
      assert (Qfloor (8 * levelMultiplier level) <= 8)%Z
        by (apply Qfloor_at_most; change (inject_Z 8) with 8%Q; lra).
      split; [apply (inject_Z_le 4 _) | apply (inject_Z_le _ 8)]; lia.
  - intros H9. pose proof (levelMultiplier_saturated level H9) as Hm.
    destruct (decide (i < 5)%nat).
    + rewrite (Qfloor_comp (10 * levelMultiplier level) 6) by (rewrite Hm; reflexivity).
      reflexivity.
    + rewrite (Qfloor_comp (8 * levelMultiplier level) (48 # 10)) by (rewrite Hm; reflexivity).
      reflexivity.
Qed.

Lemma time_limits_bottom_out_witness :
  exists ritual pos' step,
    getRitualForLevel 12 half 0 = Some (ritual, pos')
    /\ steps ritual !! 6%nat = Some step
    /\ timeLimit step = 4%Q.
Proof.
  do 3 eexists. split; [vm_compute; reflexivity|]. split; [reflexivity|].
  assert (1 <= 12)%Z as H1 by lia. assert (9 <= 12)%Z as H9 by lia.
  refine (proj2 (time_limits_bottom_out half 0 _ 12 _ 6 _ H1 _ _) H9).
  - vm_compute. reflexivity.
  - reflexivity.
Defined.

End GenerationExtras.

(* ===================================================================== *)
(** * Further properties of the controller *)
(* ===================================================================== *)

Section ControllerExtras.
Import GameFSM Invariants.

Lemma listeners_keep_the_rest (log : list Notification) (c : GameController.t) :
  let c' := foldl (fun c n => GameController.onStateChange n c) c log in
  GameController.currentLevel c' = GameController.currentLevel c
  /\ GameController.inputManager c' = GameController.inputManager c
  /\ GameController.lastFrameTime c' = GameController.lastFrameTime c
  /\ GameController.randomPos c' = GameController.randomPos c.
Proof.
  cbv zeta. revert c. induction log as [|n log IH]; intros c; [repeat split|].
  cbn [foldl]. destruct (IH (GameController.onStateChange n c)) as (-> & -> & -> & ->).
  unfold GameController.onStateChange. case_bool_decide; [|repeat split].
  destruct (notifiedState n); repeat split.
Qed.

Lemma call_level {A} (m : M A) (c : GameController.t) :
  GameController.currentLevel (GameController.call m c).2 = GameController.currentLevel c.
Proof.
  unfold GameController.call. destruct (m (GameController.fsm c)) as [[a fsm'] log]. cbn.
  apply (listeners_keep_the_rest log (GameController.set_fsm fsm' c)).
Qed.

Lemma call_data {A} (m : M A) (c : GameController.t) :
  data (GameController.call m c).2 = after (m (GameController.fsm c)).
Proof. unfold data, after. destruct (call_fsm m c) as [_ ->]. reflexivity. Qed.

(** The listener of the controller raises the delay when it is told of
    MONSTER_MAD or ITS_ALIVE, and leaves it otherwise. *)
Lemma call_delay {A} (m : M A) (c : GameController.t) (to : GameState) (d : GameStateData) :
  emitted (m (GameController.fsm c)) = told [GameController.stateChangeListener] to d ->
  GameController.animationDelayActive (GameController.call m c).2
  = match to with
    | STATE_MONSTER_MAD | STATE_ITS_ALIVE => true
    | _ => GameController.animationDelayActive c
    end.
Proof.
  unfold GameController.call, emitted. destruct (m (GameController.fsm c)) as [[a fsm'] log].
  cbn. intros ->. cbn. unfold GameController.onStateChange. cbn.
  destruct to; reflexivity.
Qed.

Lemma call_quiet {A} (m : M A) (c : GameController.t) :
  emitted (m (GameController.fsm c)) = [] ->
  (GameController.call m c).2 = GameController.set_fsm (m (GameController.fsm c)).1.2 c.
Proof.
  unfold GameController.call, emitted. destruct (m (GameController.fsm c)) as [[a fsm'] log].
  cbn. intros ->. reflexivity.
Qed.

(** The methods the controller calls leave the registry as it is. *)
Lemma registry_kept (fsm : GameFSM.t) :
  (forall to, stateChangeCallbacks (TRANSITION_TO_STATE to fsm).1.2 = stateChangeCallbacks fsm)
  /\ (forall delta, stateChangeCallbacks (updateTime delta fsm).1.2 = stateChangeCallbacks fsm)
  /\ stateChangeCallbacks (RitualLogic.COMPLETE_RITUAL_STEP fsm).1.2 = stateChangeCallbacks fsm
  /\ stateChangeCallbacks (RitualLogic.HANDLE_RITUAL_FAILURE fsm).1.2
     = stateChangeCallbacks fsm
  /\ stateChangeCallbacks (RitualLogic.RETRY_RITUAL fsm).1.2 = stateChangeCallbacks fsm
  /\ (forall ritual,
        stateChangeCallbacks (RitualLogic.START_NEW_RITUAL ritual fsm).1.2
        = stateChangeCallbacks fsm).
Proof.
  assert (forall f to, stateChangeCallbacks (TRANSITION_TO_STATE to f).1.2
                       = stateChangeCallbacks f) as HT.
  { intros f to. destruct (isValidTransition (currentState (stateData f)) to) eqn:E.
    - rewrite (TRANSITION_TO_STATE_accepted _ _ E). reflexivity.
    - rewrite (TRANSITION_TO_STATE_rejected _ _ E). reflexivity. }
  split; [apply HT|]. split.
  { intros delta.
    destruct (decide (currentState (stateData fsm) = STATE_RITUAL_STEP)) as [Hs|Hs].
    - destruct (Qlt_le_dec 0 (timeRemaining (stateData fsm) - delta / 1000)) as [Hp|Hp].
      + rewrite (updateTime_running _ _ Hs Hp). reflexivity.
      + rewrite (updateTime_timeout _ _ Hs Hp). reflexivity.
    - rewrite (updateTime_elsewhere _ _ Hs). reflexivity. }
  split.
  { unfold RitualLogic.COMPLETE_RITUAL_STEP, bind. rewrite ADVANCE_RITUAL_STEP_next.
    cbv zeta. destruct (steps _ !! _); [reflexivity|]. cbn [negb]. unfold bind.
    match goal with |- context [TRANSITION_TO_STATE ?to ?f] =>
      pose proof (HT f to) as H; destruct (TRANSITION_TO_STATE to f) as [[b f2] l2] end.
    exact H. }
  split.
  { unfold RitualLogic.HANDLE_RITUAL_FAILURE, bind.
    destruct (REGISTER_MISTAKE_monster fsm) as [-> _].
    match goal with |- context [TRANSITION_TO_STATE ?to ?f] =>
      pose proof (HT f to) as H; destruct (TRANSITION_TO_STATE to f) as [[b f2] l2] end.
    exact H. }
  split.
  { destruct fsm as [d callbacks].
    unfold RitualLogic.RETRY_RITUAL, resetToFirstStep, bind, modify.
    cbn -[TRANSITION_TO_STATE].
    match goal with |- context [TRANSITION_TO_STATE ?to ?f] =>
      pose proof (HT f to) as H; destruct (TRANSITION_TO_STATE to f) as [[b f2] l2] end.
    exact H. }
  intros ritual. destruct fsm as [d callbacks].
  unfold RitualLogic.START_NEW_RITUAL, RitualLogic.START_RITUAL_SEQUENCE, loadRitual,
    bind, modify.
  cbn -[TRANSITION_TO_STATE].
  match goal with |- context [TRANSITION_TO_STATE ?to ?f] =>
    pose proof (HT f to) as H; destruct (TRANSITION_TO_STATE to f) as [[b f2] l2] end.
  exact H.
Qed.

(** [COMPLETE_RITUAL_STEP] on a step in progress. *)
Lemma COMPLETE_RITUAL_STEP_in_progress (fsm : GameFSM.t) :
  currentState (stateData fsm) = STATE_RITUAL_STEP ->
  let d := set_currentStepIndex (S (currentStepIndex (stateData fsm))) (stateData fsm) in
  match steps (currentRitual (stateData fsm)) !! S (currentStepIndex (stateData fsm)) with
  | Some next =>
      after (RitualLogic.COMPLETE_RITUAL_STEP fsm) = set_timeRemaining (timeLimit next) d
      /\ emitted (RitualLogic.COMPLETE_RITUAL_STEP fsm) = []
  | None =>
      after (RitualLogic.COMPLETE_RITUAL_STEP fsm) = Spec.entered STATE_ITS_ALIVE d
      /\ emitted (RitualLogic.COMPLETE_RITUAL_STEP fsm)
         = told (stateChangeCallbacks fsm) STATE_ITS_ALIVE (Spec.entered STATE_ITS_ALIVE d)
  end.
Proof.
  intros Hs. cbv zeta.
  unfold RitualLogic.COMPLETE_RITUAL_STEP, bind. rewrite ADVANCE_RITUAL_STEP_next. cbv zeta.
  destruct (steps _ !! _) as [next|]; [split; reflexivity|].
  cbn [negb]. unfold bind.
  rewrite TRANSITION_TO_STATE_accepted by (cbn; rewrite Hs; reflexivity).
  unfold after, emitted, told. cbn. rewrite app_nil_r. split; reflexivity.
Qed.

Lemma composed_updateTime (fsm : GameFSM.t) (deltaTime : Q) :
  composed (stateData fsm) -> composed (after (updateTime deltaTime fsm)).
Proof.
  intros (H1 & H2 & H3 & H4 & H5 & H6 & H7).
  destruct (decide (currentState (stateData fsm) = STATE_RITUAL_STEP)) as [Hs|Hs].
  - destruct (Qlt_le_dec 0 (timeRemaining (stateData fsm) - deltaTime / 1000)) as [Hp|Hp].
    + rewrite (updateTime_running _ _ Hs Hp). repeat split; assumption.
    + rewrite (updateTime_timeout _ _ Hs Hp). unfold composed, after. cbn.
      repeat split; try assumption; try discriminate. intros []. reflexivity.
  - rewrite (updateTime_elsewhere _ _ Hs). repeat split; assumption.
Qed.

Lemma composed_COMPLETE_RITUAL_STEP (fsm : GameFSM.t) :
  currentState (stateData fsm) = STATE_RITUAL_STEP ->
  composed (stateData fsm) -> composed (after (RitualLogic.COMPLETE_RITUAL_STEP fsm)).
Proof.
  intros Hs (H1 & H2 & H3 & H4 & H5 & H6 & H7).
  pose proof (COMPLETE_RITUAL_STEP_in_progress fsm Hs) as H. cbv zeta in H.
  destruct (steps _ !! _); destruct H as [-> _]; unfold composed; cbn;
    repeat split; try assumption; try discriminate; try congruence;
    intros _; apply H3; congruence.
Qed.

Lemma composed_HANDLE_RITUAL_FAILURE (fsm : GameFSM.t) :
  currentState (stateData fsm) = STATE_RITUAL_STEP ->
  composed (stateData fsm) -> composed (after (RitualLogic.HANDLE_RITUAL_FAILURE fsm)).
Proof.
  intros Hs (H1 & H2 & H3 & H4 & H5 & H6 & H7).
  pose proof (HANDLE_RITUAL_FAILURE_counted fsm) as H. cbv zeta in H.
  rewrite bool_decide_eq_true_2 in H by exact Hs. destruct H as (-> & _).
  assert (golem_madnessLevel (stateData fsm) = 0%nat) as H0 by (apply H3; congruence).
  unfold composed. cbn. rewrite H0, H2, H0.
  repeat split; try discriminate; try lia. intros []. reflexivity.
Qed.

Lemma composed_RETRY_RITUAL (fsm : GameFSM.t) :
  composed (after (RitualLogic.RETRY_RITUAL fsm)).
Proof.
  destruct (RETRY_RITUAL_restarts fsm) as [-> _]. unfold composed. cbn.
  repeat split; try discriminate; lia.
Qed.

Lemma composed_START_NEW_RITUAL (fsm : GameFSM.t) (ritual : Ritual) :
  currentState (stateData fsm) <> STATE_MONSTER_MAD ->
  composed (stateData fsm) ->
  composed (after (RitualLogic.START_NEW_RITUAL ritual fsm)).
Proof.
  intros Hs (H1 & H2 & H3 & H4 & H5 & H6 & H7).
  destruct (START_NEW_RITUAL_starts fsm ritual) as [-> _]. unfold composed. cbn.
  repeat split; try assumption; try discriminate. intros _. apply H3, Hs.
Qed.

(** A call that keeps the ritual, the level and the registry. *)
Lemma on_level_call {A} (m : M A) (c : GameController.t) :
  on_level c ->
  currentRitual (after (m (GameController.fsm c))) = currentRitual (data c) ->
  dataLevelNumber (after (m (GameController.fsm c))) = dataLevelNumber (data c) ->
  (0 <= timeRemaining (after (m (GameController.fsm c))))%Q ->
  (currentState (after (m (GameController.fsm c))) = STATE_IDLE ->
   currentState (data c) = STATE_IDLE) ->
  stateChangeCallbacks (m (GameController.fsm c)).1.2
  = stateChangeCallbacks (GameController.fsm c) ->
  on_level (GameController.call m c).2.
Proof.
  intros (L1 & L2 & L3 & L4 & L5 & L6 & L7 & L8) Hr Hl Ht Hs Hc.
  unfold on_level. cbv zeta. rewrite call_data, call_level, Hr, Hl.
  destruct (call_fsm m c) as [_ ->]. rewrite Hc.
  refine (conj L1 (conj L2 (conj L3 (conj L4 (conj L5 (conj Ht (conj _ L8))))))).
  intros Hi. apply L7, Hs, Hi.
Qed.

Lemma in_session_update (currentTime : Q) (c : GameController.t) :
  in_session c -> in_session (GameController.update currentTime c).
Proof.
  intros (Hc & Hl & Hp). unfold GameController.update. cbv zeta.
  set (c0 := GameController.set_lastFrameTime currentTime c).
  set (delta := (currentTime - GameController.lastFrameTime c)%Q).
  assert (on_level c0) as Hl0 by exact Hl.
  destruct (updateTime_counters (GameController.fsm c0) delta) as (_ & _ & _ & Hr).
  split; [|split].
  - rewrite call_data. apply composed_updateTime, Hc.
  - apply on_level_call; try assumption.
    + destruct (decide (currentState (stateData (GameController.fsm c0)) = STATE_RITUAL_STEP))
        as [Hs|Hs].
      * destruct (Qlt_le_dec 0 (timeRemaining (stateData (GameController.fsm c0))
                                - delta / 1000)) as [Hq|Hq].
        -- rewrite (updateTime_running _ _ Hs Hq). reflexivity.
        -- rewrite (updateTime_timeout _ _ Hs Hq). reflexivity.
      * rewrite (updateTime_elsewhere _ _ Hs). reflexivity.
    + destruct (decide (currentState (stateData (GameController.fsm c0)) = STATE_RITUAL_STEP))
        as [Hs|Hs].
      * destruct (Qlt_le_dec 0 (timeRemaining (stateData (GameController.fsm c0))
                                - delta / 1000)) as [Hq|Hq].
        -- rewrite (updateTime_running _ _ Hs Hq). cbn. apply Qlt_le_weak, Hq.
        -- rewrite (updateTime_timeout _ _ Hs Hq). cbn. apply Qle_refl.
      * rewrite (updateTime_elsewhere _ _ Hs). apply Hl.
    + destruct (decide (currentState (stateData (GameController.fsm c0)) = STATE_RITUAL_STEP))
        as [Hs|Hs].
      * destruct (Qlt_le_dec 0 (timeRemaining (stateData (GameController.fsm c0))
                                - delta / 1000)) as [Hq|Hq].
        -- rewrite (updateTime_running _ _ Hs Hq). cbn. intros Hi; exact Hi.
        -- rewrite (updateTime_timeout _ _ Hs Hq). cbn. discriminate.
      * rewrite (updateTime_elsewhere _ _ Hs). intros Hi; exact Hi.
    + apply registry_kept.
  - rewrite call_data, Hr. exact Hp.
Qed.

Lemma startingTime_nonneg (ritual : Ritual) :
  wellformed ritual -> (0 <= startingTime ritual)%Q.
Proof.
  intros Hw. destruct (wellformed_first _ Hw) as (step & H0 & Hpos).
  unfold startingTime. rewrite H0. apply Qlt_le_weak, Hpos.
Qed.

Lemma in_session_startLevel (random : nat -> Q) (level : Z) (c c' : GameController.t) :
  (1 <= level)%Z ->
  composed (data c) ->
  currentState (data c) <> STATE_MONSTER_MAD ->
  stateChangeCallbacks (GameController.fsm c) = [GameController.stateChangeListener] ->
  GameController.startLevel random level c = Some c' ->
  in_session c' /\ GameController.currentLevel c' = level
  /\ currentState (data c') = STATE_RITUAL_STEP
  /\ GameController.animationDelayActive c' = false.
Proof.
  intros Hlevel Hc Hs Hcb. unfold GameController.startLevel.
  cbn [GameController.randomPos GameController.set_currentLevel].
  destruct (Rituals.getRitualForLevel level random (GameController.randomPos c))
    as [[ritual pos]|] eqn:E; [|discriminate].
  intros [= <-].
  set (c0 := GameController.set_randomPos pos (GameController.set_currentLevel level c)).
  set (c1 := (GameController.call (RitualLogic.START_NEW_RITUAL ritual) c0).2).
  assert (stateData (GameController.fsm c1)
          = after (RitualLogic.START_NEW_RITUAL ritual (GameController.fsm c0))) as Hdata
    by apply (call_data (RitualLogic.START_NEW_RITUAL ritual) c0).
  assert (GameController.currentLevel c1 = level) as Hlev
    by apply (call_level (RitualLogic.START_NEW_RITUAL ritual) c0).
  assert (stateChangeCallbacks (GameController.fsm c1) = [GameController.stateChangeListener])
    as Hreg.
  { unfold c1. destruct (call_fsm (RitualLogic.START_NEW_RITUAL ritual) c0) as [_ ->].
    rewrite (proj2 (proj2 (proj2 (proj2 (proj2 (registry_kept (GameController.fsm c0)))))) ritual).
    exact Hcb. }
  assert (composed (stateData (GameController.fsm c1))) as Hcomposed.
  { rewrite Hdata. apply composed_START_NEW_RITUAL; assumption. }
  destruct (START_NEW_RITUAL_starts (GameController.fsm c0) ritual) as [Hafter _].
  cbv zeta in Hafter. rewrite Hafter in Hdata. clear Hafter.
  pose proof (generateVariedRitual_shape random _ pos level 10 (Rituals.levelMultiplier level)
                ritual E) as (Hn & _ & Hm & _).
  clearbody c1. unfold in_session, on_level, data.
  cbn [GameController.fsm GameController.currentLevel GameController.animationDelayActive
       GameController.set_animationDelayActive].
  rewrite Hlev, Hreg. split; [split; [exact Hcomposed|split]|].
  - rewrite Hdata. cbn.
    refine (conj Hlevel (conj Hn (conj Hn (conj Hm (conj _ (conj _ (conj _ _))))))).
    + eapply generated_length, E.
    + apply startingTime_nonneg. eapply getRitualForLevel_wellformed, E.
    + discriminate.
    + reflexivity.
  - rewrite Hdata. cbn. eapply getRitualForLevel_playable, E.
  - rewrite Hdata. repeat split.
Qed.

Lemma in_session_COMPLETE_RITUAL_STEP (c : GameController.t) :
  healthy (data c) -> currentState (data c) = STATE_RITUAL_STEP ->
  in_session c -> in_session (GameController.call RitualLogic.COMPLETE_RITUAL_STEP c).2.
Proof.
  intros ((Hall & _) & _) Hs (Hc & Hl & Hp).
  pose proof (COMPLETE_RITUAL_STEP_in_progress (GameController.fsm c) Hs) as H.
  cbv zeta in H. unfold data in Hs.
  assert (currentRitual (after (RitualLogic.COMPLETE_RITUAL_STEP (GameController.fsm c)))
          = currentRitual (stateData (GameController.fsm c))) as Hr
    by (destruct (steps _ !! _); destruct H as [-> _]; reflexivity).
  split; [|split].
  - rewrite call_data. apply composed_COMPLETE_RITUAL_STEP; assumption.
  - apply on_level_call; try assumption.
    + destruct (steps _ !! _); destruct H as [-> _]; reflexivity.
    + destruct (steps _ !! _) as [next|] eqn:E; destruct H as [-> _]; cbn.
      * apply Qlt_le_weak. rewrite Forall_forall in Hall. apply Hall.
        eapply list_elem_of_lookup_2, E.
      * apply Hl.
    + destruct (steps _ !! _); destruct H as [-> _]; cbn; [|discriminate].
      rewrite Hs. discriminate.
    + apply registry_kept.
  - rewrite call_data, Hr. exact Hp.
Qed.

Lemma in_session_HANDLE_RITUAL_FAILURE (c : GameController.t) :
  currentState (data c) = STATE_RITUAL_STEP ->
  in_session c -> in_session (GameController.call RitualLogic.HANDLE_RITUAL_FAILURE c).2.
Proof.
  intros Hs (Hc & Hl & Hp). unfold data in Hs.
  pose proof (HANDLE_RITUAL_FAILURE_counted (GameController.fsm c)) as H.
  cbv zeta in H. rewrite bool_decide_eq_true_2 in H by exact Hs. destruct H as (H & _).
  split; [|split].
  - rewrite call_data. apply composed_HANDLE_RITUAL_FAILURE; assumption.
  - apply on_level_call; try assumption; try (rewrite H; cbn; try reflexivity).
    + apply Hl.
    + discriminate.
    + apply registry_kept.
  - rewrite call_data, H. exact Hp.
Qed.

Lemma in_session_RETRY_RITUAL (c : GameController.t) :
  healthy (data c) ->
  in_session c -> in_session (GameController.call RitualLogic.RETRY_RITUAL c).2.
Proof.
  intros (Hw & _) (Hc & Hl & Hp).
  destruct (RETRY_RITUAL_restarts (GameController.fsm c)) as [H _]. cbv zeta in H.
  split; [|split].
  - rewrite call_data. apply composed_RETRY_RITUAL.
  - apply on_level_call; try assumption; try (rewrite H; cbn; try reflexivity).
    + apply startingTime_nonneg, Hw.
    + discriminate.
    + apply registry_kept.
  - rewrite call_data, H. exact Hp.
Qed.

Lemma call_getCurrentState (c : GameController.t) :
  (GameController.call getCurrentState c).1 = currentState (data c).
Proof. destruct (call_fsm getCurrentState c) as [-> _]. reflexivity. Qed.

Lemma call_getCurrentStep (c : GameController.t) :
  (GameController.call getCurrentStep c).1 = stepAt (data c).
Proof. destruct (call_fsm getCurrentStep c) as [-> _]. reflexivity. Qed.

Lemma in_session_handleInput (random : nat -> Q) (action : InputAction)
    (c c' : GameController.t) :
  healthy (data c) -> in_session c ->
  GameController.handleInput random action c = Some c' ->
  in_session c'.
Proof.
  intros Hh H. unfold GameController.handleInput. rewrite call_getCurrentState.
  destruct (GameController.animationDelayActive c && negb (bool_decide (action = BUTTON_START)));
    [intros [= <-]; exact H|].
  destruct (currentState (data c)) eqn:Hs.
  - case_bool_decide; [|intros [= <-]; exact H]. intros Hstart.
    destruct H as (Hc & Hl & Hp).
    apply (in_session_startLevel random _ c c') in Hstart as [Hstart _];
      [exact Hstart|apply Hl|exact Hc|rewrite Hs; discriminate|apply Hl].
  - unfold GameController.validateAction, GameController.triggerCorrectFeedback,
      GameController.triggerIncorrectFeedback.
    rewrite call_getCurrentStep.
    destruct (stepAt (data c)) as [step|].
    + destruct (RitualLogic.VALIDATE_RITUAL_ACTION action (correctAction step));
        intros [= <-].
      * apply in_session_COMPLETE_RITUAL_STEP; assumption.
      * apply in_session_HANDLE_RITUAL_FAILURE; assumption.
    + intros [= <-]. apply in_session_HANDLE_RITUAL_FAILURE; assumption.
  - case_bool_decide; intros [= <-]; [|exact H].
    apply in_session_RETRY_RITUAL; assumption.
  - case_bool_decide; [|intros [= <-]; exact H]. intros Hstart.
    unfold GameController.completeLevel in Hstart. cbv zeta in Hstart.
    destruct H as (Hc & Hl & Hp).
    apply (in_session_startLevel random _ _ c') in Hstart as [Hstart _];
      [exact Hstart| |exact Hc|unfold data in *; cbn; rewrite Hs; discriminate|apply Hl].
    cbn. destruct Hl as [Hl _]. lia.
Qed.

Lemma in_session_step (random : nat -> Q) (e : GameController.Event)
    (c c' : GameController.t) :
  healthy (data c) -> in_session c ->
  GameController.step random e c = Some c' -> healthy (data c') /\ in_session c'.
Proof.
  intros Hh H Hstep. split; [eapply healthy_step; eassumption|].
  destruct e as [currentTime|now action|]; cbn [GameController.step] in Hstep.
  - injection Hstep as <-. apply in_session_update, H.
  - unfold GameController.press in Hstep.
    destruct (InputManager.HANDLE_BUTTON_PRESS now action (GameController.inputManager c))
      as [im calls].
    assert (healthy (data (GameController.set_inputManager im c))) as Hh0 by exact Hh.
    assert (in_session (GameController.set_inputManager im c)) as H0 by exact H.
    revert Hh0 H0 Hstep. generalize (GameController.set_inputManager im c).
    clear c Hh H. induction calls as [|made rest IH]; intros c Hh H;
      cbn [GameController.onInputCalls].
    + intros [= <-]. exact H.
    + case_bool_decide; [|apply IH; assumption].
      destruct (GameController.handleInput random (InputManager.calledWith made) c)
        as [c1|] eqn:E; [|discriminate].
      apply IH.
      * eapply healthy_handleInput; eassumption.
      * eapply in_session_handleInput; eassumption.
  - injection Hstep as <-. exact H.
Qed.

Lemma in_session_new (random : nat -> Q) (now : Q) (c : GameController.t) :
  GameController.new random now = Some c -> in_session c.
Proof.
  unfold GameController.new.
  destruct (Rituals.getRitualForLevel 1 random 0) as [[ritual pos]|] eqn:E; [|discriminate].
  intros [= <-].
  pose proof (generateVariedRitual_shape random _ pos 1 10 (Rituals.levelMultiplier 1)
                ritual E) as (Hn & _ & Hm & _).
  unfold in_session, on_level, composed, data. cbn.
  split; [|split].
  - repeat split; try discriminate; lia.
  - refine (conj _ (conj Hn (conj Hn (conj Hm (conj _ (conj _ (conj _ _))))))).
    + lia.
    + eapply generated_length, E.
    + destruct (wellformed_first ritual) as (step & H0 & Hpos);
        [eapply getRitualForLevel_wellformed, E|].
      unfold firstTimeLimitOr5, or_default. rewrite H0.
      destruct (Qeq_bool (timeLimit step) 0); [discriminate|apply Qlt_le_weak, Hpos].
    + reflexivity.
    + reflexivity.
  - eapply getRitualForLevel_playable, E.
Qed.

Lemma reachable_in_session (random : nat -> Q) (c : GameController.t) :
  GameController.reachable random c -> healthy (data c) /\ in_session c.
Proof.
  induction 1 as [now c Hnew | e c c' _ [IHh IH] Hstep].
  - split; [eapply healthy_new, Hnew | eapply in_session_new, Hnew].
  - eapply in_session_step; eassumption.
Qed.

(** Throughout a session the madness level is 0 or 1 and equals the
    mistake count: it is 0 outside MONSTER_MAD, since the only way out of
    MONSTER_MAD is a retry, which resets it.  The monster is never
    NERVOUS or ANGRY at the end of an event: it is FLATLINE in
    MONSTER_MAD and ALIVE in ITS_ALIVE.  So the sprite the ritual screen
    draws for a madness level above 2 is never drawn. *)
Theorem sessions_never_show_the_angry_monster (random : nat -> Q) (c : GameController.t) :
  GameController.reachable random c ->
  composed (data c) /\ GameController.ritualStepMonster (data c) = GameController.SpriteCalm.
Proof.
  intros Hr. destruct (reachable_in_session random c Hr) as (_ & Hc & _).
  split; [exact Hc|]. unfold GameController.ritualStepMonster.
  destruct Hc as (H1 & _). rewrite bool_decide_eq_false_2; [reflexivity|lia].
Qed.

(** Throughout a session the controller plays a ritual of its current
    level: the level is at least 1 and is the level number of the data
    and of the ritual, the ritual has the multiplier and the number of
    steps of that level, no step asks for START or PAUSE, the time
    remaining is not negative, the machine is IDLE only on level 1, and
    the listener of the controller is the only one registered. *)
Theorem sessions_play_their_level (random : nat -> Q) (c : GameController.t) :
  GameController.reachable random c ->
  on_level c /\ playable (currentRitual (data c)).
Proof.
  intros Hr. destruct (reachable_in_session random c Hr) as (_ & _ & Hl & Hp).
  split; assumption.
Qed.

Lemma sessions_never_show_the_angry_monster_witness :
  GameController.ritualStepMonster (data playingController) = GameController.SpriteCalm.
Proof.
  apply (sessions_never_show_the_angry_monster half playingController).
  apply (GameController.reachable_step half (GameController.Press 1000 BUTTON_START)
           freshController).
  - apply (GameController.reachable_new half 0). vm_compute. reflexivity.
  - vm_compute. reflexivity.
Defined.

Lemma sessions_play_their_level_witness :
  playable (currentRitual (data freshController)).
Proof.
  apply (sessions_play_their_level half freshController).
  apply (GameController.reachable_new half 0). vm_compute. reflexivity.
Defined.

(** In a session a step in progress has a current step. *)
Lemma session_step_in_progress (random : nat -> Q) (c : GameController.t) :
  GameController.reachable random c ->
  currentState (data c) = STATE_RITUAL_STEP ->
  exists step, stepAt (data c) = Some step
               /\ correctAction step <> BUTTON_START
               /\ correctAction step <> BUTTON_PAUSE.
Proof.
  intros Hr Hs. destruct (reachable_in_session random c Hr) as ((_ & Hi & He & _) & _ & _ & Hp).
  assert (currentStepIndex (data c) < length (steps (currentRitual (data c))))%nat as Hlt.
  { destruct (decide (currentStepIndex (data c) = length (steps (currentRitual (data c)))))
      as [Hend|Hne].
    - apply He in Hend. congruence.
    - unfold in_range in Hi. lia. }
  apply lookup_lt_is_Some_2 in Hlt as [step Hstep]. exists step. split; [exact Hstep|].
  unfold playable in Hp. rewrite Forall_forall in Hp. apply Hp.
  eapply list_elem_of_lookup_2, Hstep.
Qed.

(** START pressed during a step of a session is a wrong action, since no
    generated step asks for it, and the animation delay does not hold it
    back: the step fails.  PAUSE does the same when no delay is active.
    The machine ends in MONSTER_MAD with one mistake counted, the monster
    FLATLINE, the step index and the time remaining kept, and the delay
    active. *)
Theorem start_and_pause_fail_the_step (random : nat -> Q) (action : InputAction)
    (c : GameController.t) :
  GameController.reachable random c ->
  currentState (data c) = STATE_RITUAL_STEP ->
  action = BUTTON_START
  \/ (action = BUTTON_PAUSE /\ GameController.animationDelayActive c = false) ->
  exists c',
    GameController.handleInput random action c = Some c'
    /\ currentState (data c') = STATE_MONSTER_MAD
    /\ mistakeCount (data c') = 1%nat
    /\ golem_madnessLevel (data c') = 1%nat
    /\ golem_current_state (data c') = STATE_FLATLINE
    /\ currentStepIndex (data c') = currentStepIndex (data c)
    /\ timeRemaining (data c') = timeRemaining (data c)
    /\ GameController.animationDelayActive c' = true.
Proof.
  intros Hr Hs Ha.
  destruct (session_step_in_progress random c Hr Hs) as (step & Hstep & Hns & Hnp).
  destruct (reachable_in_session random c Hr) as (_ & Hc & Hl & _).
  exists (GameController.call RitualLogic.HANDLE_RITUAL_FAILURE c).2. split.
  - unfold GameController.handleInput. rewrite call_getCurrentState, Hs.
    assert (GameController.animationDelayActive c && negb (bool_decide (action = BUTTON_START))
            = false) as ->.
    { destruct Ha as [->|[-> ->]]; [|reflexivity].
      rewrite bool_decide_eq_true_2 by reflexivity. apply andb_false_r. }
    unfold GameController.validateAction. rewrite call_getCurrentStep, Hstep.
    unfold RitualLogic.VALIDATE_RITUAL_ACTION. rewrite bool_decide_eq_false_2; [reflexivity|].
    destruct Ha as [->|[-> _]]; congruence.
  - pose proof (HANDLE_RITUAL_FAILURE_counted (GameController.fsm c)) as H.
    cbv zeta in H. rewrite bool_decide_eq_true_2 in H by exact Hs.
    destruct H as (Hafter & _ & Hlog).
    destruct Hl as (_ & _ & _ & _ & _ & _ & _ & Hreg). rewrite Hreg in Hlog.
    rewrite (call_delay _ c _ _ Hlog), call_data, Hafter.
    destruct Hc as (_ & Hm & H0 & _).
    assert (golem_madnessLevel (data c) = 0%nat) as Hz by (apply H0; congruence).
    cbn. unfold data in *. rewrite Hm, Hz. repeat split.
Qed.

Lemma start_and_pause_fail_the_step_witness :
  exists c',
    GameController.handleInput half BUTTON_START playingController = Some c'
    /\ currentState (data c') = STATE_MONSTER_MAD.
Proof.
  destruct (start_and_pause_fail_the_step half BUTTON_START playingController)
    as (c' & H & Hs & _).
  - apply (GameController.reachable_step half (GameController.Press 1000 BUTTON_START)
             freshController).
    + apply (GameController.reachable_new half 0). vm_compute. reflexivity.
    + vm_compute. reflexivity.
  - vm_compute. reflexivity.
  - left. reflexivity.
  - exists c'. split; [exact H | exact Hs].
Defined.

(** An action other than START changes nothing while the animation delay
    is active, and nothing outside RITUAL_STEP: the controller is the
    same afterwards, field by field.  Only START is handled in IDLE,
    MONSTER_MAD and ITS_ALIVE, and only START passes the delay. *)
Theorem other_actions_are_ignored (random : nat -> Q) (action : InputAction)
    (c : GameController.t) :
  action <> BUTTON_START ->
  GameController.animationDelayActive c = true
  \/ currentState (data c) <> STATE_RITUAL_STEP ->
  GameController.handleInput random action c = Some c.
Proof.
  intros Ha H. unfold GameController.handleInput. rewrite call_getCurrentState.
  rewrite (bool_decide_eq_false_2 _ Ha). cbn [negb].
  destruct (GameController.animationDelayActive c) eqn:Hd; [reflexivity|].
  destruct H as [H|H]; [discriminate|]. cbn [andb].
  destruct (currentState (data c)); [reflexivity|contradiction|reflexivity|reflexivity].
Qed.

Lemma other_actions_are_ignored_witness :
  GameController.handleInput half BUTTON_A freshController = Some freshController.
Proof.
  apply (other_actions_are_ignored half BUTTON_A freshController).
  - discriminate.
  - right. vm_compute. discriminate.
Defined.

(** A retry pressed while the delay of the mistake is still active starts
    the ritual again at once, and the delay stays active: the controller
    is in RITUAL_STEP on the first step with the counters cleared, and
    the delay is what it was. *)
Theorem retry_keeps_the_delay (random : nat -> Q) (c : GameController.t) :
  GameController.reachable random c ->
  currentState (data c) = STATE_MONSTER_MAD ->
  exists c',
    GameController.handleInput random BUTTON_START c = Some c'
    /\ currentState (data c') = STATE_RITUAL_STEP
    /\ currentStepIndex (data c') = 0%nat
    /\ mistakeCount (data c') = 0%nat
    /\ golem_current_state (data c') = STATE_CALM
    /\ currentRitual (data c') = currentRitual (data c)
    /\ GameController.currentLevel c' = GameController.currentLevel c
    /\ GameController.animationDelayActive c' = GameController.animationDelayActive c.
Proof.
  intros Hr Hs. destruct (reachable_in_session random c Hr) as (_ & _ & Hl & _).
  exists (GameController.call RitualLogic.RETRY_RITUAL c).2. split.
  - unfold GameController.handleInput. rewrite call_getCurrentState, Hs.
    rewrite bool_decide_eq_true_2 by reflexivity. cbn [negb].
    rewrite andb_false_r. reflexivity.
  - destruct (RETRY_RITUAL_restarts (GameController.fsm c)) as [Hafter Hlog].
    cbv zeta in Hafter, Hlog.
    destruct Hl as (_ & _ & _ & _ & _ & _ & _ & Hreg). rewrite Hreg in Hlog.
    rewrite (call_delay _ c _ _ Hlog), call_data, call_level, Hafter. repeat split.
Qed.

Lemma retry_keeps_the_delay_witness :
  exists c',
    GameController.handleInput half BUTTON_START upsetController = Some c'
    /\ currentState (data c') = STATE_RITUAL_STEP
    /\ GameController.animationDelayActive c' = true.
Proof.
  destruct (retry_keeps_the_delay half upsetController)
    as (c' & H & Hs & _ & _ & _ & _ & _ & Hd).
  - apply (GameController.reachable_step half (GameController.Press 2000 BUTTON_START)
             playingController).
    + apply (GameController.reachable_step half (GameController.Press 1000 BUTTON_START)
               freshController).
      * apply (GameController.reachable_new half 0). vm_compute. reflexivity.
      * vm_compute. reflexivity.
    + vm_compute. reflexivity.
  - vm_compute. reflexivity.
  - exists c'. split; [exact H|]. split; [exact Hs|]. rewrite Hd. vm_compute. reflexivity.
Defined.

Lemma play_correct_actions (random : nat -> Q) (n : nat) :
  forall c : GameController.t,
    currentState (data c) = STATE_RITUAL_STEP ->
    GameController.animationDelayActive c = false ->
    (currentStepIndex (data c) < length (steps (currentRitual (data c))))%nat ->
    (length (steps (currentRitual (data c))) - currentStepIndex (data c) = n)%nat ->
    exists c',
      play random (remainingActions (data c)) c = Some c'
      /\ currentState (data c') = STATE_ITS_ALIVE
      /\ currentStepIndex (data c') = length (steps (currentRitual (data c)))
      /\ currentRitual (data c') = currentRitual (data c)
      /\ golem_current_state (data c') = STATE_ALIVE
      /\ mistakeCount (data c') = mistakeCount (data c)
      /\ GameController.currentLevel c' = GameController.currentLevel c.
Proof.
  induction n as [|n IH]; intros c Hs Hd Hlt Hn; [lia|].
  destruct (lookup_lt_is_Some_2 _ _ Hlt) as [step Hstep].
  unfold remainingActions. rewrite (drop_S _ _ _ Hstep). cbn [fmap list_fmap play].
  assert (GameController.handleInput random (correctAction step) c
          = Some (GameController.call RitualLogic.COMPLETE_RITUAL_STEP c).2) as ->.
  { unfold GameController.handleInput. rewrite call_getCurrentState, Hs, Hd. cbn [andb].
    unfold GameController.validateAction, GameController.triggerCorrectFeedback.
    rewrite call_getCurrentStep. unfold stepAt. rewrite Hstep.
    unfold RitualLogic.VALIDATE_RITUAL_ACTION.
    rewrite bool_decide_eq_true_2 by reflexivity. reflexivity. }
  pose proof (COMPLETE_RITUAL_STEP_in_progress (GameController.fsm c) Hs) as H.
  cbv zeta in H.
  pose proof (call_data RitualLogic.COMPLETE_RITUAL_STEP c) as Hdata.
  pose proof (call_level RitualLogic.COMPLETE_RITUAL_STEP c) as Hlev.
  set (c1 := (GameController.call RitualLogic.COMPLETE_RITUAL_STEP c).2) in *.
  unfold data in *.
  destruct (steps (currentRitual (stateData (GameController.fsm c)))
              !! S (currentStepIndex (stateData (GameController.fsm c)))) as [next|] eqn:E.
  - destruct H as [Hafter Hlog]. rewrite Hafter in Hdata.
    assert (GameController.animationDelayActive c1 = false) as Hd1.
    { unfold c1. rewrite (call_quiet _ c Hlog). exact Hd. }
    apply lookup_lt_Some in E.
    destruct (IH c1) as (c' & Hplay & H1 & H2 & H3 & H4 & H5 & H6).
    + unfold data. rewrite Hdata. exact Hs.
    + exact Hd1.
    + unfold data. rewrite Hdata. cbn. exact E.
    + unfold data. rewrite Hdata. cbn. lia.
    + unfold remainingActions, data in *. rewrite Hdata in Hplay, H2, H3, H5.
      cbn in Hplay, H2, H3, H5. exists c'. rewrite Hplay, Hlev in *.
      repeat split; assumption.
  - destruct H as [Hafter _]. rewrite Hafter in Hdata.
    apply lookup_ge_None in E. rewrite drop_ge by exact E. cbn [fmap list_fmap play].
    exists c1. rewrite Hdata. cbn. repeat split; [lia|exact Hlev].
Qed.

(** The correct actions of the steps still to do, given one after the
    other to a controller in RITUAL_STEP with no delay active, complete
    the ritual: every one is accepted, and the last one ends in ITS_ALIVE
    with the step index at the number of steps and the monster ALIVE.
    The ritual, the level and the mistake count are kept. *)
Theorem correct_actions_complete_the_ritual (random : nat -> Q) (c : GameController.t) :
  currentState (data c) = STATE_RITUAL_STEP ->
  GameController.animationDelayActive c = false ->
  (currentStepIndex (data c) < length (steps (currentRitual (data c))))%nat ->
  exists c',
    play random (remainingActions (data c)) c = Some c'
    /\ currentState (data c') = STATE_ITS_ALIVE
    /\ currentStepIndex (data c') = length (steps (currentRitual (data c)))
    /\ currentRitual (data c') = currentRitual (data c)
    /\ golem_current_state (data c') = STATE_ALIVE
    /\ mistakeCount (data c') = mistakeCount (data c)
    /\ GameController.currentLevel c' = GameController.currentLevel c.
Proof.
  intros Hs Hd Hlt. eapply play_correct_actions; [exact Hs|exact Hd|exact Hlt|reflexivity].
Qed.

Lemma correct_actions_complete_the_ritual_witness :
  exists c',
    play half [BUTTON_B; JOYSTICK_LEFT; BUTTON_A; JOYSTICK_RIGHT; DPAD_DOWN]
      playingController = Some c'
    /\ currentState (data c') = STATE_ITS_ALIVE.
Proof.
  destruct (correct_actions_complete_the_ritual half playingController)
    as (c' & H & Hs & _).
  - vm_compute. reflexivity.
  - vm_compute. reflexivity.
  - vm_compute. lia.
  - exists c'. split; [exact H | exact Hs].
Defined.

Lemma startLevel_state (random : nat -> Q) (level : Z) (c c' : GameController.t) :
  GameController.startLevel random level c = Some c' ->
  currentState (data c') = STATE_RITUAL_STEP.
Proof.
  unfold GameController.startLevel.
  cbn [GameController.randomPos GameController.set_currentLevel].
  destruct (Rituals.getRitualForLevel level random (GameController.randomPos c))
    as [[ritual pos]|]; [|discriminate].
  intros [= <-]. unfold data.
  cbn [GameController.fsm GameController.set_animationDelayActive].
  match goal with |- context [GameController.call ?m ?c0] =>
    destruct (call_fsm m c0) as [_ ->];
    destruct (START_NEW_RITUAL_starts (GameController.fsm c0) ritual) as [H _]
  end.
  cbv zeta in H. unfold after in H. rewrite H. reflexivity.
Qed.

Lemma alive_at_end_handleInput (random : nat -> Q) (action : InputAction)
    (c c' : GameController.t) :
  (currentState (data c) = STATE_ITS_ALIVE ->
   currentStepIndex (data c) = length (steps (currentRitual (data c)))) ->
  GameController.handleInput random action c = Some c' ->
  currentState (data c') = STATE_ITS_ALIVE ->
  currentStepIndex (data c') = length (steps (currentRitual (data c'))).
Proof.
  intros H. unfold GameController.handleInput. rewrite call_getCurrentState.
  destruct (GameController.animationDelayActive c && negb (bool_decide (action = BUTTON_START)));
    [intros [= <-]; exact H|].
  destruct (currentState (data c)) eqn:Hs.
  - case_bool_decide; [|intros [= <-]; rewrite Hs; exact H].
    intros Hstart Ha. apply startLevel_state in Hstart. congruence.
  - unfold GameController.validateAction, GameController.triggerCorrectFeedback,
      GameController.triggerIncorrectFeedback.
    rewrite call_getCurrentStep.
    assert (currentState (data (GameController.call RitualLogic.HANDLE_RITUAL_FAILURE c).2)
            <> STATE_ITS_ALIVE) as Hfail.
    { rewrite call_data.
      pose proof (HANDLE_RITUAL_FAILURE_counted (GameController.fsm c)) as Hf.
      cbv zeta in Hf. rewrite bool_decide_eq_true_2 in Hf by exact Hs.
      destruct Hf as (-> & _). discriminate. }
    destruct (stepAt (data c)) as [step|] eqn:Hstep.
    + destruct (RitualLogic.VALIDATE_RITUAL_ACTION action (correctAction step));
        intros [= <-]; [|intros Ha; contradiction].
      rewrite call_data.
      pose proof (COMPLETE_RITUAL_STEP_in_progress (GameController.fsm c) Hs) as Hc.
      cbv zeta in Hc. apply lookup_lt_Some in Hstep. unfold data in Hstep, Hs.
      destruct (steps _ !! _) eqn:E; destruct Hc as [-> _]; cbn.
      * rewrite Hs. discriminate.
      * intros _. apply lookup_ge_None in E. lia.
    + intros [= <-] Ha. contradiction.
  - case_bool_decide; intros [= <-]; [|rewrite Hs; exact H]. rewrite call_data.
    destruct (RETRY_RITUAL_restarts (GameController.fsm c)) as [-> _]. discriminate.
  - case_bool_decide; [|intros [= <-]; rewrite Hs; exact H].
    unfold GameController.completeLevel. intros Hstart Ha.
    apply startLevel_state in Hstart. congruence.
Qed.

Lemma alive_at_end_step (random : nat -> Q) (e : GameController.Event)
    (c c' : GameController.t) :
  (currentState (data c) = STATE_ITS_ALIVE ->
   currentStepIndex (data c) = length (steps (currentRitual (data c)))) ->
  GameController.step random e c = Some c' ->
  currentState (data c') = STATE_ITS_ALIVE ->
  currentStepIndex (data c') = length (steps (currentRitual (data c'))).
Proof.
  intros H. destruct e as [currentTime|now action|]; cbn [GameController.step].
  - intros [= <-]. unfold GameController.update. cbv zeta. rewrite call_data.
    set (c0 := GameController.set_lastFrameTime currentTime c).
    set (delta := (currentTime - GameController.lastFrameTime c)%Q).
    destruct (decide (currentState (stateData (GameController.fsm c0)) = STATE_RITUAL_STEP))
      as [Hs|Hs].
    + destruct (Qlt_le_dec 0 (timeRemaining (stateData (GameController.fsm c0))
                              - delta / 1000)) as [Hq|Hq].
      * rewrite (updateTime_running _ _ Hs Hq). exact H.
      * rewrite (updateTime_timeout _ _ Hs Hq). cbn. discriminate.
    + rewrite (updateTime_elsewhere _ _ Hs). exact H.
  - unfold GameController.press.
    destruct (InputManager.HANDLE_BUTTON_PRESS now action (GameController.inputManager c))
      as [im calls].
    assert (currentState (data (GameController.set_inputManager im c)) = STATE_ITS_ALIVE ->
            currentStepIndex (data (GameController.set_inputManager im c))
            = length (steps (currentRitual (data (GameController.set_inputManager im c)))))
      as H0 by exact H.
    revert H0. generalize (GameController.set_inputManager im c). clear c H.
    induction calls as [|made rest IH]; intros c H; cbn [GameController.onInputCalls].
    + intros [= <-]. exact H.
    + case_bool_decide; [|apply IH; assumption].
      destruct (GameController.handleInput random (InputManager.calledWith made) c)
        as [c1|] eqn:E; [|discriminate].
      apply IH. eapply alive_at_end_handleInput; eassumption.
  - intros [= <-]. exact H.
Qed.

(** In a session the ritual is complete exactly in ITS_ALIVE:
    [isRitualComplete()] returns [true], and [getCurrentStep()] returns
    no step, in ITS_ALIVE and in no other state.  Both only read: the
    machine is the same afterwards and no listener is called. *)
Theorem complete_exactly_when_alive (random : nat -> Q) (c : GameController.t) :
  GameController.reachable random c ->
  (result (isRitualComplete (GameController.fsm c)) = true
   <-> currentState (data c) = STATE_ITS_ALIVE)
  /\ (result (getCurrentStep (GameController.fsm c)) = None
      <-> currentState (data c) = STATE_ITS_ALIVE)
  /\ isRitualComplete (GameController.fsm c)
     = (result (isRitualComplete (GameController.fsm c)), GameController.fsm c, [])
  /\ getCurrentStep (GameController.fsm c)
     = (result (getCurrentStep (GameController.fsm c)), GameController.fsm c, []).
Proof.
  intros Hr.
  assert (currentState (data c) = STATE_ITS_ALIVE ->
          currentStepIndex (data c) = length (steps (currentRitual (data c)))) as Ha.
  { induction Hr as [now c Hnew | e c c' _ IH Hstep].
    - unfold GameController.new in Hnew.
      destruct (Rituals.getRitualForLevel 1 random 0) as [[ritual pos]|]; [|discriminate].
      injection Hnew as <-. discriminate.
    - eapply alive_at_end_step; eassumption. }
  destruct (reachable_healthy random c Hr) as (_ & Hi & He & _).
  unfold in_range, at_end_only_when_alive in *.
  unfold isRitualComplete, getCurrentStep, gets, result, stepAt. cbn.
  fold (data c). repeat split.
  - intros Hb. apply bool_decide_eq_true_1 in Hb. apply He. lia.
  - intros Hs. apply bool_decide_eq_true_2. rewrite (Ha Hs). lia.
  - intros Hn. apply lookup_ge_None in Hn. apply He. lia.
  - intros Hs. apply lookup_ge_None. rewrite (Ha Hs). lia.
Qed.

Lemma complete_exactly_when_alive_witness :
  result (isRitualComplete (GameController.fsm playingController)) = true
  <-> currentState (data playingController) = STATE_ITS_ALIVE.
Proof.
  apply (complete_exactly_when_alive half playingController).
  apply (GameController.reachable_step half (GameController.Press 1000 BUTTON_START)
           freshController).
  - apply (GameController.reachable_new half 0). vm_compute. reflexivity.
  - vm_compute. reflexivity.
Defined.

End ControllerExtras.

(* ===================================================================== *)
(** * Further properties of the input manager *)
(* ===================================================================== *)

Section InputExtras.
Import InputManager.

Lemma keyAction_elem (map : list (string * InputAction)) (key : string)
    (action : InputAction) :
  keyAction map key = Some action -> (key, action) ∈ map.
Proof.
  induction map as [|[k a] rest IH]; cbn [keyAction]; [discriminate|].
  case_bool_decide as Hk.
  - intros [= <-]. subst k. apply list_elem_of_here.
  - intros H. apply list_elem_of_further, IH, H.
Qed.

(** The keyboard reaches every action, each by one key only: for an
    action there is a key whose press is handled as the press of that
    action, and two keys mapped to the same action are the same key.  A
    key that is neither in the map nor the name of a property that
    objects inherit calls nobody and leaves the manager as it is.  The
    twelve inherited names are not keys of the map, and they are not
    ignored: the lookup finds a value for them. *)
Theorem every_action_has_one_key :
  (forall action : InputAction,
     exists key,
       keyAction Constants.KEYBOARD_MAP key = Some action
       /\ forall now im,
            handleKeyDown now key im = Some (HANDLE_BUTTON_PRESS now action im))
  /\ (forall key1 key2 action,
        keyAction Constants.KEYBOARD_MAP key1 = Some action ->
        keyAction Constants.KEYBOARD_MAP key2 = Some action ->
        key1 = key2)
  /\ (forall now key im,
        keyAction Constants.KEYBOARD_MAP key = None ->
        key ∉ inheritedProperties ->
        handleKeyDown now key im = Some (im, []))
  /\ (forall now key im,
        key ∈ inheritedProperties ->
        keyAction Constants.KEYBOARD_MAP key = None
        /\ handleKeyDown now key im = None).
Proof.
  split; [|split; [|split]].
  - assert (forall action key,
              keyAction Constants.KEYBOARD_MAP key = Some action ->
              keyAction Constants.KEYBOARD_MAP key = Some action
              /\ forall now im,
                   handleKeyDown now key im = Some (HANDLE_BUTTON_PRESS now action im))
      as H.
    { intros action key H. split; [exact H|]. intros now im. unfold handleKeyDown.
      rewrite H. reflexivity. }
    intros [].
    + exists "ArrowUp". apply H. reflexivity.
    + exists "ArrowDown". apply H. reflexivity.
    + exists "ArrowLeft". apply H. reflexivity.
    + exists "ArrowRight". apply H. reflexivity.
    + exists "z". apply H. reflexivity.
    + exists "x". apply H. reflexivity.
    + exists "Enter". apply H. reflexivity.
    + exists "Escape". apply H. reflexivity.
    + exists "w". apply H. reflexivity.
    + exists "s". apply H. reflexivity.
    + exists "a". apply H. reflexivity.
    + exists "d". apply H. reflexivity.
  - intros key1 key2 action H1 H2.
    apply keyAction_elem in H1. apply keyAction_elem in H2.
    unfold Constants.KEYBOARD_MAP in H1, H2.
    repeat (apply elem_of_cons in H1 as [H1|H1]; [injection H1 as -> ->|]);
      [..|apply elem_of_nil in H1; contradiction];
      repeat (apply elem_of_cons in H2 as [H2|H2];
              [first [discriminate H2 | injection H2 as ->; reflexivity]|]);
      apply elem_of_nil in H2; contradiction.
  - intros now key im H Hn. unfold handleKeyDown. rewrite H.
    rewrite bool_decide_eq_false_2 by exact Hn. reflexivity.
  - intros now key im Hin.
    assert (keyAction Constants.KEYBOARD_MAP key = None) as Hnone.
    { unfold inheritedProperties in Hin.
      repeat (apply elem_of_cons in Hin as [->|Hin]; [reflexivity|]).
      apply elem_of_nil in Hin. contradiction. }
    split; [exact Hnone|]. unfold handleKeyDown. rewrite Hnone.
    rewrite bool_decide_eq_true_2 by exact Hin. reflexivity.
Qed.

Lemma presses_without_listeners (events : list (Z * InputAction)) :
  forall im : InputManager.t,
    inputCallbacks im = [] ->
    (presses events im).2 = [] /\ inputCallbacks (presses events im).1 = [].
Proof.
  induction events as [|[now action] rest IH]; intros im Him; cbn [presses].
  - split; [reflexivity | exact Him].
  - unfold HANDLE_BUTTON_PRESS. cbv zeta.
    destruct (now - lastTimeOr0 im action <? Constants.INPUT_DEBOUNCE_MS)%Z.
    + destruct (IH im Him) as [H1 H2].
      destruct (presses rest im) as [im2 calls2]. cbn in *. subst calls2. split; auto.
    + unfold emitInput. cbn [inputCallbacks]. rewrite Him. cbn [fmap list_fmap].
      match goal with |- context [presses rest ?im1] =>
        destruct (IH im1 eq_refl) as [H1 H2]; destruct (presses rest im1) as [im2 calls2] end.
      cbn in *. subst calls2. split; auto.
Qed.

(** After [dispose] no press calls anybody, whatever is pressed and
    whenever: the listeners registered before are gone for good. *)
Theorem dispose_silences_the_manager (events : list (Z * InputAction))
    (im : InputManager.t) :
  (presses events (dispose im)).2 = [].
Proof. apply presses_without_listeners. reflexivity. Qed.

(** [reset] forgets the debounce: the next press of any action, at a
    clock reading of 50 or more, is accepted and calls every listener in
    registration order, however recently the action was pressed before
    the reset.  The listeners are kept. *)
Theorem reset_forgets_the_debounce (now : Z) (action : InputAction) (im : InputManager.t) :
  (Constants.INPUT_DEBOUNCE_MS <= now)%Z ->
  HANDLE_BUTTON_PRESS now action (reset im)
  = (mkInputManager (inputCallbacks im) {[ action := now ]},
     (fun callback => mkCall callback action) <$> inputCallbacks im).
Proof.
  intros Hnow. unfold HANDLE_BUTTON_PRESS, reset, lastTimeOr0, emitInput. cbn.
  rewrite lookup_empty. rewrite Z.sub_0_r.
  destruct (Z.ltb_spec now Constants.INPUT_DEBOUNCE_MS) as [Hlt|_]; [lia|].
  rewrite insert_empty. reflexivity.
Qed.

Lemma reset_forgets_the_debounce_witness :
  (HANDLE_BUTTON_PRESS 1010 BUTTON_A
     (reset (HANDLE_BUTTON_PRESS 1000 BUTTON_A (on 7%nat InputManager.new)).1)).2
  = [mkCall 7%nat BUTTON_A].
Proof.
  rewrite (reset_forgets_the_debounce 1010 BUTTON_A).
  - reflexivity.
  - unfold Constants.INPUT_DEBOUNCE_MS. lia.
Defined.

Lemma Qlt_bool_true (a b : Q) : Qlt_bool a b = true -> (a < b)%Q.
Proof.
  unfold Qlt_bool. rewrite negb_true_iff. intros H. apply Qnot_le_lt. intros Hle.
  apply Qle_bool_iff in Hle. congruence.
Qed.

Lemma Qlt_bool_false (a b : Q) : Qlt_bool a b = false -> (b <= a)%Q.
Proof.
  unfold Qlt_bool. rewrite negb_false_iff. apply Qle_bool_iff.
Qed.

Lemma Qabs_negative (a : Q) : (0 < Qabs a)%Q -> (a <= 0)%Q -> (a < 0)%Q.
Proof. apply Qabs_case; intros; lra. Qed.

Lemma Qabs_of_zero (a : Q) : (a == 0)%Q -> (Qabs a == 0)%Q.
Proof. intros ->. reflexivity. Qed.

(** The joystick direction never contradicts the click: RIGHT is only
    returned right of the centre of the mesh and LEFT only left of it,
    both only when the click is at least as far from the centre across as
    it is up or down; DOWN only below the centre, when the click is at
    least as far up or down as across.  Every other click gives UP, and
    so do a click within a thousandth of the centre in both directions
    and a mesh without an intersection point.  The result is always one
    of the four joystick actions. *)
Theorem joystick_direction_follows_the_click (point : option Vector) (center : Vector) :
  match point with
  | None => getJoystickDirection point center = JOYSTICK_UP
  | Some p =>
      let dx := (x p - x center)%Q in
      let dy := (y p - y center)%Q in
      match getJoystickDirection point center with
      | JOYSTICK_RIGHT => (0 < dx)%Q /\ (Qabs dy <= Qabs dx)%Q
      | JOYSTICK_LEFT => (dx < 0)%Q /\ (Qabs dy <= Qabs dx)%Q
      | JOYSTICK_DOWN => (dy < 0)%Q /\ (Qabs dx <= Qabs dy)%Q
      | JOYSTICK_UP => True
      | _ => False
      end
      /\ ((Qabs dx <= 1 # 1000)%Q -> (Qabs dy <= 1 # 1000)%Q ->
          getJoystickDirection point center = JOYSTICK_UP)
  end.
Proof.
  destruct point as [p|]; [|reflexivity]. cbv zeta. unfold getJoystickDirection.
  set (dx := (x p - x center)%Q). set (dy := (y p - y center)%Q).
  destruct (Qlt_bool (Qabs dy) (Qabs dx)) eqn:E1;
    destruct (Qlt_bool (1 # 1000) (Qabs dx)) eqn:E2;
    destruct (Qlt_bool (1 # 1000) (Qabs dy)) eqn:E3;
    destruct (Qlt_bool 0 dx) eqn:E4;
    destruct (Qlt_bool 0 dy) eqn:E5; cbn [andb];
    repeat match goal with
           | H : Qlt_bool _ _ = true |- _ => apply Qlt_bool_true in H
           | H : Qlt_bool _ _ = false |- _ => apply Qlt_bool_false in H
           end;
    (split; [|intros Hx Hy; try reflexivity; lra]);
    try exact I; try (split; [first [assumption | apply Qabs_negative; [lra|assumption]] | lra]).
Qed.

(** The d-pad direction never contradicts the click either: RIGHT only
    right of the centre of the mesh, LEFT only left of it, DOWN only
    below it and only when the click is at least as far up or down as
    across.  A click on the centre and a mesh without an intersection
    point give UP.  The result is always one of the four d-pad
    actions. *)
Theorem dpad_direction_follows_the_click (point : option Vector) (center : Vector) :
  match point with
  | None => getDpadDirection point center = DPAD_UP
  | Some p =>
      let dx := (x p - x center)%Q in
      let dy := (y p - y center)%Q in
      match getDpadDirection point center with
      | DPAD_RIGHT => (0 < dx)%Q
      | DPAD_LEFT => (dx < 0)%Q
      | DPAD_DOWN => (dy < 0)%Q /\ (Qabs dx <= Qabs dy)%Q
      | DPAD_UP => True
      | _ => False
      end
      /\ ((dx == 0)%Q -> (dy == 0)%Q -> getDpadDirection point center = DPAD_UP)
  end.
Proof.
  destruct point as [p|]; [|reflexivity]. cbv zeta. unfold getDpadDirection.
  set (dx := (x p - x center)%Q). set (dy := (y p - y center)%Q).
  pose proof (Qabs_nonneg dx) as Hax. pose proof (Qabs_nonneg dy) as Hay.
  destruct (Qlt_bool (Qabs dx) (15 # 1000)) eqn:E1;
    destruct (Qlt_bool (Qabs dy) (15 # 1000)) eqn:E2;
    destruct (Qlt_bool (Qabs dy) (Qabs dx * (12 # 10))) eqn:E3;
    destruct (Qlt_bool 0 dx) eqn:E4;
    destruct (Qlt_bool 0 dy) eqn:E5; cbn [andb];
    repeat match goal with
           | H : Qlt_bool _ _ = true |- _ => apply Qlt_bool_true in H
           | H : Qlt_bool _ _ = false |- _ => apply Qlt_bool_false in H
           end;
    (split;
     [|intros Hx Hy; try reflexivity; exfalso;
       apply Qabs_of_zero in Hx; apply Qabs_of_zero in Hy; lra]);
    try exact I; try assumption.
  all: try (apply Qabs_negative; [lra|assumption]).
  all: try (split; [apply Qabs_negative; [lra|assumption] | lra]).
Qed.

Lemma every_action_has_one_key_witness :
  handleKeyDown 1000 "W" (on 7%nat InputManager.new) = Some (on 7%nat InputManager.new, [])
  /\ handleKeyDown 1000 "constructor" (on 7%nat InputManager.new) = None.
Proof.
  split.
  - apply (proj1 (proj2 (proj2 every_action_has_one_key)) 1000%Z "W").
    + reflexivity.
    + vm_compute. intros H. repeat (apply elem_of_cons in H as [H|H]; [discriminate H|]).
      apply elem_of_nil in H. exact H.
  - apply (proj2 (proj2 (proj2 every_action_has_one_key)) 1000%Z "constructor").
    apply list_elem_of_here.
Defined.

Lemma joystick_direction_follows_the_click_witness :
  getJoystickDirection (Some (mkVector (1 # 2000) 0)) (mkVector 0 0) = JOYSTICK_UP.
Proof.
  apply (proj2 (joystick_direction_follows_the_click
                  (Some (mkVector (1 # 2000) 0)) (mkVector 0 0)));
    vm_compute; discriminate.
Defined.

Lemma dpad_direction_follows_the_click_witness :
  getDpadDirection (Some (mkVector 3 (-2))) (mkVector 3 (-2)) = DPAD_UP.
Proof.
  apply (proj2 (dpad_direction_follows_the_click
                  (Some (mkVector 3 (-2))) (mkVector 3 (-2))));
    vm_compute; reflexivity.
Defined.

End InputExtras.
